(** * openGemini ts-sql statement executor: retry, select, merge and registry logic

    A shallow embedding of the coordination code of
    [app/ts-sql/sql/server.go] together with the properties its
    specification states about it.  The first half of the file holds the
    model, the second half the lemmas and theorems. *)

From Stdlib Require Import ZArith Lia Bool Ascii String List Permutation Sorted.
From stdpp Require Import base tactics option list gmap strings sorting.

Local Open Scope string_scope.
Local Open Scope list_scope.
Local Open Scope Z_scope.

(* ===================================================================== *)
(** * Part I: the model                                                  *)
(* ===================================================================== *)

(** ** Go primitives used by the executor *)

Module Go.

  (** [strings.HasPrefix(s, prefix)]. *)
Fixpoint HasPrefix (s prefix : string) : bool :=
    match prefix, s with
    | EmptyString, _ => true
    | String _ _, EmptyString => false
    | String c p', String d s' => if Ascii.eqb c d then HasPrefix s' p' else false
    end.

  (** [strings.Contains(s, substr)]: byte-wise substring search. *)
Fixpoint Contains (s substr : string) : bool :=
    if HasPrefix s substr then true
    else match s with
         | EmptyString => false
         | String _ s' => Contains s' substr
         end.

  (** The error numbers of package [errno] that the executor tests for. *)
Inductive Errno : Type :=
| DtypeNotSupport
| ErrQueryNotFound
| DatabaseNotFound
| ErrMeasurementNotFound
| ErrnoOther (n : Z).

Definition Errno_eqb (a b : Errno) : bool :=
  match a, b with
  | DtypeNotSupport, DtypeNotSupport => true
  | ErrQueryNotFound, ErrQueryNotFound => true
  | DatabaseNotFound, DatabaseNotFound => true
  | ErrMeasurementNotFound, ErrMeasurementNotFound => true
  | ErrnoOther n, ErrnoOther m => Z.eqb n m
  | _, _ => false
  end.

(** Identity of an error value: the package-level sentinels that the
    executor compares with [==], the numbered errors of package [errno]
    (matched with [errors.As] and [errno.Equal]), and everything else. *)
Inductive errid : Type :=
  | IdDeclareEmptyCollection          (* influxql.ErrDeclareEmptyCollection *)
  | IdUnsupportCommand                (* meta2.ErrUnsupportCommand *)
  | IdContext                         (* ctx.Err() *)
  | IdErrno (code : Errno)            (* *errno.Error *)
  | IdOther.                          (* errors.New, fmt.Errorf, ... *)

  (** A non-nil Go [error]; the nil error is [None : option error]. *)
Record error : Type := mkError { ident : errid; Error : string }.

Definition errid_eqb (a b : errid) : bool :=
    match a, b with
    | IdDeclareEmptyCollection, IdDeclareEmptyCollection => true
    | IdUnsupportCommand, IdUnsupportCommand => true
    | IdContext, IdContext => true
    | IdErrno c, IdErrno d => Errno_eqb c d
    | IdOther, IdOther => true
    | _, _ => false
    end.

  (** [uint32] arithmetic wraps around. *)
Definition uint32 (z : Z) : Z := z mod 2 ^ 32.

  (** [int] is 64 bits wide on the supported platforms; signed wrap-around. *)
Definition int64 (z : Z) : Z := (z + 2 ^ 63) mod 2 ^ 64 - 2 ^ 63.

  (** [time.Duration] constants, in nanoseconds. *)
Definition Millisecond : Z := 1000000.
Definition Second : Z := 1000000000.

End Go.
Export Go.

(** ** Rows, results and the simulated world *)

(** A cell of a [models.Row] ([interface{}] in the source). *)
Inductive Value : Type :=
| VUint64 (n : Z)
| VString (s : string).

(** [models.Row] and [models.Rows]. *)
Record Row : Type := mkRow {
  Name : string;
  Columns : list string;
  Values : list (list Value)
}.

Abbreviation Rows := (list Row).

(** [query.Result] as the executor fills it; [StatementID] is set by
    [ctx.Send]. *)
Record Result : Type := mkResult {
  Series : Rows;
  Partial : bool;
  StatementID : Z
}.

(** What the executor does to the outside, in the order it does it. *)
Inductive Event : Type :=
| EvCall (attempt : nat)              (* the wrapped function is entered *)
| EvSleep (d : Z)                     (* time.Sleep(d) *)
| EvWarn (retryNum : Z) (e : error)   (* StmtExecLogger.Warn *)
| EvError (e : option error)          (* StmtExecLogger.Error *)
| EvInfo                              (* StmtExecLogger.Info *)
| EvAbort                             (* pipelineExecutor.Abort() *)
| EvClose.                            (* proxy.close() by the caller *)

(** The world the executor runs in: the monotonic clock in nanoseconds,
    the events so far, and the results the sink has accepted so far.  The
    clock moves when a collaborator is called and when the executor
    sleeps; reading it takes no time. *)
Record World : Type := mkWorld {
  now : Z;
  trace : list Event;
  sent : list Result
}.

(** The number of calls among some events. *)
Fixpoint count_calls (evs : list Event) : nat :=
  match evs with
  | [] => 0
  | EvCall _ :: evs' => S (count_calls evs')
  | _ :: evs' => count_calls evs'
  end.

(** The duration of a call into a collaborator, with what it returned. *)
Record Outcome (A : Type) : Type := mkOutcome { took : N; value : A }.
Arguments mkOutcome {A} _ _.
Arguments took {A} _.
Arguments value {A} _.

(** How a simulated function ends: it returns, it panics, or the
    simulation ran out of steps. *)
Inductive exec (A : Type) : Type :=
| Done (a : A) (w : World)
| Panic (v : error) (w : World)
| OutOfFuel.
Arguments Done {A} _ _.
Arguments Panic {A} _ _.
Arguments OutOfFuel {A}.

Definition record (ev : Event) (w : World) : World :=
  {| now := now w; trace := trace w ++ [ev]; sent := sent w |}.

Definition advance (d : N) (w : World) : World :=
  {| now := now w + Z.of_N d; trace := trace w; sent := sent w |}.

(** [time.Sleep(d)] pauses for at least [d] (not at all when [d <= 0]);
    [extra] is what the scheduler adds. *)
Definition time_Sleep (d : Z) (extra : N) (w : World) : World :=
  record (EvSleep d) (advance (Z.to_N d + extra) w).

(** [time.Now().Sub(startTime)]. *)
Definition Since (startTime : Z) (w : World) : Z := now w - startTime.

(** [d.Seconds() < secs] for a whole number of seconds [secs]: the float
    [d.Seconds()] is [d/1e9 + (d%1e9)/1e9], which is below the integer
    [secs] exactly when [d] is below [secs * 1e9] nanoseconds (the
    rounding of the sum is far smaller than a nanosecond for any budget
    a retry loop is given). *)
Definition Seconds_lt (d secs : Z) : bool := d <? secs * Second.

(** Modelled from the spec: [ctx.Send] of package [query2] is not part of
    this file's source.  Its contract is the result sink's,
    [Send(result, sequenceNumber) -> error]: the result, stamped with the
    sequence number, reaches the sink, or the call fails and nothing is
    delivered.  [refuses] is the sink: given what it accepted before, it
    takes the result or fails with an error. *)
Definition ctx_Send (refuses : list Result -> Result -> option error)
    (r : Result) (seq : Z) (w : World) : option error * World :=
  let r' := {| Series := Series r; Partial := Partial r; StatementID := seq |} in
  match refuses (sent w) r' with
  | Some e => (Some e, w)
  | None => (None, {| now := now w; trace := trace w; sent := sent w ++ [r'] |})
  end.

(** ** Package [coordinator]: constants and error classes

    The package is not part of this file's source; its two constants and
    two error classifiers are parameters of the model. *)
Record Coordinator : Type := mkCoordinator {
  DMLTimeOutSecond : Z;
  DMLRetryInternalMillisecond : Z;
  IsRetriedError : error -> bool;
  IsRetryErrorForPtView : error -> bool
}.

(** ** The statements routed through [retryExecuteStatement] *)

Inductive Statement : Type :=
| DropDatabaseStatement (name : string)
| DropMeasurementStatement (name : string)
| DropRetentionPolicyStatement (database name : string)
| ShowTagKeysStatement
| ShowTagKeyCardinalityStatement
| ShowTagValuesStatement
| ShowSeriesStatement
| ShowMeasurementsStatement
| ShowMeasurementCardinalityStatement
| ShowSeriesCardinalityStatement
| ShowTagValuesCardinalityStatement
| ShowFieldKeysStatement
| ShowFieldKeyCardinalityStatement
| ExplainStatement (Analyze : bool)
| OtherStatement.                     (* any kind the switch has no case for *)

#[global] Instance Statement_eq_dec : EqDecision Statement.
Proof. solve_decision. Defined.

(** The per-statement executors as the retry wrapper sees them: attempt
    number [k] of statement [stmt] takes some time and returns rows and an
    error.  [stmt_oversleep k] is the extra pause of the [k]-th sleep. *)
Record StmtEnv : Type := mkStmtEnv {
  execute : Statement -> nat -> Outcome (Rows * option error);
  stmt_oversleep : nat -> N
}.

Module RetryStatement.
Section RetryStatement.
Variable coord : Coordinator.
Variable env : StmtEnv.

(** The error is retried: [coordinator.IsRetriedError(err) ||
    strings.Contains(err.Error(), "repeat mark delete")]. *)
Definition retriable (e : error) : bool :=
  IsRetriedError coord e || Contains (Error e) "repeat mark delete".

(** One executor call of attempt [k]. *)
Definition call (stmt : Statement) (k : nat) (w : World)
  : (Rows * option error) * World :=
  let o := execute env stmt k in
  (value o, advance (took o) (record (EvCall k) w)).

(** [err = e.executeX(...)]: only [err] is assigned. *)
Definition assign_err (stmt : Statement) (k : nat) (rows : Rows) (w : World)
  : (Rows * option error) * World :=
  let '((_, err), w') := call stmt k w in ((rows, err), w').

(** [rows, err = e.executeX(...)]. *)
Definition assign_rows_err (stmt : Statement) (k : nat) (w : World)
  : (Rows * option error) * World :=
  call stmt k w.

(** The type switch in the loop body. *)
Definition dispatch (stmt : Statement) (k : nat) (rows : Rows)
    (err : option error) (w : World) : (Rows * option error) * World :=
  match stmt with
  | DropDatabaseStatement _ => assign_err stmt k rows w
  | DropMeasurementStatement _ => assign_err stmt k rows w
  | DropRetentionPolicyStatement _ _ => assign_err stmt k rows w
  | ShowTagKeysStatement => assign_err stmt k rows w
  | ShowTagKeyCardinalityStatement => assign_err stmt k rows w
  | ShowTagValuesStatement => assign_rows_err stmt k w
  | ShowSeriesStatement => assign_err stmt k rows w
  | ShowMeasurementsStatement => assign_err stmt k rows w
  | ShowMeasurementCardinalityStatement => assign_rows_err stmt k w
  | ShowSeriesCardinalityStatement => assign_rows_err stmt k w
  | ShowTagValuesCardinalityStatement => assign_rows_err stmt k w
  | ShowFieldKeysStatement => assign_err stmt k rows w
  | ShowFieldKeyCardinalityStatement => assign_err stmt k rows w
  | ExplainStatement _ => assign_rows_err stmt k w
  | OtherStatement => ((rows, err), w)
  end.

(** The [for] loop of [retryExecuteStatement].  [retryNum] is the
    source's [uint32] counter, [k] counts the executor calls made. *)
Fixpoint retryExecuteStatement_loop (fuel : nat) (stmt : Statement)
    (startTime : Z) (retryNum : Z) (k : nat) (rows : Rows)
    (err : option error) (w : World) : exec (Rows * option error) :=
  match fuel with
  | O => OutOfFuel
  | S fuel' =>
    if Seconds_lt (Since startTime w) (DMLTimeOutSecond coord) then
      let w1 :=
        if 0 <? retryNum
        then time_Sleep (DMLRetryInternalMillisecond coord * Millisecond)
                        (stmt_oversleep env k) w
        else w in
      let retryNum1 := uint32 (retryNum + 1) in
      let '((rows1, err1), w2) := dispatch stmt k rows err w1 in
      match err1 with
      | None => Done (rows1, None) w2
      | Some e =>
        if retriable e
        then retryExecuteStatement_loop fuel' stmt startTime retryNum1 (S k)
               rows1 err1 (record (EvWarn retryNum1 e) w2)
        else Done (rows1, err1) (record (EvError err1) w2)
      end
    else Done (rows, err) (record (EvError err) w)
  end.

Definition retryExecuteStatement (fuel : nat) (stmt : Statement) (w : World)
  : exec (Rows * option error) :=
  retryExecuteStatement_loop fuel stmt (now w) 0 0 [] None w.

(** The error variable after the switch of attempt [k]: what the executor
    of [stmt] returned, and still nil for a kind without a case. *)
Definition attempt_err (stmt : Statement) (k : nat) : option error :=
  match stmt with
  | OtherStatement => None
  | _ => snd (value (execute env stmt k))
  end.

(** Attempt [k] failed with an error that is retried. *)
Definition retried (stmt : Statement) (k : nat) : bool :=
  match attempt_err stmt k with
  | Some e => retriable e
  | None => false
  end.

(** The error of the attempt before attempt [n]; nil before the first. *)
Definition last_err (stmt : Statement) (n : nat) : option error :=
  match n with
  | O => None
  | S m => attempt_err stmt m
  end.

(** What is left of the retry budget, in nanoseconds. *)
Definition budget_left (startTime : Z) (w : World) : Z :=
  DMLTimeOutSecond coord * Second - Since startTime w.

(** A bound on the iterations the loop can still make. *)
Definition iterations_bound (startTime retryNum : Z) (w : World) : nat :=
  if budget_left startTime w <=? 0 then O
  else Z.to_nat
         (2 * (budget_left startTime w
               / (DMLRetryInternalMillisecond coord * Millisecond) + 1)
          + (if retryNum =? 0 then 1 else 0)).

End RetryStatement.
End RetryStatement.

(** ** SELECT: pipeline construction and streaming *)

(** A batch read from the row channel ([query2.RowsChan]). *)
Record RowsChan : Type := mkRowsChan { rc_Rows : Rows; rc_Partial : bool }.

(** What one [select] of the receive loop observes.  The list of
    observations of a run ends where the row channel is found closed. *)
Inductive ChanEvent : Type :=
| Recv (rc : RowsChan)                (* case rowsChan, ok = <-proxy.rc, ok *)
| CtxDone.                            (* case <-ctx.Done() *)

(** A compiled plan ([*executor.PipelineExecutor]) seen from the executor:
    what its run makes the receive loop observe, and what
    [ExecuteExecutor] returns into [ec]. *)
Record PipelineExecutor : Type := mkPipelineExecutor {
  observed : list ChanEvent;
  ExecuteExecutor : option error
}.

(** How [executor.Select] ends. *)
Inductive SelectOutcome : Type :=
| SelectReturns (p : option PipelineExecutor) (e_tmp : option error)
| SelectPanics (v : error).

(** The collaborators of a SELECT: [executor.Select] per construction
    attempt, the scheduler's extra pause per sleep, the sink behind
    [ctx.Send] (it refuses a result with an error, given what it accepted
    before), and [ctx.Err()]. *)
Record SelectEnv : Type := mkSelectEnv {
  executor_Select : nat -> Outcome SelectOutcome;
  select_oversleep : nat -> N;
  sink_refuses : list Result -> Result -> option error;
  ctx_Err : error
}.

Module Select.
Section Select.
Variable coord : Coordinator.
Variable env : SelectEnv.

(** [ctx.Send] on this SELECT's sink. *)
Definition Send (r : Result) (seq : Z) (w : World) : option error * World :=
  ctx_Send (sink_refuses env) r seq w.

(** [&query.Result{Series: make([]*models.Row, 0)}]. *)
Definition emptyResult : Result :=
  {| Series := []; Partial := false; StatementID := 0 |}.

Definition isDtypeNotSupport (v : error) : bool :=
  errid_eqb (ident v) (IdErrno DtypeNotSupport).

(** [createPipelineExecutor], attempt [k]: a panic of [executor.Select] is
    recovered and logged, and the named results stay nil, unless it is the
    [DtypeNotSupport] error, which is raised again. *)
Definition createPipelineExecutor (k : nat) (w : World)
  : exec (option PipelineExecutor * option error) :=
  let o := executor_Select env k in
  let w1 := advance (took o) (record (EvCall k) w) in
  match value o with
  | SelectPanics v =>
      if isDtypeNotSupport v then Panic v w1
      else Done (None, None) (record (EvError (Some v)) w1)
  | SelectReturns p e_tmp =>
      match e_tmp, p with
      | Some _, _ => Done (None, e_tmp) w1
      | None, None => Done (None, e_tmp) w1
      | None, Some pe => Done (Some pe, None) w1
      end
  end.

(** The error is retried by [retryCreatePipelineExecutor]. *)
Definition retriable (e : error) : bool :=
  IsRetriedError coord e || Contains (Error e) "max message size".

(** The endless [for] of [retryCreatePipelineExecutor]. *)
Fixpoint retryCreatePipelineExecutor_loop (fuel : nat) (startTime : Z)
    (retryNum : Z) (k : nat) (w : World)
  : exec (option PipelineExecutor * option error) :=
  match fuel with
  | O => OutOfFuel
  | S fuel' =>
    match createPipelineExecutor k w with
    | OutOfFuel => OutOfFuel
    | Panic v w1 => Panic v w1
    | Done (pipelineExecutor, None) w1 => Done (pipelineExecutor, None) w1
    | Done (_, Some e) w1 =>
      if retriable e then
        let w2 := if retryNum mod 20 =? 0 then record (EvWarn retryNum e) w1 else w1 in
        if Seconds_lt (Since startTime w2) (DMLTimeOutSecond coord) then
          let w3 := time_Sleep (DMLRetryInternalMillisecond coord * Millisecond)
                               (select_oversleep env k) w2 in
          retryCreatePipelineExecutor_loop fuel' startTime (uint32 (retryNum + 1)) (S k) w3
        else Done (None, Some e) w2
      else if Contains (Error e) "declare empty collection" then Done (None, None) w1
      else Done (None, Some e) (record (EvError (Some e)) w1)
    end
  end.

Definition retryCreatePipelineExecutor (fuel : nat) (w : World)
  : exec (option PipelineExecutor * option error) :=
  retryCreatePipelineExecutor_loop fuel (now w) 0 0 w.

(** The error [createPipelineExecutor] returns at attempt [k]. *)
Definition create_err (k : nat) : option error :=
  match value (executor_Select env k) with
  | SelectReturns _ e_tmp => e_tmp
  | SelectPanics _ => None
  end.

(** Construction attempt [k] failed with an error that is retried. *)
Definition retried (k : nat) : bool :=
  match create_err k with
  | Some e => retriable e
  | None => false
  end.

(** [res] is how the loop ends when attempt [n] is not retried: with the
    plan, with the non-retryable error (nil for an empty collection), or
    with the panic of [executor.Select] raised again. *)
Definition exits_at (n : nat) (res : exec (option PipelineExecutor * option error)) : Prop :=
  match res with
  | Done (pe, err) _ =>
      match create_err n with
      | Some e => pe = None
                  /\ err = (if Contains (Error e) "declare empty collection"
                            then None else Some e)
      | None => err = None
      end
  | Panic v _ => value (executor_Select env n) = SelectPanics v
  | OutOfFuel => False
  end.

(** What is left of the retry budget, in nanoseconds. *)
Definition budget_left (startTime : Z) (w : World) : Z :=
  DMLTimeOutSecond coord * Second - Since startTime w.

(** A bound on the attempts the loop can still make. *)
Definition attempts_bound (startTime : Z) (w : World) : nat :=
  if budget_left startTime w <=? 0 then 1%nat
  else Z.to_nat (budget_left startTime w
                 / (DMLRetryInternalMillisecond coord * Millisecond) + 2).

(** The receive loop of [executeSelectStatement] over what it observes:
    [inl err] when it returns from inside the loop, [inr emitted] when it
    leaves the loop on the closed channel. *)
Fixpoint receive (seq : Z) (evs : list ChanEvent) (emitted : bool) (w : World)
  : (error + bool) * World :=
  match evs with
  | [] => (inr emitted, w)
  | Recv rc :: evs' =>
      let result := {| Series := rc_Rows rc; Partial := rc_Partial rc; StatementID := 0 |} in
      match Send result seq w with
      | (Some err, w1) => (inl err, record (EvError (Some err)) (record EvAbort w1))
      | (None, w1) => receive seq evs' true w1
      end
  | CtxDone :: _ => (inl (ctx_Err env), record EvAbort (record EvInfo w))
  end.

(** [executeSelectStatement]. *)
Definition executeSelectStatement (fuel : nat) (seq : Z) (w : World)
  : exec (option error) :=
  match retryCreatePipelineExecutor fuel w with
  | OutOfFuel => OutOfFuel
  | Panic v w1 => Panic v w1
  | Done (pipelineExecutor0, err0) w1 =>
    let '(pipelineExecutor, err) :=
      match err0 with
      | Some e => if errid_eqb (ident e) IdDeclareEmptyCollection
                  then (None, None) else (pipelineExecutor0, err0)
      | None => (pipelineExecutor0, err0)
      end in
    match err with
    | Some e => Done (Some e) (record EvClose w1)
    | None =>
      match pipelineExecutor with
      | None =>
          let '(r, w2) := Send emptyResult seq (record EvClose w1) in Done r w2
      | Some p =>
          match receive seq (observed p) false w1 with
          | (inl e, w2) => Done (Some e) w2
          | (inr emitted, w2) =>
              match ExecuteExecutor p with
              | Some e => Done (Some e) (record (EvError (Some e)) w2)
              | None =>
                  if negb emitted
                  then let '(r, w3) := Send emptyResult seq w2 in Done r w3
                  else Done None w2
              end
          end
      end
    end
  end.

End Select.
End Select.

(** ** SELECT: the pre-execution retry wrapper *)

Definition maxRetrySelectCount : Z := 8.
Definition retrySelectInterval : Z := 100 * Millisecond.

(** [executeSelectStatement] as [retryExecuteSelectStatement] sees it:
    attempt [i] takes some time and returns an error or nil. *)
Record SelectAttempts : Type := mkSelectAttempts {
  attempt : nat -> Outcome (option error);
  attempt_oversleep : nat -> N
}.

Module RetrySelect.
Section RetrySelect.
Variable coord : Coordinator.
Variable env : SelectAttempts.

(** The body of [for i := 0; i < maxRetrySelectCount; i++], with
    [remaining = maxRetrySelectCount - i] iterations to go; [err] is the
    function's error variable. *)
Fixpoint retryExecuteSelectStatement_loop (remaining : nat) (i : nat)
    (err : option error) (w : World) : option error * World :=
  match remaining with
  | O => (err, w)
  | S remaining' =>
    let o := attempt env i in
    let w1 := advance (took o) (record (EvCall i) w) in
    match value o with
    | None => (None, w1)
    | Some e =>
      if negb (IsRetryErrorForPtView coord e) then (Some e, w1)
      else
        let d := int64 (retrySelectInterval * int64 (Z.shiftl 1 (Z.of_nat i))) in
        retryExecuteSelectStatement_loop remaining' (S i) (Some e)
          (time_Sleep d (attempt_oversleep env i) w1)
    end
  end.

Definition retryExecuteSelectStatement (w : World) : option error * World :=
  retryExecuteSelectStatement_loop (Z.to_nat maxRetrySelectCount) 0 None w.

(** Attempt [i] failed with an error of the retryable pt-view class. *)
Definition retried (i : nat) : bool :=
  match value (attempt env i) with
  | Some e => IsRetryErrorForPtView coord e
  | None => false
  end.

(** The events attempt [i] leaves: the call, and the back-off pause after
    it when it is retried. *)
Definition attempt_events (i : nat) : list Event :=
  EvCall i :: (if retried i then [EvSleep (retrySelectInterval * 2 ^ Z.of_nat i)] else []).

End RetrySelect.
End RetrySelect.

(** ** DROP DATABASE and DROP RETENTION POLICY *)

(** The metadata client as the drop statements use it.  [Meta] is the
    state of the metadata service; [dbi.RetentionPolicy(name)] belongs to
    package [meta2] and is a parameter like the client's methods. *)
Record MetaClient (Meta DatabaseInfo RetentionPolicyInfo : Type) : Type := mkMetaClient {
  MarkDatabaseDelete : string -> Meta -> option error * Meta;
  Database : string -> Meta -> option DatabaseInfo * option error;
  RetentionPolicy : DatabaseInfo -> string -> option RetentionPolicyInfo;
  MarkRetentionPolicyDelete : string -> string -> Meta -> option error * Meta
}.
Arguments MarkDatabaseDelete {Meta DatabaseInfo RetentionPolicyInfo} _ _ _.
Arguments Database {Meta DatabaseInfo RetentionPolicyInfo} _ _ _.
Arguments RetentionPolicy {Meta DatabaseInfo RetentionPolicyInfo} _ _ _.
Arguments MarkRetentionPolicyDelete {Meta DatabaseInfo RetentionPolicyInfo} _ _ _ _.

Module Drop.
Section Drop.
Context {Meta DatabaseInfo RetentionPolicyInfo : Type}.
Variable mc : MetaClient Meta DatabaseInfo RetentionPolicyInfo.

(** [executeDropDatabaseStatement]: the returned error, the metadata
    state, and the log lines written. *)
Definition executeDropDatabaseStatement (name : string) (m : Meta)
  : option error * Meta * list Event :=
  match MarkDatabaseDelete mc name m with
  | (Some err, m') =>
      if HasPrefix (Error err) "database not found"
      then (None, m', [EvInfo; EvError (Some err)])
      else (Some err, m', [EvInfo; EvError (Some err)])
  | (None, m') => (None, m', [EvInfo])
  end.

(** [executeDropRetentionPolicyStatement]. *)
Definition executeDropRetentionPolicyStatement (database name : string) (m : Meta)
  : option error * Meta * list Event :=
  let '(dbi, _) := Database mc database m in
  match dbi with
  | None => (None, m, [EvInfo])
  | Some dbi =>
      match RetentionPolicy mc dbi name with
      | None => (None, m, [EvInfo])
      | Some _ =>
          match MarkRetentionPolicyDelete mc database name m with
          | (Some err, m') => (Some err, m', [EvInfo; EvError (Some err)])
          | (None, m') => (None, m', [EvInfo; EvInfo])
          end
      end
  end.

End Drop.
End Drop.

(** ** SHOW SERIES *)

(** [limitStringSlice]; [None] is the run-time panic of the slice
    expression [s[offset:end]] when its bounds are out of range. *)
Definition limitStringSlice (s : list string) (offset limit : Z) : option (list string) :=
  let l := Z.of_nat (length s) in
  if offset >=? l then Some []
  else
    let end0 := int64 (offset + limit) in
    let end_ := if (limit =? 0) || (end0 >=? l) then l else end0 in
    if (0 <=? offset) && (offset <=? end_)
    then Some (take (Z.to_nat (end_ - offset)) (drop (Z.to_nat offset) s))
    else None.

(** [sort.Strings]: ascending in the byte order of Go's string [<]. *)
Definition sort_Strings (s : list string) : list string := merge_sort String.le s.

(** The fields of [influxql.ShowSeriesStatement] the executor reads itself;
    sources and condition only travel to the collaborators. *)
Record ShowSeriesQuery : Type := mkShowSeriesQuery {
  q_Database : string;
  q_Offset : Z;
  q_Limit : Z
}.

(** What the fan-out callback of [executeShowSeries] shares between the
    nodes: the flag [*hasErr] and the accumulated [series]. *)
Abbreviation SeriesAcc := (bool * list string)%type.

(** The collaborators of SHOW SERIES: [MetaClient.MatchMeasurements]
    (the matched names and an error), [NetStorage.ShowSeries] per node,
    [MetaExecutor.EachDBNodes], which runs the callback over the nodes of
    the database and returns an error or nil, and the sink. *)
Record SeriesEnv : Type := mkSeriesEnv {
  MatchMeasurements : string -> list string * option error;
  ShowSeries : Z -> string -> list Z -> list string -> list string * option error;
  EachDBNodes : string -> (Z -> list Z -> SeriesAcc -> option error * SeriesAcc)
                -> SeriesAcc -> option error * SeriesAcc;
  series_sink : list Result -> Result -> option error
}.

Module Series.
Section Series.
Variable env : SeriesEnv.

(** The callback handed to [EachDBNodes], as a step on the shared
    variables (the part under the lock together with the check before it). *)
Definition callback (q : ShowSeriesQuery) (names : list string)
    (nodeID : Z) (pts : list Z) (acc : SeriesAcc) : option error * SeriesAcc :=
  let '(hasErr, series) := acc in
  if hasErr then (None, acc)
  else
    let '(arr, err) := ShowSeries env nodeID (q_Database q) pts names in
    let '(hasErr1, series1) :=
      match err with
      | Some _ => (true, [])
      | None => (hasErr, series)
      end in
    let series2 := if negb hasErr1 then series1 ++ arr else series1 in
    (err, (hasErr1, series2)).

Definition errSliceBounds : error := mkError IdOther "slice bounds out of range".

(** [executeShowSeries]. *)
Definition executeShowSeries (q : ShowSeriesQuery) (seq : Z) (w : World)
  : exec (option error) :=
  match MatchMeasurements env (q_Database q) with
  | (_, Some err) => Done (Some err) w
  | (names, None) =>
    match EachDBNodes env (q_Database q) (callback q names) (false, []) with
    | (Some err, _) => Done (Some err) (record (EvError (Some err)) w)
    | (None, (_, series0)) =>
      match limitStringSlice (sort_Strings series0) (q_Offset q) (q_Limit q) with
      | None => Panic errSliceBounds w
      | Some series =>
        if (length series =? 0)%nat then Done None w
        else
          let row := {| Name := ""; Columns := ["key"];
                        Values := map (fun item => [VString item]) series |} in
          let '(r, w') :=
            ctx_Send (series_sink env)
              {| Series := [row]; Partial := false; StatementID := 0 |} seq w in
          Done r w'
      end
    end
  end.

(** Modelled from the spec: [EachDBNodes] of package [coordinator] is not
    part of this file's source.  It invokes the callback once per node
    owning the database and aggregates the errors; here the nodes run one
    after the other and the first error is the one returned. *)
Fixpoint eachNode (nodes : list (Z * list Z))
    (fn : Z -> list Z -> SeriesAcc -> option error * SeriesAcc)
    (acc : SeriesAcc) : option error * SeriesAcc :=
  match nodes with
  | [] => (None, acc)
  | (nodeID, pts) :: rest =>
      let '(err, acc1) := fn nodeID pts acc in
      let '(err', acc2) := eachNode rest fn acc1 in
      (match err with Some _ => err | None => err' end, acc2)
  end.

End Series.
End Series.

(** ** SHOW QUERIES: the combined view of the running queries *)

(** [netstorage.RunStateType]; the source handles [Running] and [Killed]
    and has a default branch for any other value. *)
Inductive RunStateType : Type := Running | Killed | OtherRunState.

(** [netstorage.QueryExeInfo]: what one store node reports about a query. *)
Record QueryExeInfo : Type := mkQueryExeInfo {
  QueryID : Z;
  Stmt : string;
  info_Database : string;
  BeginTime : Z;
  RunState : RunStateType
}.

Inductive combinedRunState : Type := allRunning | partiallyKilled | allKilled.

Record combinedQueryExeInfo : Type := mkCombined {
  qid : Z;
  stmt : string;
  database : string;
  beginTime : Z;
  runningHosts : gset string;
  killedHosts : gset string
}.

Definition updateBeginTime (q : combinedQueryExeInfo) (newBegin : Z) : combinedQueryExeInfo :=
  if newBegin <? beginTime q
  then {| qid := qid q; stmt := stmt q; database := database q; beginTime := newBegin;
          runningHosts := runningHosts q; killedHosts := killedHosts q |}
  else q.

Definition updateHosts (q : combinedQueryExeInfo) (newHost : string)
    (newRunState : RunStateType) : combinedQueryExeInfo :=
  match newRunState with
  | Running =>
      {| qid := qid q; stmt := stmt q; database := database q; beginTime := beginTime q;
         runningHosts := {[newHost]} ∪ runningHosts q; killedHosts := killedHosts q |}
  | Killed =>
      {| qid := qid q; stmt := stmt q; database := database q; beginTime := beginTime q;
         runningHosts := runningHosts q; killedHosts := {[newHost]} ∪ killedHosts q |}
  | OtherRunState => q
  end.

Definition getCombinedRunState (q : combinedQueryExeInfo) : combinedRunState :=
  if (size (runningHosts q) =? 0)%nat then allKilled
  else if (0 <? size (killedHosts q))%nat then partiallyKilled
  else allRunning.

(** The body of the loop of [combineQueryExeInfos] for one report. *)
Definition combineQueryExeInfo (host : string)
    (dstMap : gmap Z combinedQueryExeInfo) (info : QueryExeInfo)
  : gmap Z combinedQueryExeInfo :=
  let newCmbInfo :=
    updateHosts
      {| qid := QueryID info; stmt := Stmt info; database := info_Database info;
         beginTime := BeginTime info; runningHosts := ∅; killedHosts := ∅ |}
      host (RunState info) in
  match dstMap !! QueryID info with
  | Some cmbInfo =>
      if String.eqb (stmt cmbInfo) (Stmt info)
      then <[QueryID info :=
               updateHosts (updateBeginTime cmbInfo (BeginTime info)) host (RunState info)]>
             dstMap
      else if BeginTime info <=? beginTime cmbInfo then dstMap
      else <[QueryID info := newCmbInfo]> dstMap
  | None => <[QueryID info := newCmbInfo]> dstMap
  end.

(** [combineQueryExeInfos]: the reports of one store node, in order. *)
Definition combineQueryExeInfos (dstMap : gmap Z combinedQueryExeInfo)
    (exeInfosOnStore : list QueryExeInfo) (host : string)
  : gmap Z combinedQueryExeInfo :=
  foldl (combineQueryExeInfo host) dstMap exeInfosOnStore.

(** The loop of [executeShowQueriesStatement] over the nodes' reports. *)
Definition combineAll (infosOnAllStore : list (string * list QueryExeInfo))
  : gmap Z combinedQueryExeInfo :=
  foldl (fun resMap '(host, infos) => combineQueryExeInfos resMap infos host)
        ∅ infosOnAllStore.

(** *** The claim's words: the reports folded into an entry

    [folded q cur r] follows one query id [q] through the reports: [cur]
    holds the reports folded into its current entry, latest first.  A
    report of another id leaves it alone; the first report opens the
    entry; a report with the entry's statement text is folded in; one with
    another text is dropped when it does not begin later than the earliest
    of the reports folded so far, and otherwise opens a new entry. *)
Fixpoint earliest (rs : list QueryExeInfo) : option Z :=
  match rs with
  | [] => None
  | r :: rs' =>
      match earliest rs' with
      | None => Some (BeginTime r)
      | Some b => Some (Z.min (BeginTime r) b)
      end
  end.

Definition folded (q : Z) (cur : list QueryExeInfo) (r : QueryExeInfo) : list QueryExeInfo :=
  if negb (QueryID r =? q) then cur
  else
    match cur, earliest cur with
    | c :: _, Some b =>
        if String.eqb (Stmt c) (Stmt r) then r :: cur
        else if BeginTime r <=? b then cur
        else [r]
    | _, _ => [r]
    end.

Definition foldedInto (q : Z) (infosOnAllStore : list (string * list QueryExeInfo))
  : list QueryExeInfo :=
  foldl (folded q) [] (concat (map snd infosOnAllStore)).

(** All the reports about query id [q], in the order they are processed. *)
Definition reportsOf (q : Z) (rs : list QueryExeInfo) : list QueryExeInfo :=
  List.filter (fun r => QueryID r =? q) rs.

(** The entry [e] of query id [q], if any, stands for the reports [cur]. *)
Definition stands_for (q : Z) (e : option combinedQueryExeInfo)
    (cur : list QueryExeInfo) : Prop :=
  match e with
  | None => cur = []
  | Some e =>
      qid e = q
      /\ cur <> []
      /\ earliest cur = Some (beginTime e)
      /\ (forall r, In r cur -> QueryID r = q /\ Stmt r = stmt e)
  end.

(** *** The rows of SHOW QUERIES *)

Definition Microsecond : Z := 1000.

(** The environment of [executeShowQueriesStatement]: the data nodes (id
    and host) or the error of [MetaClient.DataNodes], the queries each
    node reports, the wall clock read for the [n]-th output row, and
    [time.Duration.String]. *)
Record QueriesEnv : Type := mkQueriesEnv {
  DataNodes : list (Z * string) * option error;
  GetQueriesOnNode : Z -> list QueryExeInfo * option error;
  UnixNano : nat -> Z;
  Duration_String : Z -> string
}.

(** [strings.Join(hosts, ", ")]. *)
Fixpoint Join (hosts : list string) : string :=
  match hosts with
  | [] => ""
  | [h] => h
  | h :: rest => String.append h (String.append ", " (Join rest))
  end.

Module Queries.
Section Queries.
Variable env : QueriesEnv.

(** [getDurationString], reading the clock for row [n]. *)
Definition getDurationString (n : nat) (q : combinedQueryExeInfo) : string :=
  let d := int64 (UnixNano env n - beginTime q) in
  let d :=
    if d >=? Second then int64 (d - Z.rem d Second)
    else if d >=? Millisecond then int64 (d - Z.rem d Millisecond)
    else if d >=? Microsecond then int64 (d - Z.rem d Microsecond)
    else d in
  Duration_String env d.

(** [toOutputRow]; the hosts are joined in the order the map is iterated,
    which Go leaves open and [elements] fixes. *)
Definition toOutputRow (n : nat) (q : combinedQueryExeInfo) (isKilledPart : bool)
  : list Value :=
  [VUint64 (qid q); VString (stmt q); VString (database q);
   VString (getDurationString n q)]
  ++ (if isKilledPart
      then [VString "killed"; VString (Join (elements (killedHosts q)))]
      else [VString "running"; VString (Join (elements (runningHosts q)))]).

(** [getQueryExeInfoOnNode]: a node that fails reports no queries. *)
Definition getQueryExeInfoOnNode (nodeID : Z) : list QueryExeInfo :=
  match GetQueriesOnNode env nodeID with
  | (_, Some _) => []
  | (exeInfos, None) => exeInfos
  end.

(** [combinedInfos.Less]. *)
Definition Less (a b : combinedQueryExeInfo) : bool := beginTime a <? beginTime b.

(** The order [sort.Sort] establishes: no element is [Less] than one
    before it. *)
Definition notAfter (a b : combinedQueryExeInfo) : Prop := beginTime a <= beginTime b.

#[global] Instance notAfter_dec : RelDecision notAfter.
Proof. intros a b. unfold notAfter. apply _. Defined.

(** [sort.Sort(sortedResult)] over the values of [resMap]; the map is
    iterated in the order of [map_to_list]. *)
Definition sortCombined (resMap : gmap Z combinedQueryExeInfo) : list combinedQueryExeInfo :=
  merge_sort notAfter (snd <$> map_to_list resMap).

(** One pass of the loop that generates the output rows. *)
Definition appendRows (values : list (list Value)) (cmbInfo : combinedQueryExeInfo)
  : list (list Value) :=
  match getCombinedRunState cmbInfo with
  | allKilled => values
  | partiallyKilled =>
      let values1 := values ++ [toOutputRow (length values) cmbInfo true] in
      values1 ++ [toOutputRow (length values1) cmbInfo false]
  | allRunning => values ++ [toOutputRow (length values) cmbInfo false]
  end.

Definition infosOnAllStore (nodes : list (Z * string)) : list (string * list QueryExeInfo) :=
  map (fun '(id, host) => (host, getQueryExeInfoOnNode id)) nodes.

(** [executeShowQueriesStatement]. *)
Definition executeShowQueriesStatement : Rows * option error :=
  match DataNodes env with
  | (_, Some err) => ([], Some err)
  | (nodes, None) =>
      let resMap := combineAll (infosOnAllStore nodes) in
      let sortedResult := sortCombined resMap in
      let values := foldl appendRows [] sortedResult in
      ([{| Name := "";
           Columns := ["qid"; "query"; "database"; "duration"; "status"; "host"];
           Values := values |}], None)
  end.

(** The status and host cells of an output row. *)
Definition statusAndHosts (row : list Value) : list Value := drop 4 row.

(** The claim's words: the rows [rs] that one combined query [cmb]
    contributes to the output. *)
Definition rowsOfQuery (cmb : combinedQueryExeInfo) (rs : list (list Value)) : Prop :=
  (runningHosts cmb = ∅ -> rs = [])
  /\ (runningHosts cmb <> ∅ -> killedHosts cmb <> ∅ ->
      exists n, rs = [toOutputRow n cmb true; toOutputRow (S n) cmb false])
  /\ (runningHosts cmb <> ∅ -> killedHosts cmb = ∅ ->
      exists n, rs = [toOutputRow n cmb false]).

End Queries.
End Queries.

(** ** Merging the measurement names of the nodes *)

(** [netstorage.ExecuteStatementMessage]; [Result] holds the JSON bytes. *)
Record ExecuteStatementMessage : Type := mkMessage {
  StatementType : string;
  msg_Result : string
}.

(** [ByteStringSlice.Less]: [bytes.Compare(s[i], s[j]) < 0]. *)
Definition ByteStringSlice_Less (a b : string) : bool :=
  match String.compare a b with
  | Lt => true
  | _ => false
  end.

Module Merge.
Section Merge.
(** [json.Unmarshal] into a [[][]byte]: the names, or an error. *)
Variable json_Unmarshal : string -> list string + error.

Definition newline : string := String (ascii_of_nat 10) "".

(** [fmt.Errorf("Unmarshal %s json bytes failed: %s\n", ...)]. *)
Definition unmarshalFailed (msg : ExecuteStatementMessage) (err : error) : error :=
  mkError IdOther
    (String.append "Unmarshal "
       (String.append (StatementType msg)
          (String.append " json bytes failed: "
             (String.append (Error err) newline)))).

(** The first loop of [MergeMeasurementsNames], over the messages in the
    order the map yields them: the names of all nodes, or the error of
    the first message that does not decode. *)
Fixpoint collectNames (msgs : list (Z * ExecuteStatementMessage))
    (clusterNames : list string) : error + list string :=
  match msgs with
  | [] => inr clusterNames
  | (_, msg) :: rest =>
      if (String.length (msg_Result msg) =? 0)%nat then collectNames rest clusterNames
      else
        match json_Unmarshal (msg_Result msg) with
        | inr err => inl (unmarshalFailed msg err)
        | inl names =>
            collectNames rest
              (if (0 <? length names)%nat then clusterNames ++ names else clusterNames)
        end
  end.

(** The rest of [MergeMeasurementsNames]: the names go through the set
    [retString], its keys into [uniqueStrings], which is sorted with
    [sort.Stable]; the keys are taken in the order of [elements]. *)
Definition uniqueSorted (clusterNames : list string) : list string :=
  merge_sort String.le (elements (list_to_set clusterNames : gset string)).

(** [MergeMeasurementsNames]: the error and the names. *)
Definition MergeMeasurementsNames (otherNodeNamesMap : list (Z * ExecuteStatementMessage))
  : option error * list string :=
  match collectNames otherNodeNamesMap [] with
  | inl err => (Some err, [])
  | inr clusterNames => (None, uniqueSorted clusterNames)
  end.

(** The names a message contributes; [None] when it does not decode. *)
Definition namesOf (msg : ExecuteStatementMessage) : option (list string) :=
  if (String.length (msg_Result msg) =? 0)%nat then Some []
  else
    match json_Unmarshal (msg_Result msg) with
    | inr _ => None
    | inl names => Some names
    end.

(** [x] is a name reported by one of the nodes. *)
Definition reported (otherNodeNamesMap : list (Z * ExecuteStatementMessage)) (x : string)
  : Prop :=
  exists id msg names,
    In (id, msg) otherNodeNamesMap /\ namesOf msg = Some names /\ In x names.

(** Every message decodes. *)
Definition decodable (otherNodeNamesMap : list (Z * ExecuteStatementMessage)) : Prop :=
  forall id msg, In (id, msg) otherNodeNamesMap -> namesOf msg <> None.

End Merge.
End Merge.

(** ** KILL QUERY: the fan-out over the data nodes *)

(** The fields of [influxql.KillQueryStatement]. *)
Record KillQueryStatement : Type := mkKillQueryStatement {
  kill_QueryID : Z;
  kill_Host : string
}.

(** The collaborators of [executeKillQuery]: [MetaClient.DataNodes] (the
    ids of the data nodes, or an error), [NetStorage.KillQueryOnNode] per
    node and query id, and the text [errno.NewError] gives an error. *)
Record KillEnv : Type := mkKillEnv {
  kill_DataNodes : list Z * option error;
  KillQueryOnNode : Z -> Z -> option error;
  errno_text : Errno -> Z -> string
}.

(** Where a goroutine of the fan-out stands.  Its body reads and writes
    two variables of the enclosing function, [err] and [notFoundCount],
    without any lock, so every access is a step of its own:
    [err = KillQueryOnNode(...)], the test [err != nil], the test
    [errors.As(err, ...) && errno.Equal(...)], and the load and the store
    of [notFoundCount++]. *)
Inductive KillPc : Type :=
| AtCall
| AtNilTest
| AtAs
| AtLoadCount
| AtStoreCount (tmp : Z)
| Finished.

(** The variables the goroutines share. *)
Record KillShared : Type := mkKillShared {
  shared_err : option error;
  notFoundCount : Z
}.

(** [errors.As(err, &wrapErr) && errno.Equal(wrapErr, errno.ErrQueryNotFound)]. *)
Definition isQueryNotFound (e : error) : bool :=
  errid_eqb (ident e) (IdErrno ErrQueryNotFound).

Module Kill.
Section Kill.
Variable env : KillEnv.

(** [errno.NewError(code, arg)]. *)
Definition NewError (code : Errno) (arg : Z) : error :=
  mkError (IdErrno code) (errno_text env code arg).

Definition ErrUnsupportCommand : error := mkError IdUnsupportCommand "unsupported command".

(** One step of the goroutine of [node].  [notFoundCount] cannot
    overflow: it counts goroutines, one per element of a slice. *)
Definition step (queryID node : Z) (p : KillPc) (sh : KillShared) : KillPc * KillShared :=
  match p with
  | AtCall =>
      (AtNilTest, {| shared_err := KillQueryOnNode env node queryID;
                     notFoundCount := notFoundCount sh |})
  | AtNilTest =>
      match shared_err sh with
      | None => (Finished, sh)
      | Some _ => (AtAs, sh)
      end
  | AtAs =>
      match shared_err sh with
      | Some e => if isQueryNotFound e then (AtLoadCount, sh) else (Finished, sh)
      | None => (Finished, sh)
      end
  | AtLoadCount => (AtStoreCount (notFoundCount sh), sh)
  | AtStoreCount tmp =>
      (Finished, {| shared_err := shared_err sh; notFoundCount := tmp + 1 |})
  | Finished => (Finished, sh)
  end.

(** The scheduler lets goroutine [i] take a step. *)
Definition stepAt (queryID : Z) (i : nat) (gs : list (Z * KillPc)) (sh : KillShared)
  : list (Z * KillPc) * KillShared :=
  match gs !! i with
  | Some (node, p) =>
      let '(p', sh') := step queryID node p sh in (<[i := (node, p')]> gs, sh')
  | None => (gs, sh)
  end.

Fixpoint run (queryID : Z) (schedule : list nat) (gs : list (Z * KillPc)) (sh : KillShared)
  : list (Z * KillPc) * KillShared :=
  match schedule with
  | [] => (gs, sh)
  | i :: rest =>
      let '(gs', sh') := stepAt queryID i gs sh in run queryID rest gs' sh'
  end.

(** Goroutine [i] runs from its start to its end without interruption. *)
Definition whole (i : nat) : list nat := replicate 5 i.

(** [wg.Wait()]: every goroutine that has not finished runs to its end. *)
Definition waitAll (n : nat) : list nat := concat (map whole (seq 0 n)).

(** [executeKillQuery] under a schedule of the goroutines' steps. *)
Definition executeKillQuery (stmt : KillQueryStatement) (schedule : list nat)
  : option error :=
  if negb (String.eqb (kill_Host stmt) "") then Some ErrUnsupportCommand
  else
    match kill_DataNodes env with
    | (_, Some err) => Some err
    | (nodes, None) =>
        let gs := map (fun node => (node, AtCall)) nodes in
        let '(gs1, sh1) :=
          run (kill_QueryID stmt) schedule gs
              {| shared_err := None; notFoundCount := 0 |} in
        let '(_, sh2) :=
          run (kill_QueryID stmt) (waitAll (length nodes)) gs1 sh1 in
        if notFoundCount sh2 =? Z.of_nat (length nodes)
        then Some (NewError ErrQueryNotFound (kill_QueryID stmt))
        else None
    end.

(** Node [node] reports that it does not know the query. *)
Definition reportsNotFound (queryID node : Z) : bool :=
  match KillQueryOnNode env node queryID with
  | Some e => isQueryNotFound e
  | None => false
  end.

(** A schedule in which the goroutines of [order] run whole, one after
    the other. *)
Definition serial (order : list nat) : list nat := concat (map whole order).

(** [k] steps of the goroutine of [node] in a row. *)
Definition steps (queryID node : Z) (k : nat) (st : KillPc * KillShared)
  : KillPc * KillShared :=
  Nat.iter k (fun st => step queryID node (fst st) (snd st)) st.

(** The finished goroutines whose node reported "not found". *)
Fixpoint countDone (queryID : Z) (gs : list (Z * KillPc)) : Z :=
  match gs with
  | [] => 0
  | (node, Finished) :: gs' =>
      (if reportsNotFound queryID node then 1 else 0) + countDone queryID gs'
  | _ :: gs' => countDone queryID gs'
  end.

(** The nodes that report "not found". *)
Fixpoint countNotFound (queryID : Z) (nodes : list Z) : Z :=
  match nodes with
  | [] => 0
  | node :: nodes' =>
      (if reportsNotFound queryID node then 1 else 0) + countNotFound queryID nodes'
  end.

(** Between two whole runs: every goroutine is at its start or at its
    end, and the counter holds the finished "not found" reports. *)
Definition between (queryID : Z) (gs : list (Z * KillPc)) (sh : KillShared) : Prop :=
  Forall (fun g => snd g = AtCall \/ snd g = Finished) gs
  /\ notFoundCount sh = countDone queryID gs.

Definition finished (j : nat) (gs : list (Z * KillPc)) : Prop :=
  exists node, gs !! j = Some (node, Finished).

End Kill.
End Kill.

(** ** A concrete cluster to run the model on *)

Module Scenario.

(** The constants as the cluster ships them: a 30 s budget and 200 ms
    between attempts; errors that say so are transient. *)
Definition coord : Coordinator :=
  {| DMLTimeOutSecond := 30;
     DMLRetryInternalMillisecond := 200;
     IsRetriedError := fun e => Contains (Error e) "no data nodes";
     IsRetryErrorForPtView := fun e => Contains (Error e) "pt not found" |}.

Definition start : World := {| now := 0; trace := []; sent := [] |}.

Definition errNotFound : error := mkError (IdErrno DatabaseNotFound) "database not found: db0".
Definition errTransient : error := mkError IdOther "no data nodes".
Definition errPtView : error := mkError IdOther "pt not found".

(** Every executor call takes a second and fails with "database not found". *)
Definition failing : StmtEnv :=
  {| execute := fun _ _ => mkOutcome 1000000000%N ([], Some errNotFound);
     stmt_oversleep := fun _ => 0%N |}.

(** Every executor call takes ten seconds and fails with a transient error. *)
Definition flapping : StmtEnv :=
  {| execute := fun _ _ => mkOutcome 10000000000%N ([], Some errTransient);
     stmt_oversleep := fun _ => 0%N |}.

(** Every [executeSelectStatement] fails with a pt-view error. *)
Definition ptview : SelectAttempts :=
  {| attempt := fun _ => mkOutcome 0%N (Some errPtView);
     attempt_oversleep := fun _ => 0%N |}.

(** A sink that accepts everything. *)
Definition accepting (sent : list Result) (r : Result) : option error := None.

Definition errEmptyCollection : error :=
  mkError IdDeclareEmptyCollection "declare empty collection".
Definition errCanceled : error := mkError IdContext "context canceled".

(** The construction finds nothing to plan, at once. *)
Definition nothingToPlan : SelectEnv :=
  {| executor_Select := fun _ => mkOutcome 0%N (SelectReturns None (Some errEmptyCollection));
     select_oversleep := fun _ => 0%N;
     sink_refuses := accepting;
     ctx_Err := errCanceled |}.

(** The construction fails twice with a transient error, then yields a
    plan that emits no batch and completes. *)
Definition quietPlan : SelectEnv :=
  {| executor_Select := fun k =>
       if (k <? 2)%nat
       then mkOutcome 5000000%N (SelectReturns None (Some errTransient))
       else mkOutcome 5000000%N
              (SelectReturns (Some {| observed := []; ExecuteExecutor := None |}) None);
     select_oversleep := fun _ => 0%N;
     sink_refuses := accepting;
     ctx_Err := errCanceled |}.

Definition batch : RowsChan :=
  {| rc_Rows := [{| Name := "cpu"; Columns := ["time"; "usage"];
                    Values := [[VUint64 1; VUint64 90]] |}];
     rc_Partial := true |}.

(** The plan emits a batch, then the client gives up. *)
Definition cancelled : SelectEnv :=
  {| executor_Select := fun _ =>
       mkOutcome 0%N
         (SelectReturns (Some {| observed := [Recv batch; CtxDone; Recv batch];
                                 ExecuteExecutor := None |}) None);
     select_oversleep := fun _ => 0%N;
     sink_refuses := accepting;
     ctx_Err := errCanceled |}.

(** A metadata service holding databases with their retention policies. *)
Fixpoint lookup_db (name : string) (m : list (string * list string)) : option (list string) :=
  match m with
  | [] => None
  | (n, rps) :: m' => if String.eqb n name then Some rps else lookup_db name m'
  end.

Fixpoint remove_db (name : string) (m : list (string * list string))
  : list (string * list string) :=
  match m with
  | [] => []
  | (n, rps) :: m' => if String.eqb n name then remove_db name m' else (n, rps) :: remove_db name m'
  end.

Fixpoint find_rp (name : string) (rps : list string) : option string :=
  match rps with
  | [] => None
  | rp :: rps' => if String.eqb rp name then Some rp else find_rp name rps'
  end.

Definition metaClient : MetaClient (list (string * list string)) (list string) string :=
  {| MarkDatabaseDelete := fun name m =>
       match lookup_db name m with
       | None => (Some (mkError (IdErrno DatabaseNotFound)
                          (String.append "database not found: " name)), m)
       | Some _ => (None, remove_db name m)
       end;
     Database := fun name m =>
       match lookup_db name m with
       | None => (None, Some (mkError (IdErrno DatabaseNotFound)
                                (String.append "database not found: " name)))
       | Some rps => (Some rps, None)
       end;
     RetentionPolicy := fun dbi name => find_rp name dbi;
     MarkRetentionPolicyDelete := fun database name m => (None, m) |}.

Definition catalog : list (string * list string) := [("db0", ["autogen"])].

(** Three store nodes.  Query 7 runs on all of them and was killed on
    node C; query 8 runs on A only; query 9 is killed wherever it ran. *)
Definition threeStores : QueriesEnv :=
  {| DataNodes := ([(1, "A"); (2, "B"); (3, "C")], None);
     GetQueriesOnNode := fun nodeID =>
       if nodeID =? 1 then
         ([mkQueryExeInfo 7 "SELECT * FROM cpu" "db0" 100 Running;
           mkQueryExeInfo 8 "SELECT * FROM mem" "db0" 50 Running], None)
       else if nodeID =? 2 then
         ([mkQueryExeInfo 7 "SELECT * FROM cpu" "db0" 90 Running;
           mkQueryExeInfo 9 "SELECT * FROM disk" "db0" 10 Killed], None)
       else
         ([mkQueryExeInfo 7 "SELECT * FROM cpu" "db0" 95 Killed], None);
     UnixNano := fun _ => 1000;
     Duration_String := fun d => if d =? 0 then "0s" else "some time" |}.

Definition errQueryNotFound : error := mkError (IdErrno ErrQueryNotFound) "query not found".

(** Two data nodes, neither of which knows the query. *)
Definition unknownEverywhere : KillEnv :=
  {| kill_DataNodes := ([1; 2], None);
     KillQueryOnNode := fun _ _ => Some errQueryNotFound;
     errno_text := fun _ _ => "query not found" |}.

(** Two data nodes; node 1 kills the query, node 2 does not know it. *)
Definition killedOnFirst : KillEnv :=
  {| kill_DataNodes := ([1; 2], None);
     KillQueryOnNode := fun node _ => if node =? 1 then None else Some errQueryNotFound;
     errno_text := fun _ _ => "query not found" |}.

(** A stand-in for [json.Unmarshal] on the messages below: the names are
    separated by commas, and a message starting with "!" does not decode. *)
Fixpoint splitComma (s cur : string) : list string :=
  match s with
  | EmptyString => [String.rev cur]
  | String c s' =>
      if Ascii.eqb c ","%char then String.rev cur :: splitComma s' ""
      else splitComma s' (String c cur)
  end.

Definition decodeNames (s : string) : list string + error :=
  if HasPrefix s "!" then inr (mkError IdOther "invalid character '!'")
  else inl (splitComma s "").

Definition nameMessages : list (Z * ExecuteStatementMessage) :=
  [(1, mkMessage "ShowMeasurements" "mem,cpu");
   (2, mkMessage "ShowMeasurements" "");
   (3, mkMessage "ShowMeasurements" "disk,mem")].

(** Two storage nodes; node 1 holds two series, node 2 one. *)
Definition twoNodes : SeriesEnv :=
  {| MatchMeasurements := fun _ => (["cpu"], None);
     ShowSeries := fun nodeID _ _ _ =>
       if nodeID =? 1 then (["cpu,host=b"; "cpu,host=a"], None)
       else (["cpu,host=c"], None);
     EachDBNodes := fun _ fn acc => Series.eachNode [(1, [0]); (2, [1])] fn acc;
     series_sink := accepting |}.

End Scenario.

(** ** The retry wrapper over time *)

Module RetryClock.
Section RetryClock.
Variable coord : Coordinator.
Variable env : StmtEnv.


End RetryClock.
End RetryClock.

(** ** SELECT: what reaches the sink *)

(** The Result the receive loop makes of a batch, as the sink stamps it. *)
Definition resultOf (seq : Z) (rc : RowsChan) : Result :=
  {| Series := rc_Rows rc; Partial := rc_Partial rc; StatementID := seq |}.

(** The empty Result, as the sink stamps it. *)
Definition emptyResultOf (seq : Z) : Result :=
  {| Series := []; Partial := false; StatementID := seq |}.

(** The sink, having accepted [before], takes the [batches] one after
    the other. *)
Definition accepts (refuses : list Result -> Result -> option error) (seq : Z)
    (before : list Result) (batches : list RowsChan) : Prop :=
  forall pre rc post,
    batches = pre ++ rc :: post ->
    refuses (before ++ map (resultOf seq) pre) (resultOf seq rc) = None.

(** The world after the sink took [rs] more results. *)
Definition delivered (rs : list Result) (w : World) : World :=
  {| now := now w; trace := trace w; sent := sent w ++ rs |}.

(** ** More concrete inputs *)

(** No goroutine of [executeKillQuery] is about to count: none stands
    between the not-found test and the store of [notFoundCount]. *)
Definition calm (p : KillPc) : bool :=
  match p with
  | AtLoadCount | AtStoreCount _ => false
  | _ => true
  end.

(** The shared [err] does not hold a not-found error. *)
Definition quiet (sh : KillShared) : Prop :=
  match shared_err sh with
  | Some e => isQueryNotFound e = false
  | None => True
  end.

(** The goroutines stand for nodes that do not report "not found", and
    none of them is about to count. *)
Definition all_calm (env : KillEnv) (queryID : Z) (gs : list (Z * KillPc)) : Prop :=
  Forall (fun g => Kill.reportsNotFound env queryID (fst g) = false
                   /\ calm (snd g) = true) gs.

(** [RemoveFiltered].  The set [s] is a [gset]; its elements are
    distinct, so [sort.Sort] with [ByteStringSlice.Less] gives the one
    ascending list of them. *)
Definition RemoveFiltered (result filetered : list string) : list string :=
  if (length filetered =? 0)%nat then result
  else
    let s : gset string := list_to_set result in
    let s := foldl (fun (s : gset string) fv => if decide (fv ∈ s) then s ∖ {[fv]} else s)
                   s filetered in
    merge_sort String.le (elements s).

Module Cardinality.
Section Cardinality.
(** [json.Unmarshal] into an [int64]: the number, or an error. *)
Variable json_Unmarshal : string -> Z + error.

(** The loop of [CalcCardinality], over the messages in the order the map
    yields them, and the final [clusterCardinality + nl] with [nl] zero. *)
Fixpoint CalcCardinality_loop (msgs : list (Z * ExecuteStatementMessage))
    (clusterCardinality : Z) : option error * Z :=
  match msgs with
  | [] => (None, int64 (clusterCardinality + 0))
  | (_, msg) :: rest =>
      match json_Unmarshal (msg_Result msg) with
      | inr err => (Some err, 0)
      | inl n => CalcCardinality_loop rest (int64 (clusterCardinality + n))
      end
  end.

Definition CalcCardinality (OtherNodesMsg : list (Z * ExecuteStatementMessage))
  : option error * Z :=
  CalcCardinality_loop OtherNodesMsg 0.

(** The numbers of the messages that decode. *)
Fixpoint numbers (msgs : list (Z * ExecuteStatementMessage)) : list Z :=
  match msgs with
  | [] => []
  | (_, msg) :: rest =>
      match json_Unmarshal (msg_Result msg) with
      | inl n => n :: numbers rest
      | inr _ => numbers rest
      end
  end.

(** Every message decodes. *)
Definition decodable (msgs : list (Z * ExecuteStatementMessage)) : Prop :=
  forall id msg, In (id, msg) msgs ->
    exists n, json_Unmarshal (msg_Result msg) = inl n.

End Cardinality.
End Cardinality.

(** [netstorage.TagKeys]: a measurement and its tag keys. *)
Record TagKeys : Type := mkTagKeys {
  tk_Name : string;
  tk_Keys : list string
}.

(** [TagKeysSlice.Less]: [a[i].Name < a[j].Name]. *)
Definition TagKeysSlice_Less (a b : TagKeys) : bool :=
  ByteStringSlice_Less (tk_Name a) (tk_Name b).

(** The order [sort.Stable] puts a [TagKeysSlice] in. *)
Definition TagKeys_le (a b : TagKeys) : Prop := String.le (tk_Name a) (tk_Name b).

#[global] Instance TagKeys_le_dec : RelDecision TagKeys_le :=
  fun a b => decide (String.le (tk_Name a) (tk_Name b)).

#[global] Instance TagKeys_le_total : Total TagKeys_le :=
  fun a b => total String.le (tk_Name a) (tk_Name b).

Module MergeKeys.

(** The body of the inner loop of [MergeTagKeys]: the keys of [tagKey]
    go into a new set, which is joined with the set [uniqueMap] has for
    the measurement, if any. *)
Definition addTagKey (uniqueMap : gmap string (gset string)) (tagKey : TagKeys)
  : gmap string (gset string) :=
  let s : gset string := list_to_set (tk_Keys tagKey) in
  match uniqueMap !! tk_Name tagKey with
  | Some old => <[tk_Name tagKey := old ∪ s]> uniqueMap
  | None => <[tk_Name tagKey := s]> uniqueMap
  end.

(** The first loop of [MergeTagKeys], over the nodes in the order the
    map yields them. *)
Definition collect (otherNodeTagKeysMap : list (Z * list TagKeys))
  : gmap string (gset string) :=
  foldl (fun uniqueMap node => foldl addTagKey uniqueMap (snd node)) ∅ otherNodeTagKeysMap.

(** One entry of [uniqueMap] as a [TagKeys] with its keys sorted. *)
Definition entry (kv : string * gset string) : TagKeys :=
  {| tk_Name := fst kv; tk_Keys := sort_Strings (elements (snd kv)) |}.

(** [MergeTagKeys]: the error, which is always nil, and the merged
    slice.  The names are the keys of a map, hence distinct, and
    [sort.Stable] gives the one ascending list. *)
Definition MergeTagKeys (otherNodeTagKeysMap : list (Z * list TagKeys))
  : option error * list TagKeys :=
  (None, merge_sort TagKeys_le (map entry (map_to_list (collect otherNodeTagKeysMap)))).

(** Some node reports measurement [name]. *)
Definition reportsName (nodes : list (Z * list TagKeys)) (name : string) : Prop :=
  exists id tks tk, In (id, tks) nodes /\ In tk tks /\ tk_Name tk = name.

(** Some node reports tag key [k] for measurement [name]. *)
Definition reportsKey (nodes : list (Z * list TagKeys)) (name k : string) : Prop :=
  exists id tks tk,
    In (id, tks) nodes /\ In tk tks /\ tk_Name tk = name /\ In k (tk_Keys tk).

End MergeKeys.

(** [sort.Stable] with a [Less]: elements that are not ordered by [less]
    keep the order they came in. *)
Fixpoint insert_stable {A : Type} (less : A -> A -> bool) (x : A) (l : list A) : list A :=
  match l with
  | [] => [x]
  | y :: l' => if less y x then y :: insert_stable less x l' else x :: l
  end.

Definition sort_Stable {A : Type} (less : A -> A -> bool) (l : list A) : list A :=
  foldr (insert_stable less) [] l.

(** The sink, having accepted [before], takes the results [rs] one after
    the other. *)
Definition takes (refuses : list Result -> Result -> option error)
    (before : list Result) (rs : list Result) : Prop :=
  forall pre r post, rs = pre ++ r :: post -> refuses (before ++ pre) r = None.

(** The fields of [influxql.ShowTagKeysStatement] the executor reads
    itself; the sources only travel to the meta client. *)
Record ShowTagKeysQuery : Type := mkShowTagKeysQuery {
  stk_hasCondition : bool;
  stk_Database : string;
  stk_Offset : Z;
  stk_Limit : Z
}.

(** The collaborators of SHOW TAG KEYS: [MetaClient.QueryTagKeys] (per
    versioned measurement name its tag keys, both in the order the maps
    yield them, or an error), [influx.GetOriginMstName], the value of
    [coordinator.ErrDatabaseNameRequired], and the sink. *)
Record TagKeysEnv : Type := mkTagKeysEnv {
  QueryTagKeys : string -> list (string * list string) + error;
  GetOriginMstName : string -> string;
  ErrDatabaseNameRequired : error;
  tagkeys_sink : list Result -> Result -> option error
}.

Module ShowTagKeys.
Section ShowTagKeys.
Variable env : TagKeysEnv.

(** [StatementExecutor.TagKeys]. *)
Definition StatementExecutor_TagKeys (database : string) : list TagKeys + error :=
  match QueryTagKeys env database with
  | inr err => inr err
  | inl tagKeysMap =>
      inl (sort_Stable TagKeysSlice_Less
             (map (fun entry => {| tk_Name := GetOriginMstName env (fst entry);
                                   tk_Keys := sort_Strings (snd entry) |})
                  tagKeysMap))
  end.

(** The offset and the limit of [executeShowTagKeys] on the keys of one
    measurement. *)
Definition trimKeys (q : ShowTagKeysQuery) (keys : list string) : list string :=
  let keys1 :=
    if 0 <? stk_Offset q then
      if Z.of_nat (length keys) <=? stk_Offset q then []
      else drop (Z.to_nat (stk_Offset q)) keys
    else keys in
  if (0 <? stk_Limit q) && (stk_Limit q <? Z.of_nat (length keys1))
  then take (Z.to_nat (stk_Limit q)) keys1
  else keys1.

Definition tagKeyRow (name : string) (keys : list string) : Row :=
  {| Name := name; Columns := ["tagKey"]; Values := map (fun key => [VString key]) keys |}.

(** The loop of [executeShowTagKeys]: [inl err] when a send fails,
    [inr emitted] at the end of the slice. *)
Fixpoint sendTagKeys (q : ShowTagKeysQuery) (seq : Z) (tagKeys : list TagKeys)
    (emitted : bool) (w : World) : (error + bool) * World :=
  match tagKeys with
  | [] => (inr emitted, w)
  | m :: rest =>
      let keys := trimKeys q (tk_Keys m) in
      if (length keys =? 0)%nat then sendTagKeys q seq rest emitted w
      else
        match ctx_Send (tagkeys_sink env)
                {| Series := [tagKeyRow (tk_Name m) keys]; Partial := false;
                   StatementID := 0 |} seq w with
        | (Some err, w1) => (inl err, w1)
        | (None, w1) => sendTagKeys q seq rest true w1
        end
  end.

(** [executeShowTagKeys]. *)
Definition executeShowTagKeys (q : ShowTagKeysQuery) (seq : Z) (w : World)
  : option error * World :=
  if stk_hasCondition q then (Some Kill.ErrUnsupportCommand, w)
  else if String.eqb (stk_Database q) "" then (Some (ErrDatabaseNameRequired env), w)
  else
    match StatementExecutor_TagKeys (stk_Database q) with
    | inr err => (Some err, w)
    | inl tagKeys =>
        match sendTagKeys q seq tagKeys false w with
        | (inl err, w1) => (Some err, w1)
        | (inr emitted, w1) =>
            if negb emitted
            then ctx_Send (tagkeys_sink env)
                   {| Series := []; Partial := false; StatementID := 0 |} seq w1
            else (None, w1)
        end
    end.

(** The keys from position [Offset] on, at most [Limit] of them; an
    offset or a limit that is not positive does not restrict. *)
Definition window (q : ShowTagKeysQuery) (keys : list string) : list string :=
  let keys1 := drop (Z.to_nat (stk_Offset q)) keys in
  if 0 <? stk_Limit q then take (Z.to_nat (stk_Limit q)) keys1 else keys1.

(** The Result of one measurement, if any of its keys is in the window. *)
Definition resultOfKeys (q : ShowTagKeysQuery) (seq : Z) (m : TagKeys) : list Result :=
  match window q (tk_Keys m) with
  | [] => []
  | keys => [{| Series := [tagKeyRow (tk_Name m) keys]; Partial := false;
               StatementID := seq |}]
  end.

(** What SHOW TAG KEYS is to send for [tagKeys]. *)
Definition results (q : ShowTagKeysQuery) (seq : Z) (tagKeys : list TagKeys)
  : list Result :=
  match flat_map (resultOfKeys q seq) tagKeys with
  | [] => [emptyResultOf seq]
  | rs => rs
  end.

End ShowTagKeys.
End ShowTagKeys.

(** The series keys the [nodes] hold, in the order of the nodes. *)
Definition collected (env : SeriesEnv) (database : string) (names : list string)
    (nodes : list (Z * list Z)) : list string :=
  concat (map (fun node => fst (ShowSeries env (fst node) database (snd node) names)) nodes).

(** The row of SHOW SERIES for the keys [series]. *)
Definition seriesRow (series : list string) : Row :=
  {| Name := ""; Columns := ["key"]; Values := map (fun item => [VString item]) series |}.

(** ** Normalizing a measurement *)

(** The fields of [influxql.Measurement] that [normalizeMeasurement]
    reads or writes; [m_hasRegex] is [m.Regex != nil]. *)
Record Measurement : Type := mkMeasurement {
  m_Database : string;
  m_RetentionPolicy : string;
  m_Name : string;
  m_hasRegex : bool;
  m_IsTarget : bool;
  m_SystemIterator : string
}.

(** What [normalizeMeasurement] reads of a [meta2.DatabaseInfo]. *)
Record DatabaseInfo : Type := mkDatabaseInfo {
  di_Name : string;
  di_DefaultRetentionPolicy : string
}.

(** [MetaClient.Database] (the pointer, which may be nil, and the error)
    and the value of [coordinator.ErrDatabaseNameRequired]. *)
Record NormalizeEnv : Type := mkNormalizeEnv {
  meta_Database : string -> option DatabaseInfo * option error;
  norm_ErrDatabaseNameRequired : error
}.

Module Normalize.
Section Normalize.
Variable env : NormalizeEnv.

Definition errInvalidMeasurement : error := mkError IdOther "invalid measurement".

(** [fmt.Errorf("default retention policy not set for: %s", di.Name)]. *)
Definition errNoDefaultPolicy (name : string) : error :=
  mkError IdOther (String.append "default retention policy not set for: " name).

Definition setDatabase (m : Measurement) (database : string) : Measurement :=
  {| m_Database := database;
     m_RetentionPolicy := m_RetentionPolicy m;
     m_Name := m_Name m; m_hasRegex := m_hasRegex m;
     m_IsTarget := m_IsTarget m; m_SystemIterator := m_SystemIterator m |}.

Definition setRetentionPolicy (m : Measurement) (rp : string) : Measurement :=
  {| m_Database := m_Database m;
     m_RetentionPolicy := rp;
     m_Name := m_Name m; m_hasRegex := m_hasRegex m;
     m_IsTarget := m_IsTarget m; m_SystemIterator := m_SystemIterator m |}.

(** [normalizeMeasurement]: the error, and the measurement as the call
    leaves it (it is written through the pointer [m], also on the paths
    that end in an error).  [None] is the nil-pointer panic of
    [di.DefaultRetentionPolicy] when the meta client returns neither a
    database nor an error. *)
Definition normalizeMeasurement (m : Measurement)
    (defaultDatabase defaultRetentionPolicy : string)
  : option (option error * Measurement) :=
  if negb (m_IsTarget m) && String.eqb (m_Name m) ""
     && String.eqb (m_SystemIterator m) "" && negb (m_hasRegex m)
  then Some (Some errInvalidMeasurement, m)
  else
    let m1 := if String.eqb (m_Database m) "" then setDatabase m defaultDatabase else m in
    if String.eqb (m_Database m1) ""
    then Some (Some (norm_ErrDatabaseNameRequired env), m1)
    else
      match meta_Database env (m_Database m1) with
      | (_, Some err) => Some (Some err, m1)
      | (di, None) =>
          if String.eqb (m_RetentionPolicy m1) "" then
            if negb (String.eqb defaultRetentionPolicy "")
            then Some (None, setRetentionPolicy m1 defaultRetentionPolicy)
            else
              match di with
              | None => None
              | Some di =>
                  if negb (String.eqb (di_DefaultRetentionPolicy di) "")
                  then Some (None, setRetentionPolicy m1 (di_DefaultRetentionPolicy di))
                  else Some (Some (errNoDefaultPolicy (di_Name di)), m1)
              end
          else Some (None, m1)
      end.

End Normalize.
End Normalize.

(** ** The periodic statistics *)

(** The calls [Statistics] makes on [statistics.DatabaseStat]. *)
Inductive StatCall : Type :=
| SetMeasurementsNum (db : string) (n : Z)
| SetSeriesNum (db : string) (recent history : Z).

(** The package variable [dbStatCount] and what [statistics.DatabaseStat]
    was told so far. *)
Record StatState : Type := mkStatState {
  dbStatCount : Z;
  stat_calls : list StatCall
}.

(** The collaborators of [Statistics]: [MetaClient.Databases] (the names),
    [MetaClient.MatchMeasurements] per database,
    [executeShowSeriesCardinality] for the inexact statement on a
    database, and [statistics.CollectDatabaseStatistics]. *)
Record StatEnv : Type := mkStatEnv {
  stat_Databases : list string;
  stat_MatchMeasurements : string -> list string + error;
  stat_SeriesCardinality : string -> list Row + error;
  CollectDatabaseStatistics : list Byte.byte -> list Byte.byte
}.

(** How a call of [Statistics] ends: with its results and the state it
    leaves, or in a run-time panic. *)
Inductive StatOutcome : Type :=
| Returned (buffer : list Byte.byte) (err : option error) (st : StatState)
| Panicked.

Module Stats.
Section Stats.
Variable env : StatEnv.

(** [row.Columns[2] == "count"]; [None] when the index is out of range. *)
Definition thirdIsCount (row : Row) : option bool :=
  match Columns row !! 2%nat with
  | Some c => Some (String.eqb c "count")
  | None => None
  end.

(** [row.Values[0][2].(uint64)]; [None] when an index is out of range or
    the value is no [uint64]. *)
Definition thirdValue (row : Row) : option Z :=
  match Values row !! 0%nat with
  | Some v =>
      match v !! 2%nat with
      | Some (VUint64 n) => Some n
      | _ => None
      end
  | None => None
  end.

(** The series numbers after looking at the rows of one database:
    [numHistorySeries] and [numRecentSeries] are declared before the loop
    over the databases, so what is not assigned here is what the previous
    database left.  [None] is a panic. *)
Definition seriesNumbers (rows : list Row) (numHistorySeries numRecentSeries : Z)
  : option (Z * Z) :=
  let n := length rows in
  if (1 <? n)%nat then
    match rows !! (n - 2)%nat, rows !! (n - 1)%nat with
    | Some r2, Some r1 =>
        if (length (Columns r2) =? 3)%nat then
          match thirdIsCount r2 with
          | None => None
          | Some false => Some (numHistorySeries, numRecentSeries)
          | Some true =>
              match thirdIsCount r1 with
              | None => None
              | Some false => Some (numHistorySeries, numRecentSeries)
              | Some true =>
                  match thirdValue r2, thirdValue r1 with
                  | Some h, Some r => Some (h, r)
                  | _, _ => None
                  end
              end
          end
        else Some (numHistorySeries, numRecentSeries)
    | _, _ => None
    end
  else if (n =? 1)%nat then
    match rows !! (n - 1)%nat with
    | Some r1 =>
        if (length (Columns r1) =? 3)%nat then
          match thirdIsCount r1 with
          | None => None
          | Some false => Some (0, numRecentSeries)
          | Some true =>
              match thirdValue r1 with
              | Some r => Some (0, r)
              | None => None
              end
          end
        else Some (0, numRecentSeries)
    | None => None
    end
  else Some (0, 0).

(** The loop over the databases: [inl err] when a database fails,
    [None] on a panic. *)
Fixpoint eachDatabase (databases : list string) (numHistorySeries numRecentSeries : Z)
    (calls : list StatCall) : option (option error * list StatCall) :=
  match databases with
  | [] => Some (None, calls)
  | db :: rest =>
      match stat_MatchMeasurements env db with
      | inr err => Some (Some err, calls)
      | inl mis =>
          match stat_SeriesCardinality env db with
          | inr err => Some (Some err, calls)
          | inl rows =>
              match seriesNumbers rows numHistorySeries numRecentSeries with
              | None => None
              | Some (h, r) =>
                  eachDatabase rest h r
                    (calls ++ [SetMeasurementsNum db (int64 (Z.of_nat (length mis)));
                               SetSeriesNum db (int64 r) (int64 h)])
              end
          end
      end
  end.

(** [Statistics]. *)
Definition Statistics (buffer : list Byte.byte) (st : StatState) : StatOutcome :=
  if negb (Z.rem (dbStatCount st) 30 =? 0) then
    let buffer1 := CollectDatabaseStatistics env buffer in
    let c := int64 (dbStatCount st + 1) in
    Returned buffer1 None
      {| dbStatCount := if c =? 30 then 0 else c; stat_calls := stat_calls st |}
  else
    match eachDatabase (stat_Databases env) 0 0 (stat_calls st) with
    | None => Panicked
    | Some (Some err, calls) =>
        Returned [] (Some err) {| dbStatCount := dbStatCount st; stat_calls := calls |}
    | Some (None, calls) =>
        Returned (CollectDatabaseStatistics env buffer) None
          {| dbStatCount := int64 (dbStatCount st + 1); stat_calls := calls |}
    end.

(** [k] calls of [Statistics] in a row, each on the buffer the one
    before returned; [None] when one of them fails or panics. *)
Fixpoint calls (k : nat) (buffer : list Byte.byte) (st : StatState)
  : option (list Byte.byte * StatState) :=
  match k with
  | O => Some (buffer, st)
  | S k' =>
      match Statistics buffer st with
      | Returned buffer1 None st1 => calls k' buffer1 st1
      | _ => None
      end
  end.

(** The calls among the next [k] that go through the databases, when the
    counter stands at [c]. *)
Fixpoint fullRounds (k : nat) (c : Z) : nat :=
  match k with
  | O => 0
  | S k' =>
      let next := (c + 1) mod 30 in
      if c =? 0 then S (fullRounds k' next) else fullRounds k' next
  end.

End Stats.
End Stats.

(** ** The hosts of a combined query *)

(** The reports of all store nodes, each with the host it came from, in
    the order [executeShowQueriesStatement] goes through them. *)
Definition tagged (infosOnAllStore : list (string * list QueryExeInfo))
  : list (string * QueryExeInfo) :=
  flat_map (fun node => map (pair (fst node)) (snd node)) infosOnAllStore.

(** Among [seen], host [h] reports query [q] with statement [s] in run
    state [st]. *)
Definition reportedBy (seen : list (string * QueryExeInfo)) (q : Z) (s : string)
    (st : RunStateType) (h : string) : Prop :=
  exists info,
    In (h, info) seen /\ QueryID info = q /\ Stmt info = s /\ RunState info = st.

(** The entry [e] of query [q] lists only what was reported in [seen]. *)
Definition entry_sound (seen : list (string * QueryExeInfo)) (q : Z)
    (e : combinedQueryExeInfo) : Prop :=
  qid e = q
  /\ (forall h, h ∈ runningHosts e -> reportedBy seen q (stmt e) Running h)
  /\ (forall h, h ∈ killedHosts e -> reportedBy seen q (stmt e) Killed h)
  /\ (exists h info,
        In (h, info) seen /\ QueryID info = q /\ Stmt info = stmt e
        /\ info_Database info = database e).

(** The map has an entry for exactly the queries reported in [seen], and
    every entry lists only what was reported. *)
Definition registry_sound (seen : list (string * QueryExeInfo))
    (m : gmap Z combinedQueryExeInfo) : Prop :=
  forall q,
    (is_Some (m !! q) <-> exists h info, In (h, info) seen /\ QueryID info = q)
    /\ forall e, m !! q = Some e -> entry_sound seen q e.

(** ** Downsample policies *)

(** What the executor reads of a [meta2.RetentionPolicyInfo]. *)
Record RetentionPolicyInfo : Type := mkRetentionPolicyInfo {
  rpi_Name : string;
  HasDownSamplePolicy : bool
}.

(** [influxql.DropDownSampleStatement]. *)
Record DropDownSampleStatement : Type := mkDropDownSampleStatement {
  dds_DbName : string;
  dds_RpName : string;
  dds_DropAll : bool
}.

(** The collaborators of DROP DOWNSAMPLE: [meta2.ValidName],
    [MetaClient.RetentionPolicy] (the pointer, which may be nil, and the
    error), [MetaClient.DropDownSamplePolicy], and the errors
    [errno.NewError] makes of [InvalidName], [RpNotFound] and
    [DownSamplePolicyNotFound]. *)
Record DownSampleEnv : Type := mkDownSampleEnv {
  ds_ValidName : string -> bool;
  ds_RetentionPolicy : string -> string -> option RetentionPolicyInfo * option error;
  DropDownSamplePolicy : string -> string -> bool -> option error;
  ds_InvalidName : error;
  ds_RpNotFound : error;
  ds_DownSamplePolicyNotFound : error
}.

Module DownSample.
Section DownSample.
Variable env : DownSampleEnv.

(** [executeDropDownSamplingStmt]; [None] is the nil-pointer panic of
    [rpi.Name]. *)
Definition executeDropDownSamplingStmt (stmt : DropDownSampleStatement)
  : option (option error) :=
  if negb (ds_ValidName env (dds_DbName stmt)) then Some (Some (ds_InvalidName env))
  else
    match ds_RetentionPolicy env (dds_DbName stmt) (dds_RpName stmt) with
    | (_, Some err) => Some (Some err)
    | (rpi, None) =>
        let checked : option error :=
          if negb (dds_DropAll stmt) then
            match rpi with
            | None => Some (ds_RpNotFound env)
            | Some rpi =>
                if negb (HasDownSamplePolicy rpi)
                then Some (ds_DownSamplePolicyNotFound env)
                else None
            end
          else None in
        match checked with
        | Some err => Some (Some err)
        | None =>
            match rpi with
            | None => None
            | Some rpi =>
                Some (DropDownSamplePolicy env (dds_DbName stmt) (rpi_Name rpi)
                        (dds_DropAll stmt))
            end
        end
    end.

End DownSample.
End DownSample.

(** ** Creating databases and retention policies *)

(** [meta2.RetentionPolicySpec] as the executor fills it; the pointer
    fields are options. *)
Record RetentionPolicySpec : Type := mkRetentionPolicySpec {
  spec_Name : string;
  spec_Duration : option Z;
  spec_ReplicaN : option Z;
  spec_ShardGroupDuration : Z;
  spec_HotDuration : option Z;
  spec_WarmDuration : option Z;
  spec_IndexGroupDuration : Z
}.

(** The fields of [influxql.CreateDatabaseStatement] the executor reads. *)
Record CreateDatabaseStatement : Type := mkCreateDatabaseStatement {
  cd_Name : string;
  cd_RetentionPolicyCreate : bool;
  cd_RetentionPolicyName : string;
  cd_RetentionPolicyDuration : option Z;
  cd_RetentionPolicyReplication : option Z;
  cd_RetentionPolicyShardGroupDuration : Z;
  cd_RetentionPolicyHotDuration : Z;
  cd_RetentionPolicyWarmDuration : Z;
  cd_RetentionPolicyIndexGroupDuration : Z;
  cd_ShardKey : list string;
  cd_EnableTagArray : bool;
  cd_Replicas : Z
}.


(** The executor's [RetentionPolicyLimit] and its collaborators over the
    metadata [Meta]: [MetaClient.Databases] (per database the names of
    its retention policies), the three creating calls, [meta2.ValidName],
    [meta2.ValidShardKey] and the value of [meta2.ErrInvalidName]. *)
Record CreateEnv (Meta : Type) : Type := mkCreateEnv {
  RetentionPolicyLimit : Z;
  create_Databases : Meta -> list (string * list string);
  CreateDatabase : string -> bool -> Z -> Meta -> option error * Meta;
  CreateDatabaseWithRetentionPolicy :
    string -> RetentionPolicySpec -> list string -> bool -> Z -> Meta -> option error * Meta;
  CreateRetentionPolicy : string -> RetentionPolicySpec -> bool -> Meta -> option error * Meta;
  create_ValidName : string -> bool;
  ValidShardKey : list string -> option error;
  ErrInvalidName : error
}.
Arguments RetentionPolicyLimit {Meta} _.
Arguments create_Databases {Meta} _ _.
Arguments CreateDatabase {Meta} _ _ _ _ _.
Arguments CreateDatabaseWithRetentionPolicy {Meta} _ _ _ _ _ _ _.
Arguments CreateRetentionPolicy {Meta} _ _ _ _ _.
Arguments create_ValidName {Meta} _ _.
Arguments ValidShardKey {Meta} _ _.
Arguments ErrInvalidName {Meta} _.

Module Create.
Section Create.
Context {Meta : Type}.
Variable env : CreateEnv Meta.

(** [getRetentionPolicyCount]: the retention policies of all databases.
    The sum counts elements of slices held in memory and cannot
    overflow. *)
Definition getRetentionPolicyCount (m : Meta) : Z :=
  foldl (fun c db => c + Z.of_nat (length (snd db))) 0 (create_Databases env m).

Definition getRpLimit : Z := RetentionPolicyLimit env.

Definition errRpLimit : error := mkError IdOther "THE TOTAL NUMBER OF RPs EXCEEDS THE LIMIT".

(** [executeCreateDatabaseStatement]: the error and the metadata. *)
Definition executeCreateDatabaseStatement (stmt : CreateDatabaseStatement) (m : Meta)
  : option error * Meta :=
  if negb (create_ValidName env (cd_Name stmt)) then (Some (ErrInvalidName env), m)
  else if getRetentionPolicyCount m >=? getRpLimit then (Some errRpLimit, m)
  else if negb (cd_RetentionPolicyCreate stmt)
  then CreateDatabase env (cd_Name stmt) (cd_EnableTagArray stmt) (cd_Replicas stmt) m
  else if negb (String.eqb (cd_RetentionPolicyName stmt) "")
          && negb (create_ValidName env (cd_RetentionPolicyName stmt))
  then (Some (ErrInvalidName env), m)
  else
    match ValidShardKey env (cd_ShardKey stmt) with
    | Some err => (Some err, m)
    | None =>
        let spec :=
          {| spec_Name := cd_RetentionPolicyName stmt;
             spec_Duration := cd_RetentionPolicyDuration stmt;
             spec_ReplicaN := cd_RetentionPolicyReplication stmt;
             spec_ShardGroupDuration := cd_RetentionPolicyShardGroupDuration stmt;
             spec_HotDuration := Some (cd_RetentionPolicyHotDuration stmt);
             spec_WarmDuration := Some (cd_RetentionPolicyWarmDuration stmt);
             spec_IndexGroupDuration := cd_RetentionPolicyIndexGroupDuration stmt |} in
        CreateDatabaseWithRetentionPolicy env (cd_Name stmt) spec (cd_ShardKey stmt)
          (cd_EnableTagArray stmt) (cd_Replicas stmt) m
    end.



End Create.
End Create.

(** ** SHOW MEASUREMENT KEYS *)

(** What [executeShowMeasurementKeysStatement] reads of the metadata of
    a measurement: [meta2.ColStoreInfo], [meta2.ShardKeyInfo] and
    [meta2.MeasurementInfo] with its pointer to the column-store
    information and its [config.EngineType]. *)
Record ColStoreInfo : Type := mkColStoreInfo {
  PrimaryKey : list string;
  SortKey : list string;
  PropertyKey : list string;
  PropertyValue : list string
}.

Record ShardKeyInfo : Type := mkShardKeyInfo {
  ShardKey : list string;
  sk_Type : string;
  ShardGroup : Z
}.

Record MeasurementInfo : Type := mkMeasurementInfo {
  ShardKeys : list ShardKeyInfo;
  mst_ColStoreInfo : option ColStoreInfo;
  EngineType : Z
}.

(** A retention policy: [MstVersions] maps a measurement to its name
    with version, [Measurements] that name to the measurement. *)
Record PolicyMeasurements : Type := mkPolicyMeasurements {
  MstVersions : gmap string string;
  Measurements : gmap string MeasurementInfo
}.

Record DatabaseMeasurements : Type := mkDatabaseMeasurements {
  dbm_DefaultRetentionPolicy : string;
  RetentionPolicies : gmap string PolicyMeasurements
}.

(** The values the rows of this statement hold: a string, a [uint64], a
    [[]string], and a [[]interface{}] of strings. *)
Inductive Cell : Type :=
| CString (s : string)
| CUint64 (n : Z)
| CStrings (l : list string)
| CInterfaces (l : list string).

Record KeysRow : Type := mkKeysRow {
  kr_Columns : list string;
  kr_Values : list (list Cell)
}.

(** [influxql.ShowMeasurementKeysStatement]. *)
Record ShowMeasurementKeysStatement : Type := mkShowMeasurementKeysStatement {
  smk_Name : string;
  smk_Database : string;
  smk_Rp : string;
  smk_Measurement : string
}.

(** [MetaClient.Database] (pointer and error), the value of
    [config.COLUMNSTORE] and the map [config.EngineType2String]. *)
Record KeysEnv : Type := mkKeysEnv {
  keys_Database : string -> option DatabaseMeasurements * option error;
  COLUMNSTORE : Z;
  EngineType2String : Z -> string
}.

(** How the statement ends: with rows and error, or in a run-time
    panic (nil pointer, index out of range). *)
Inductive KeysOutcome : Type :=
| KeysReturned (rows : list KeysRow) (err : option error)
| KeysPanicked.

Module ShowKeys.
Section ShowKeys.
Variable env : KeysEnv.

(** The look-ups before the [switch]: [inl] is the outcome when they end
    the call, [inr mst] the pointer [rp.Measurements[...]] yields, nil
    when the map has no such key.  (The default policy is also written
    to [stmt.Rp]; the outcome does not depend on that.) *)
Definition findMeasurement (stmt : ShowMeasurementKeysStatement)
  : KeysOutcome + option MeasurementInfo :=
  match keys_Database env (smk_Database stmt) with
  | (_, Some err) => inl (KeysReturned [] (Some err))
  | (None, None) => inl KeysPanicked
  | (Some db, None) =>
      let Rp := if String.eqb (smk_Rp stmt) "" then dbm_DefaultRetentionPolicy db
                else smk_Rp stmt in
      match RetentionPolicies db !! Rp with
      | None => inl (KeysReturned [] (Some (mkError IdOther "rp not found")))
      | Some rp =>
          match MstVersions rp !! smk_Measurement stmt with
          | None => inl (KeysReturned [] (Some (mkError IdOther "measurement not found")))
          | Some NameWithVersion => inr (Measurements rp !! NameWithVersion)
          end
      end
  end.

(** The closures of the statement; [None] is a panic. *)
Definition getPrimaryKey (mst : MeasurementInfo) : option KeysRow :=
  match mst_ColStoreInfo mst with
  | None => None
  | Some cs =>
      Some {| kr_Columns := ["primary_key"];
              kr_Values := [[CInterfaces (PrimaryKey cs)]] |}
  end.

Definition getSortKey (mst : MeasurementInfo) : option KeysRow :=
  match mst_ColStoreInfo mst with
  | None => None
  | Some cs =>
      Some {| kr_Columns := ["sort_key"]; kr_Values := [[CInterfaces (SortKey cs)]] |}
  end.

(** The loop of [getProperty] over the indices of [PropertyKey]: it
    appends [PrimaryKey[i]] and [PropertyValue[i]]. *)
Fixpoint propertyLoop (cs : ColStoreInfo) (indices : list nat) (keys values : list string)
  : option (list string * list string) :=
  match indices with
  | [] => Some (keys, values)
  | i :: rest =>
      match PrimaryKey cs !! i with
      | None => None
      | Some k =>
          match PropertyValue cs !! i with
          | None => None
          | Some v => propertyLoop cs rest (keys ++ [k]) (values ++ [v])
          end
      end
  end.

Definition getProperty (mst : MeasurementInfo) : option KeysRow :=
  match mst_ColStoreInfo mst with
  | None => None
  | Some cs =>
      match propertyLoop cs (seq 0 (length (PropertyKey cs))) [] [] with
      | None => None
      | Some (keys, values) =>
          Some {| kr_Columns := ["property_key"; "property_value"];
                  kr_Values := [[CInterfaces keys; CInterfaces values]] |}
      end
  end.

Definition getShardKey (mst : MeasurementInfo) : KeysRow :=
  {| kr_Columns := ["shard_key"; "type"; "ShardGroup"];
     kr_Values := map (fun sk => [CStrings (ShardKey sk); CString (sk_Type sk);
                                  CUint64 (ShardGroup sk)])
                      (ShardKeys mst) |}.

Definition getEngineType (mst : MeasurementInfo) : KeysRow :=
  {| kr_Columns := ["ENGINETYPE"];
     kr_Values := [[CString (EngineType2String env (EngineType mst))]] |}.

(** [row.Values[0][j]]. *)
Definition cell (row : KeysRow) (j : nat) : option Cell :=
  match kr_Values row !! 0%nat with
  | Some v => v !! j
  | None => None
  end.

Definition errColumnStoreOnly : error :=
  mkError IdOther "only support for COLUMNSTORE engine".

(** [fmt.Errorf("%s is not support for this command", stmt.Name)]. *)
Definition errNotSupported (name : string) : error :=
  mkError IdOther (String.append name " is not support for this command").

Definition one (row : option KeysRow) : KeysOutcome :=
  match row with
  | Some row => KeysReturned [row] None
  | None => KeysPanicked
  end.

(** The row of SCHEMA: the cells are taken in the order written, and the
    first one that is out of range panics. *)
Definition schemaRow (mst : MeasurementInfo) : option KeysRow :=
  match cell (getShardKey mst) 0, cell (getShardKey mst) 1, cell (getShardKey mst) 2,
        cell (getEngineType mst) 0 with
  | Some k, Some t, Some g, Some e =>
      if EngineType mst =? COLUMNSTORE env then
        match getPrimaryKey mst with
        | None => None
        | Some pk =>
            match cell pk 0, getSortKey mst with
            | Some p, Some sk =>
                match cell sk 0 with
                | Some s =>
                    Some {| kr_Columns := ["shard_key"; "type"; "ShardGroup"; "engine_type";
                                           "primary_key"; "sort_key"];
                            kr_Values := [[k; t; g; e; p; s]] |}
                | None => None
                end
            | _, _ => None
            end
        end
      else
        Some {| kr_Columns := ["shard_key"; "type"; "ShardGroup"; "engine_type"];
                kr_Values := [[k; t; g; e]] |}
  | _, _, _, _ => None
  end.

(** The [switch] on [stmt.Name]; [mst] is the pointer found. *)
Definition keysOf (name : string) (mst : option MeasurementInfo) : KeysOutcome :=
  let columnStore (get : MeasurementInfo -> option KeysRow) : KeysOutcome :=
    match mst with
    | None => KeysPanicked
    | Some mst =>
        if negb (EngineType mst =? COLUMNSTORE env)
        then KeysReturned [] (Some errColumnStoreOnly)
        else one (get mst)
    end in
  if String.eqb name "PRIMARYKEY" then columnStore getPrimaryKey
  else if String.eqb name "SORTKEY" then columnStore getSortKey
  else if String.eqb name "PROPERTY" then columnStore getProperty
  else if String.eqb name "SHARDKEY" then
    match mst with
    | None => KeysPanicked
    | Some mst => KeysReturned [getShardKey mst] None
    end
  else if String.eqb name "ENGINETYPE" then
    match mst with
    | None => KeysPanicked
    | Some mst => KeysReturned [getEngineType mst] None
    end
  else if String.eqb name "SCHEMA" then
    match mst with
    | None => KeysPanicked
    | Some mst => one (schemaRow mst)
    end
  else KeysReturned [] (Some (errNotSupported name)).

(** [executeShowMeasurementKeysStatement]. *)
Definition executeShowMeasurementKeysStatement (stmt : ShowMeasurementKeysStatement)
  : KeysOutcome :=
  match findMeasurement stmt with
  | inl outcome => outcome
  | inr mst => keysOf (smk_Name stmt) mst
  end.

End ShowKeys.
End ShowKeys.

(** ** SHOW SERIES EXACT CARDINALITY *)

(** [uint64] arithmetic wraps around. *)
Definition uint64 (z : Z) : Z := z mod 2 ^ 64.

(** What the fan-out callback of [showSeriesExactCardinality] shares
    between the nodes: the flag [*hasErr] and the map [ret]. *)
Abbreviation ExactAcc := (bool * gmap string Z)%type.

(** The collaborators: [NetStorage.SeriesExactCardinality] per node (the
    count of every measurement, and an error) and
    [MetaExecutor.EachDBNodes]. *)
Record ExactEnv : Type := mkExactEnv {
  SeriesExactCardinality : Z -> string -> list Z -> list string -> gmap string Z * option error;
  exact_EachDBNodes : string -> (Z -> list Z -> ExactAcc -> option error * ExactAcc)
                      -> ExactAcc -> option error * ExactAcc
}.

Module Exact.
Section Exact.
Variable env : ExactEnv.

(** The loop [for name, n := range tmp] of the callback, over the
    entries of [tmp] in the order the map yields them. *)
Definition addCounts (ret tmp : gmap string Z) : gmap string Z :=
  foldl (fun ret entry =>
           match ret !! fst entry with
           | None => <[fst entry := snd entry]> ret
           | Some old => <[fst entry := uint64 (old + snd entry)]> ret
           end)
        ret (map_to_list tmp).

(** The callback handed to [EachDBNodes], as a step on the shared
    variables (the part under the lock together with the check before
    it). *)
Definition callback (database : string) (names : list string)
    (nodeID : Z) (pts : list Z) (acc : ExactAcc) : option error * ExactAcc :=
  let '(hasErr, ret) := acc in
  if hasErr then (None, acc)
  else
    let '(tmp, err) := SeriesExactCardinality env nodeID database pts names in
    let '(hasErr1, ret1) :=
      match err with
      | Some _ => (true, ∅)
      | None => (hasErr, ret)
      end in
    if hasErr1 then (err, (hasErr1, ret1))
    else (None, (hasErr1, addCounts ret1 tmp)).

Definition countRow (entry : string * Z) : Row :=
  {| Name := fst entry; Columns := ["count"]; Values := [[VUint64 (snd entry)]] |}.

(** [showSeriesExactCardinality]: the rows, in the order the map [ret]
    yields its entries, and the error. *)
Definition showSeriesExactCardinality (database : string) (names : list string)
  : list Row * option error :=
  match exact_EachDBNodes env database (callback database names) (false, ∅) with
  | (Some err, _) => ([], Some err)
  | (None, (_, ret)) => (map countRow (map_to_list ret), None)
  end.

(** Modelled from the spec: [EachDBNodes] of package [coordinator] is not
    part of this file's source.  Here the nodes run one after the other
    and the first error is the one returned. *)
Fixpoint eachNode (nodes : list (Z * list Z))
    (fn : Z -> list Z -> ExactAcc -> option error * ExactAcc)
    (acc : ExactAcc) : option error * ExactAcc :=
  match nodes with
  | [] => (None, acc)
  | (nodeID, pts) :: rest =>
      let '(err, acc1) := fn nodeID pts acc in
      let '(err', acc2) := eachNode rest fn acc1 in
      (match err with Some _ => err | None => err' end, acc2)
  end.

(** What node [node] counts for measurement [name]. *)
Definition countOn (database : string) (names : list string) (name : string)
    (node : Z * list Z) : option Z :=
  fst (SeriesExactCardinality env (fst node) database (snd node) names) !! name.

(** The counts of all [nodes] for [name], added up. *)
Definition sumOf (database : string) (names : list string) (name : string)
    (nodes : list (Z * list Z)) : Z :=
  foldr (fun node s => default 0 (countOn database names name node) + s) 0 nodes.

(** Some node counts measurement [name]. *)
Definition counted (database : string) (names : list string) (name : string)
    (nodes : list (Z * list Z)) : Prop :=
  exists node, In node nodes /\ is_Some (countOn database names name node).

End Exact.
End Exact.

(** ** The duration SHOW QUERIES prints *)

(** The unit [getDurationString] cuts a duration down to: the largest
    of second, millisecond and microsecond that the duration reaches,
    and the nanosecond below that. *)
Definition unitOf (d : Z) : Z :=
  if d >=? Second then Second
  else if d >=? Millisecond then Millisecond
  else if d >=? Microsecond then Microsecond
  else 1.

(** ** CREATE MEASUREMENT *)

(** The fields of [influxql.CreateMeasurementStatement] the executor
    looks at itself; the keys, tags and fields only travel to the
    constructors of package [meta2]. *)
Record CreateMeasurementStatement : Type := mkCreateMeasurementStatement {
  cm_Database : string;
  cm_RetentionPolicy : string;
  cm_Name : string;
  cm_ShardKey : list string;
  cm_Type : string;
  cm_IndexType : list string;
  cm_IndexList : list (list string);
  cm_EngineType : string
}.

(** The collaborators of CREATE MEASUREMENT: [meta2.ValidMeasurementName],
    [meta2.ErrInvalidName], [meta2.ValidShardKey], [tsi.GetIndexIdByName],
    the value of [uint32(tsi.Field)], the map [config.String2EngineType],
    and [MetaClient.CreateMeasurement], which is handed the statement's
    database, policy, name, shard key and store and schema information
    together with the index ids, the index lists and the engine type. *)
Record MeasurementEnv : Type := mkMeasurementEnv {
  ValidMeasurementName : string -> bool;
  cm_ErrInvalidName : error;
  cm_ValidShardKey : list string -> option error;
  GetIndexIdByName : string -> Z + error;
  tsi_Field : Z;
  String2EngineType : string -> option Z;
  CreateMeasurement :
    CreateMeasurementStatement -> list Z -> list (list string) -> Z -> option error
}.

(** How CREATE MEASUREMENT ends: refused before the meta client is
    asked, with the answer of the meta client to the index ids, index
    lists and engine type it was handed, or in a run-time panic. *)
Inductive MeasurementOutcome : Type :=
| Refused (err : error)
| Asked (Oids : list Z) (IndexList : list (list string)) (engineType : Z)
        (err : option error)
| IndexOutOfRange.

Module CreateMst.
Section CreateMst.
Variable env : MeasurementEnv.

(** [fmt.Errorf("cannot create field index for multiple columns: %v", cols)]. *)
Definition errMultipleColumns (cols : list string) : error :=
  mkError IdOther
    (String.append "cannot create field index for multiple columns: ["
       (String.append (String.concat " " cols) "]")).

Definition quote : string := String (ascii_of_nat 34) "".

(** The error of an engine type that is not in the map: the text
    ENGINETYPE, the name between double quotes, IS NOT SUPPORTED!. *)
Definition errEngineType (name : string) : error :=
  mkError IdOther
    (String.append "ENGINETYPE "
       (String.append quote
          (String.append name (String.append quote " IS NOT SUPPORTED!")))).

(** The loop over [stmt.IndexType] from position [i] on: the error that
    ends it, or the index ids; [None] when [stmt.IndexList[i]] is out of
    range. *)
Fixpoint indexLoop (IndexList : list (list string)) (i : nat) (types : list string)
    (Oids : list Z) : option (error + list Z) :=
  match types with
  | [] => Some (inr Oids)
  | indexType :: rest =>
      match GetIndexIdByName env indexType with
      | inr err => Some (inl err)
      | inl oid =>
          if oid =? tsi_Field env then
            match IndexList !! i with
            | None => None
            | Some cols =>
                if (1 <? length cols)%nat then Some (inl (errMultipleColumns cols))
                else indexLoop IndexList (S i) rest (Oids ++ [oid])
            end
          else indexLoop IndexList (S i) rest (Oids ++ [oid])
      end
  end.

(** [executeCreateMeasurementStatement]. *)
Definition executeCreateMeasurementStatement (stmt : CreateMeasurementStatement)
  : MeasurementOutcome :=
  if negb (ValidMeasurementName env (cm_Name stmt)) then Refused (cm_ErrInvalidName env)
  else
    match cm_ValidShardKey env (cm_ShardKey stmt) with
    | Some err => Refused err
    | None =>
        let indexed :=
          if (0 <? length (cm_IndexList stmt))%nat
          then indexLoop (cm_IndexList stmt) 0 (cm_IndexType stmt) []
          else Some (inr []) in
        match indexed with
        | None => IndexOutOfRange
        | Some (inl err) => Refused err
        | Some (inr Oids) =>
            let engine := String2EngineType env (cm_EngineType stmt) in
            let ok := match engine with Some _ => true | None => false end in
            if negb (String.eqb (cm_EngineType stmt) "") && negb ok
            then Refused (errEngineType (cm_EngineType stmt))
            else
              Asked Oids (cm_IndexList stmt) (default 0 engine)
                (CreateMeasurement env stmt Oids (cm_IndexList stmt) (default 0 engine))
        end
    end.

End CreateMst.
End CreateMst.

(** The index ids [Oids] answer the index types from position [i] on,
    and each field index among them is for one column at most. *)
Definition indexed_from (env : MeasurementEnv) (IndexList : list (list string)) (i : nat)
    (types : list string) (Oids : list Z) : Prop :=
  length Oids = length types
  /\ forall j t oid,
       types !! j = Some t -> Oids !! j = Some oid ->
       GetIndexIdByName env t = inl oid
       /\ (oid = tsi_Field env ->
           exists cols, IndexList !! (i + j)%nat = Some cols /\ (length cols <= 1)%nat).

Module Cases.

(** The executor fails twice with a transient error, a second each time,
    and then returns a row. *)
Definition recovering : StmtEnv :=
  {| execute := fun _ k =>
       if (k <? 2)%nat
       then mkOutcome 1000000000%N ([], Some Scenario.errTransient)
       else mkOutcome 1000000000%N
              ([{| Name := "cpu"; Columns := ["count"]; Values := [[VUint64 3]] |}], None);
     stmt_oversleep := fun _ => 0%N |}.

(** [executor.Select] panics with an index error. *)
Definition panicking : SelectEnv :=
  {| executor_Select := fun _ =>
       mkOutcome 0%N (SelectPanics (mkError IdOther "index out of range"));
     select_oversleep := fun _ => 0%N;
     sink_refuses := Scenario.accepting;
     ctx_Err := Scenario.errCanceled |}.

(** The plan emits two batches and then fails. *)
Definition twoBatches : SelectEnv :=
  {| executor_Select := fun _ =>
       mkOutcome 0%N
         (SelectReturns
            (Some {| observed := [Recv Scenario.batch; Recv Scenario.batch];
                     ExecuteExecutor := Some (mkError IdOther "shard closed") |}) None);
     select_oversleep := fun _ => 0%N;
     sink_refuses := Scenario.accepting;
     ctx_Err := Scenario.errCanceled |}.

(** The connection is gone after the first Result. *)
Definition brokenPipe : SelectEnv :=
  {| executor_Select := fun _ =>
       mkOutcome 0%N
         (SelectReturns
            (Some {| observed := [Recv Scenario.batch; Recv Scenario.batch];
                     ExecuteExecutor := None |}) None);
     select_oversleep := fun _ => 0%N;
     sink_refuses := fun before _ =>
       match before with
       | [] => None
       | _ => Some (mkError IdOther "broken pipe")
       end;
     ctx_Err := Scenario.errCanceled |}.

(** Two data nodes, both unreachable. *)
Definition unreachable : KillEnv :=
  {| kill_DataNodes := ([1; 2], None);
     KillQueryOnNode := fun _ _ => Some (mkError IdOther "connection refused");
     errno_text := fun _ _ => "query not found" |}.

(** The tag keys of database "db0": measurement "cpu" in two versions
    and measurement "mem". *)
Definition tagKeysEnv : TagKeysEnv :=
  {| QueryTagKeys := fun db =>
       if String.eqb db "db0"
       then inl [("mem_0000", ["host"]); ("cpu_0001", ["region"; "host"]);
                 ("cpu_0000", ["host"; "az"])]
       else inr (mkError (IdErrno DatabaseNotFound) "database not found");
     GetOriginMstName := fun s => substring 0 (String.length s - 5) s;
     ErrDatabaseNameRequired := mkError IdOther "database name required";
     tagkeys_sink := Scenario.accepting |}.

(** Three storage nodes, of which node 2 does not answer. *)
Definition oneDown : SeriesEnv :=
  {| MatchMeasurements := fun _ => (["cpu"], None);
     ShowSeries := fun nodeID _ _ _ =>
       if nodeID =? 2 then ([], Some (mkError IdOther "connection refused"))
       else (["cpu,host=a"], None);
     EachDBNodes := fun _ fn acc => Series.eachNode [(1, [0]); (2, [1]); (3, [2])] fn acc;
     series_sink := Scenario.accepting |}.

(** A meta client that knows database "db0" with default policy
    "autogen". *)
Definition oneDatabase : NormalizeEnv :=
  {| meta_Database := fun name =>
       if String.eqb name "db0" then (Some (mkDatabaseInfo "db0" "autogen"), None)
       else (None, Some (mkError (IdErrno DatabaseNotFound) "database not found"));
     norm_ErrDatabaseNameRequired := mkError IdOther "database name required" |}.

(** Two databases; the cardinality rows of "db1" do not have the three
    columns [Statistics] looks for. *)
Definition twoDatabases : StatEnv :=
  {| stat_Databases := ["db0"; "db1"];
     stat_MatchMeasurements := fun db =>
       if String.eqb db "db0" then inl ["cpu"; "mem"] else inl ["disk"];
     stat_SeriesCardinality := fun db =>
       if String.eqb db "db0"
       then inl [{| Name := ""; Columns := ["startTime"; "endTime"; "count"];
                    Values := [[VString "t0"; VString "t1"; VUint64 5]] |};
                 {| Name := ""; Columns := ["startTime"; "endTime"; "count"];
                    Values := [[VString "t1"; VString "t2"; VUint64 7]] |}]
       else inl [{| Name := "disk"; Columns := ["count"]; Values := [[VUint64 3]] |};
                 {| Name := "disk"; Columns := ["count"]; Values := [[VUint64 4]] |}];
     CollectDatabaseStatistics := fun buffer => buffer |}.

(** A meta client for downsample policies: "rp0" of "db0" has one, and
    "db1" has no retention policy to look up. *)
Definition downSamples : DownSampleEnv :=
  {| ds_ValidName := fun name => negb (String.eqb name "");
     ds_RetentionPolicy := fun db rp =>
       if String.eqb db "db0" then (Some (mkRetentionPolicyInfo "rp0" true), None)
       else (None, None);
     DropDownSamplePolicy := fun _ _ _ => None;
     ds_InvalidName := mkError (IdErrno (ErrnoOther 1)) "invalid name";
     ds_RpNotFound := mkError (IdErrno (ErrnoOther 2)) "retention policy not found";
     ds_DownSamplePolicyNotFound :=
       mkError (IdErrno (ErrnoOther 3)) "downsample policy not found" |}.

(** Metadata as the list of databases with their retention policies; a
    new database comes with the policy "autogen". *)
Definition registry (limit : Z) : CreateEnv (list (string * list string)) :=
  {| RetentionPolicyLimit := limit;
     create_Databases := fun m => m;
     CreateDatabase := fun name _ _ m => (None, m ++ [(name, ["autogen"])]);
     CreateDatabaseWithRetentionPolicy := fun name spec _ _ _ m =>
       (None, m ++ [(name, [spec_Name spec])]);
     CreateRetentionPolicy := fun db spec _ m =>
       (None, map (fun d => if String.eqb (fst d) db
                            then (fst d, snd d ++ [spec_Name spec]) else d) m);
     create_ValidName := fun name => negb (String.eqb name "");
     ValidShardKey := fun _ => None;
     ErrInvalidName := mkError IdOther "invalid name" |}.

(** Database "db0" with policy "autogen" holding measurement "cpu", a
    column-store measurement with one property and no shard key, and
    "mem", a measurement of the other engine with two shard keys. *)
Definition columnStoreCpu : MeasurementInfo :=
  {| ShardKeys := [];
     mst_ColStoreInfo :=
       Some {| PrimaryKey := ["time"; "host"]; SortKey := ["time"];
               PropertyKey := ["compression"]; PropertyValue := ["zstd"] |};
     EngineType := 1 |}.

Definition rowStoreMem : MeasurementInfo :=
  {| ShardKeys := [mkShardKeyInfo ["host"] "hash" 1; mkShardKeyInfo ["az"] "range" 2];
     mst_ColStoreInfo := None;
     EngineType := 0 |}.

Definition keysEnv : KeysEnv :=
  {| keys_Database := fun name =>
       if String.eqb name "db0"
       then (Some {| dbm_DefaultRetentionPolicy := "autogen";
                     RetentionPolicies :=
                       {[ "autogen" :=
                            {| MstVersions := {[ "cpu" := "cpu_0000"; "mem" := "mem_0000" ]};
                               Measurements := {[ "cpu_0000" := columnStoreCpu;
                                                  "mem_0000" := rowStoreMem ]} |} ]} |},
             None)
       else (None, Some (mkError (IdErrno DatabaseNotFound) "database not found"));
     COLUMNSTORE := 1;
     EngineType2String := fun t => if t =? 1 then "columnstore" else "tsstore" |}.

(** Two storage nodes: node 1 counts 3 series of "cpu" and 1 of "mem",
    node 2 counts 4 series of "cpu". *)
Definition exactNodes : ExactEnv :=
  {| SeriesExactCardinality := fun nodeID _ _ _ =>
       if nodeID =? 1 then ({[ "cpu" := 3; "mem" := 1 ]}, None)
       else ({[ "cpu" := 4 ]}, None);
     exact_EachDBNodes := fun _ fn acc => Exact.eachNode [(1, [0]); (2, [1])] fn acc |}.

(** A clock that stands at 3.456789012 s, and a [Duration.String] that
    knows three seconds. *)
Definition stopwatch : QueriesEnv :=
  {| DataNodes := ([], None);
     GetQueriesOnNode := fun _ => ([], None);
     UnixNano := fun _ => 3456789012;
     Duration_String := fun d => if d =? 3000000000 then "3s" else "?" |}.

(** Index types "text" (id 1) and "field" (id 2), engines "tsstore" and
    "columnstore". *)
Definition measurements : MeasurementEnv :=
  {| ValidMeasurementName := fun name => negb (String.eqb name "");
     cm_ErrInvalidName := mkError IdOther "invalid name";
     cm_ValidShardKey := fun _ => None;
     GetIndexIdByName := fun t =>
       if String.eqb t "text" then inl 1
       else if String.eqb t "field" then inl 2
       else inr (mkError IdOther "invalid index type");
     tsi_Field := 2;
     String2EngineType := fun name =>
       if String.eqb name "tsstore" then Some 0
       else if String.eqb name "columnstore" then Some 1
       else None;
     CreateMeasurement := fun _ _ _ _ => None |}.

End Cases.

(* ===================================================================== *)
(** * Part II: lemmas and theorems                                       *)
(* ===================================================================== *)

(** ** Sanity checks of the primitives *)

Example Contains_mark : Contains "meta: repeat mark delete x" "repeat mark delete" = true.
Proof. reflexivity. Qed.

Example Contains_empty : Contains "" "" = true.
Proof. reflexivity. Qed.

Example HasPrefix_db : HasPrefix "database not found: db0" "database not found" = true.
Proof. reflexivity. Qed.

Example uint32_wraps : uint32 (4294967295 + 1) = 0.
Proof. reflexivity. Qed.

(** ** [retryExecuteStatement]: a non-retryable error ends the loop at once *)

Lemma Seconds_lt_zero (secs : Z) : 0 < secs -> Seconds_lt 0 secs = true.
Proof. intros H. unfold Seconds_lt, Second. apply Z.ltb_lt. lia. Qed.

Lemma Since_start (w : World) : Since (now w) w = 0.
Proof. unfold Since. lia. Qed.

Lemma dispatch_err env stmt k rows err w :
  stmt <> OtherStatement ->
  snd (fst (RetryStatement.dispatch env stmt k rows err w))
    = RetryStatement.attempt_err env stmt k
  /\ snd (RetryStatement.dispatch env stmt k rows err w)
    = advance (took (execute env stmt k)) (record (EvCall k) w).
Proof.
  intros Hs.
  destruct stmt; try congruence;
    unfold RetryStatement.dispatch, RetryStatement.assign_err,
      RetryStatement.assign_rows_err, RetryStatement.call, RetryStatement.attempt_err;
    destruct (value (execute env _ k)) as [r e]; simpl; auto.
Qed.

(** C2: when the first attempt of a statement returns an error that is
    neither in the retriable class nor an in-flight delete marker,
    [retryExecuteStatement] returns that error and has made exactly one
    executor call, without any sleep: the only events it adds are the call
    and the final error log. *)
Theorem retryExecuteStatement_non_retryable_once
    (coord : Coordinator) (env : StmtEnv) (stmt : Statement) (w : World)
    (fuel : nat) (e : error) :
  0 < DMLTimeOutSecond coord ->
  RetryStatement.attempt_err env stmt 0 = Some e ->
  IsRetriedError coord e = false ->
  Contains (Error e) "repeat mark delete" = false ->
  exists rows,
    RetryStatement.retryExecuteStatement coord env (S fuel) stmt w
    = Done (rows, Some e)
        {| now := now w + Z.of_N (took (execute env stmt 0));
           trace := trace w ++ [EvCall 0; EvError (Some e)];
           sent := sent w |}.
Proof.
  intros Hbudget Herr Hclass Hmark.
  assert (Hs : stmt <> OtherStatement).
  { intros ->. discriminate Herr. }
  unfold RetryStatement.retryExecuteStatement. simpl.
  rewrite Since_start, (Seconds_lt_zero _ Hbudget).
  destruct (dispatch_err env stmt 0%nat [] None w Hs) as [H1 H2].
  destruct (RetryStatement.dispatch env stmt 0 [] None w) as [[rows1 err1] w2].
  simpl in H1, H2. subst err1 w2. rewrite Herr.
  unfold RetryStatement.retriable. rewrite Hclass, Hmark. simpl.
  exists rows1. f_equal. unfold record, advance. simpl.
  f_equal. rewrite <- app_assoc. reflexivity.
Qed.

(** ** [retryExecuteSelectStatement]: at most eight attempts, doubling back-off *)

Lemma backoff_duration (i : nat) :
  (i < 8)%nat ->
  int64 (retrySelectInterval * int64 (Z.shiftl 1 (Z.of_nat i)))
  = retrySelectInterval * 2 ^ Z.of_nat i.
Proof.
  intros H.
  do 8 (destruct i as [|i]; [reflexivity|]). lia.
Qed.

Lemma retryExecuteSelectStatement_loop_spec coord env :
  forall (remaining i : nat) (err : option error) (w : World),
    (1 <= remaining)%nat -> (i + remaining <= 8)%nat ->
    exists n : nat,
      (1 <= n <= remaining)%nat
      /\ (forall j, (i <= j < i + n - 1)%nat -> RetrySelect.retried coord env j = true)
      /\ ((n < remaining)%nat -> RetrySelect.retried coord env (i + n - 1) = false)
      /\ fst (RetrySelect.retryExecuteSelectStatement_loop coord env remaining i err w)
         = value (attempt env (i + n - 1))
      /\ trace (snd (RetrySelect.retryExecuteSelectStatement_loop coord env remaining i err w))
         = trace w ++ flat_map (RetrySelect.attempt_events coord env) (seq i n).
Proof.
  induction remaining as [|r IH]; intros i err w Hr Hi; [lia|].
  simpl.
  destruct (value (attempt env i)) as [e|] eqn:Hv.
  - destruct (IsRetryErrorForPtView coord e) eqn:Hc; simpl.
    + destruct r as [|r'].
      * exists 1%nat. simpl.
        replace (i + 1 - 1)%nat with i by lia.
        repeat split; try lia.
        -- symmetry; exact Hv.
        -- unfold RetrySelect.attempt_events, RetrySelect.retried.
           rewrite Hv, Hc, backoff_duration by lia. simpl.
           rewrite <- app_assoc. reflexivity.
      * destruct (IH (S i) (Some e)
                    (time_Sleep (int64 (retrySelectInterval * int64 (Z.shiftl 1 (Z.of_nat i))))
                       (attempt_oversleep env i)
                       (advance (took (attempt env i)) (record (EvCall i) w))))
          as (n & Hn & Hall & Hlast & Hres & Htr); [lia|lia|].
        exists (S n).
        replace (i + S n - 1)%nat with (S i + n - 1)%nat by lia.
        repeat split; try lia.
        -- intros j Hj. destruct (Nat.eq_dec j i) as [->|Hne].
           ++ unfold RetrySelect.retried. rewrite Hv. exact Hc.
           ++ apply Hall. lia.
        -- intros Hlt. apply Hlast. lia.
        -- exact Hres.
        -- rewrite Htr. simpl.
           unfold RetrySelect.attempt_events at 2, RetrySelect.retried.
           rewrite Hv, Hc, backoff_duration by lia. simpl.
           rewrite <- !app_assoc. reflexivity.
    + exists 1%nat. simpl.
      replace (i + 1 - 1)%nat with i by lia.
      repeat split; try lia.
      * intros _. unfold RetrySelect.retried. rewrite Hv. exact Hc.
      * symmetry; exact Hv.
      * unfold RetrySelect.attempt_events, RetrySelect.retried.
        rewrite Hv, Hc. simpl. reflexivity.
  - exists 1%nat. simpl.
    replace (i + 1 - 1)%nat with i by lia.
    repeat split; try lia.
    + intros _. unfold RetrySelect.retried. rewrite Hv. reflexivity.
    + symmetry; exact Hv.
    + unfold RetrySelect.attempt_events, RetrySelect.retried.
      rewrite Hv. simpl. reflexivity.
Qed.

(** C8: [retryExecuteSelectStatement] makes [n] calls of
    [executeSelectStatement] with [1 <= n <= 8 = maxRetrySelectCount];
    every attempt before the last failed with a retryable pt-view error;
    it stops before the eighth attempt only when the last attempt succeeded
    or failed with a non-retryable error; it returns what the last attempt
    returned; and its events are, per attempt [i], the call followed, when
    that attempt is retried, by a sleep of [retrySelectInterval * 2^i],
    with nothing after a success or a non-retryable error. *)
Theorem retryExecuteSelectStatement_backoff
    (coord : Coordinator) (env : SelectAttempts) (w : World) :
  exists n : nat,
    (1 <= n <= Z.to_nat maxRetrySelectCount)%nat
    /\ (forall j, (j < n - 1)%nat -> RetrySelect.retried coord env j = true)
    /\ ((n < Z.to_nat maxRetrySelectCount)%nat -> RetrySelect.retried coord env (n - 1) = false)
    /\ fst (RetrySelect.retryExecuteSelectStatement coord env w)
       = value (attempt env (n - 1))
    /\ trace (snd (RetrySelect.retryExecuteSelectStatement coord env w))
       = trace w ++ flat_map (RetrySelect.attempt_events coord env) (seq 0 n)
    /\ count_calls (flat_map (RetrySelect.attempt_events coord env) (seq 0 n)) = n.
Proof.
  destruct (retryExecuteSelectStatement_loop_spec coord env
              (Z.to_nat maxRetrySelectCount) 0 None w)
    as (n & Hn & Hall & Hlast & Hres & Htr).
  - vm_compute. lia.
  - vm_compute. lia.
  - exists n. simpl in *. repeat split; try lia; auto.
    + intros j Hj. apply Hall. lia.
    + clear. generalize 0%nat as i. induction n as [|n IH]; intros i; simpl; [reflexivity|].
      unfold RetrySelect.attempt_events at 1.
      destruct (RetrySelect.retried coord env i); simpl; rewrite IH; reflexivity.
Qed.

(** ** The retry loops terminate *)

Lemma now_record ev w : now (record ev w) = now w.
Proof. reflexivity. Qed.

Lemma now_advance d w : now (advance d w) = now w + Z.of_N d.
Proof. reflexivity. Qed.

Lemma now_time_Sleep d extra w : 0 <= d -> now w + d <= now (time_Sleep d extra w).
Proof. intros H. unfold time_Sleep. rewrite now_record, now_advance. lia. Qed.

Lemma now_dispatch env stmt k rows err w :
  now w <= now (snd (RetryStatement.dispatch env stmt k rows err w)).
Proof.
  destruct stmt;
    unfold RetryStatement.dispatch, RetryStatement.assign_err,
      RetryStatement.assign_rows_err, RetryStatement.call;
    try destruct (value (execute env _ k)) as [r e]; simpl; lia.
Qed.

Lemma uint32_nonneg (z : Z) : 0 <= uint32 z.
Proof. unfold uint32. apply Z.mod_pos_bound. lia. Qed.

(** One more pass through the loop lowers the bound. *)
Lemma iterations_bound_decreases coord startTime retryNum retryNum' w w' :
  0 < DMLRetryInternalMillisecond coord ->
  0 <= retryNum ->
  0 < RetryStatement.budget_left coord startTime w ->
  (if 0 <? retryNum
   then now w + DMLRetryInternalMillisecond coord * Millisecond <= now w'
   else now w <= now w' /\ retryNum' = 1) ->
  (RetryStatement.iterations_bound coord startTime retryNum' w'
   < RetryStatement.iterations_bound coord startTime retryNum w)%nat.
Proof.
  intros Hs Hrn Hleft Hstep.
  unfold RetryStatement.iterations_bound.
  unfold RetryStatement.budget_left, Since in *.
  set (s := DMLRetryInternalMillisecond coord * Millisecond) in *.
  assert (Hspos : 0 < s) by (unfold s, Millisecond; lia).
  set (B := DMLTimeOutSecond coord * Second) in *.
  destruct (Z.leb_spec (B - (now w - startTime)) 0) as [H0|H0]; [lia|].
  assert (Hq : 0 <= (B - (now w - startTime)) / s) by (apply Z.div_pos; lia).
  destruct (Z.leb_spec (B - (now w' - startTime)) 0) as [H1|H1].
  - destruct (retryNum =? 0); lia.
  - destruct (Z.ltb_spec 0 retryNum) as [Hpos|Hzero].
    + assert (Hdiv : (B - (now w' - startTime)) / s <= (B - (now w - startTime)) / s - 1).
      { replace ((B - (now w - startTime)) / s - 1)
          with ((B - (now w - startTime) + (-1) * s) / s).
        - apply Z.div_le_mono; lia.
        - rewrite Z.div_add by lia. lia. }
      assert (0 <= (B - (now w' - startTime)) / s) by (apply Z.div_pos; lia).
      destruct (retryNum' =? 0); destruct (retryNum =? 0); lia.
    + destruct Hstep as [Hle ->].
      assert (retryNum = 0) by lia. subst retryNum. simpl.
      assert (Hdiv : (B - (now w' - startTime)) / s <= (B - (now w - startTime)) / s)
        by (apply Z.div_le_mono; lia).
      assert (0 <= (B - (now w' - startTime)) / s) by (apply Z.div_pos; lia).
      lia.
Qed.

Lemma dispatch_attempt_err env stmt k rows w :
  snd (fst (RetryStatement.dispatch env stmt k rows (RetryStatement.last_err env stmt k) w))
  = RetryStatement.attempt_err env stmt k.
Proof.
  destruct (decide (stmt = OtherStatement)) as [->|Hs].
  - simpl. destruct k; reflexivity.
  - apply dispatch_err. exact Hs.
Qed.

(** With fuel above the bound, the loop of [retryExecuteStatement] returns;
    it made the attempts [k .. n] (or [k .. n-1] when the budget ran out),
    all but the last of them retried. *)
Lemma retryExecuteStatement_loop_exits coord env stmt :
  0 < DMLRetryInternalMillisecond coord ->
  forall (fuel : nat) (startTime retryNum : Z) (k : nat) (rows : Rows) (w : World),
    0 <= retryNum ->
    (RetryStatement.iterations_bound coord startTime retryNum w < fuel)%nat ->
    exists (n : nat) (rows' : Rows) (err' : option error) (w' : World),
      RetryStatement.retryExecuteStatement_loop coord env fuel stmt startTime
        retryNum k rows (RetryStatement.last_err env stmt k) w
      = Done (rows', err') w'
      /\ (k <= n)%nat
      /\ (forall j, (k <= j < n)%nat -> RetryStatement.retried coord env stmt j = true)
      /\ ((err' = RetryStatement.attempt_err env stmt n
           /\ RetryStatement.retried coord env stmt n = false)
          \/ (DMLTimeOutSecond coord * Second <= Since startTime w'
              /\ err' = RetryStatement.last_err env stmt n)).
Proof.
  intros Hs.
  induction fuel as [|fuel IH]; intros startTime retryNum k rows w Hrn Hfuel; [lia|].
  simpl.
  destruct (Seconds_lt (Since startTime w) (DMLTimeOutSecond coord)) eqn:Hlt.
  - apply Z.ltb_lt in Hlt.
    set (w1 := if 0 <? retryNum
               then time_Sleep (DMLRetryInternalMillisecond coord * Millisecond)
                      (stmt_oversleep env k) w
               else w).
    pose proof (dispatch_attempt_err env stmt k rows w1) as Herr.
    pose proof (now_dispatch env stmt k rows (RetryStatement.last_err env stmt k) w1) as Hnow.
    destruct (RetryStatement.dispatch env stmt k rows
                (RetryStatement.last_err env stmt k) w1) as [[rows1 err1] w2].
    simpl in Herr, Hnow. subst err1.
    destruct (RetryStatement.attempt_err env stmt k) as [e|] eqn:Hak.
    + destruct (RetryStatement.retriable coord e) eqn:Hre.
      * assert (Hdec : (RetryStatement.iterations_bound coord startTime (uint32 (retryNum + 1))
                          (record (EvWarn (uint32 (retryNum + 1)) e) w2)
                        < RetryStatement.iterations_bound coord startTime retryNum w)%nat).
        { apply iterations_bound_decreases; auto.
          - unfold RetryStatement.budget_left. lia.
          - rewrite now_record. subst w1.
            destruct (Z.ltb_spec 0 retryNum) as [Hp|Hz].
            + pose proof (now_time_Sleep (DMLRetryInternalMillisecond coord * Millisecond)
                            (stmt_oversleep env k) w) as Hsl.
              unfold Millisecond in *. lia.
            + split; [lia|]. assert (retryNum = 0) as -> by lia. reflexivity. }
        destruct (IH startTime (uint32 (retryNum + 1)) (S k) rows1
                    (record (EvWarn (uint32 (retryNum + 1)) e) w2))
          as (n & rows' & err' & w' & Hrun & Hkn & Hall & Hexit).
        { apply uint32_nonneg. }
        { lia. }
        simpl RetryStatement.last_err in Hrun. rewrite Hak in Hrun.
        exists n, rows', err', w'. repeat split; auto; try lia.
        intros j Hj. destruct (Nat.eq_dec j k) as [->|Hne].
        -- unfold RetryStatement.retried. rewrite Hak. exact Hre.
        -- apply Hall. lia.
      * exists k, rows1, (Some e), (record (EvError (Some e)) w2).
        repeat split; auto; try lia.
        left. split; [congruence|].
        unfold RetryStatement.retried. rewrite Hak. exact Hre.
    + exists k, rows1, None, w2. repeat split; auto; try lia.
      left. split; [congruence|].
      unfold RetryStatement.retried. rewrite Hak. reflexivity.
  - apply Z.ltb_ge in Hlt.
    exists k, rows, (RetryStatement.last_err env stmt k),
      (record (EvError (RetryStatement.last_err env stmt k)) w).
    split; [reflexivity|]. split; [lia|]. split; [intros j Hj; lia|].
    right. split; [|reflexivity]. unfold Since in *. rewrite now_record. lia.
Qed.

Lemma retryExecuteStatement_loop_fuel_mono coord env stmt :
  forall (fuel extra : nat) startTime retryNum k rows err w r w',
    RetryStatement.retryExecuteStatement_loop coord env fuel stmt startTime
      retryNum k rows err w = Done r w' ->
    RetryStatement.retryExecuteStatement_loop coord env (fuel + extra) stmt startTime
      retryNum k rows err w = Done r w'.
Proof.
  induction fuel as [|fuel IH]; intros extra startTime retryNum k rows err w r w' H;
    [discriminate|].
  simpl in *.
  destruct (Seconds_lt (Since startTime w) (DMLTimeOutSecond coord)); [|exact H].
  destruct (RetryStatement.dispatch env stmt k rows err _) as [[rows1 err1] w2].
  destruct err1 as [e|]; [|exact H].
  destruct (RetryStatement.retriable coord e); [|exact H].
  apply IH. exact H.
Qed.

Lemma now_createPipelineExecutor env k w a w' :
  Select.createPipelineExecutor env k w = Done a w' -> now w <= now w'.
Proof.
  unfold Select.createPipelineExecutor.
  destruct (value (executor_Select env k)) as [p e|v].
  - destruct e as [e|]; [|destruct p]; intros [= <- <-]; simpl; lia.
  - destruct (Select.isDtypeNotSupport v); [discriminate|].
    intros [= <- <-]. simpl. lia.
Qed.

Lemma createPipelineExecutor_err env k w pe err w' :
  Select.createPipelineExecutor env k w = Done (pe, err) w' ->
  err = Select.create_err env k /\ (err <> None -> pe = None).
Proof.
  unfold Select.createPipelineExecutor, Select.create_err.
  destruct (value (executor_Select env k)) as [p e|v].
  - destruct e as [e|]; [|destruct p]; intros [= <- <- <-]; split; congruence.
  - destruct (Select.isDtypeNotSupport v); [discriminate|].
    intros [= <- <- <-]. split; congruence.
Qed.

Lemma createPipelineExecutor_panics env k w v w' :
  Select.createPipelineExecutor env k w = Panic v w' ->
  value (executor_Select env k) = SelectPanics v /\ Select.create_err env k = None.
Proof.
  unfold Select.createPipelineExecutor, Select.create_err.
  destruct (value (executor_Select env k)) as [p e|v0].
  - destruct e as [e|]; [|destruct p]; discriminate.
  - destruct (Select.isDtypeNotSupport v0); [|discriminate].
    intros [= <- <-]. split; reflexivity.
Qed.

Lemma createPipelineExecutor_fuel env k w :
  Select.createPipelineExecutor env k w <> OutOfFuel.
Proof.
  unfold Select.createPipelineExecutor.
  destruct (value (executor_Select env k)) as [p e|v].
  - destruct e as [e|]; [|destruct p]; discriminate.
  - destruct (Select.isDtypeNotSupport v); discriminate.
Qed.

Lemma attempts_bound_decreases coord startTime w w' :
  0 < DMLRetryInternalMillisecond coord ->
  0 < Select.budget_left coord startTime w ->
  now w + DMLRetryInternalMillisecond coord * Millisecond <= now w' ->
  (Select.attempts_bound coord startTime w' < Select.attempts_bound coord startTime w)%nat.
Proof.
  intros Hs Hleft Hstep.
  unfold Select.attempts_bound, Select.budget_left, Since in *.
  set (s := DMLRetryInternalMillisecond coord * Millisecond) in *.
  assert (Hspos : 0 < s) by (unfold s, Millisecond; lia).
  set (B := DMLTimeOutSecond coord * Second) in *.
  destruct (Z.leb_spec (B - (now w - startTime)) 0) as [H0|H0]; [lia|].
  assert (Hq : 0 <= (B - (now w - startTime)) / s) by (apply Z.div_pos; lia).
  destruct (Z.leb_spec (B - (now w' - startTime)) 0) as [H1|H1]; [lia|].
  assert (Hdiv : (B - (now w' - startTime)) / s <= (B - (now w - startTime)) / s - 1).
  { replace ((B - (now w - startTime)) / s - 1)
      with ((B - (now w - startTime) + (-1) * s) / s).
    - apply Z.div_le_mono; lia.
    - rewrite Z.div_add by lia. lia. }
  assert (0 <= (B - (now w' - startTime)) / s) by (apply Z.div_pos; lia).
  lia.
Qed.

Lemma attempts_bound_pos coord startTime w :
  0 < DMLRetryInternalMillisecond coord ->
  (1 <= Select.attempts_bound coord startTime w)%nat.
Proof.
  intros Hs. unfold Select.attempts_bound.
  destruct (Z.leb_spec (Select.budget_left coord startTime w) 0); [lia|].
  assert (0 <= Select.budget_left coord startTime w
               / (DMLRetryInternalMillisecond coord * Millisecond))
    by (apply Z.div_pos; unfold Millisecond; lia).
  lia.
Qed.

(** With fuel at the bound, the loop of [retryCreatePipelineExecutor] ends;
    it made the attempts [k .. n], all but the last of them retried. *)
Lemma retryCreatePipelineExecutor_loop_exits coord env :
  0 < DMLRetryInternalMillisecond coord ->
  forall (fuel : nat) (startTime retryNum : Z) (k : nat) (w : World),
    (Select.attempts_bound coord startTime w <= fuel)%nat ->
    exists n : nat,
      (k <= n)%nat
      /\ (forall j, (k <= j < n)%nat -> Select.retried coord env j = true)
      /\ ((Select.retried coord env n = false
           /\ Select.exits_at env n
                (Select.retryCreatePipelineExecutor_loop coord env fuel startTime retryNum k w))
          \/ (exists e w',
                Select.retryCreatePipelineExecutor_loop coord env fuel startTime retryNum k w
                = Done (None, Some e) w'
                /\ Select.create_err env n = Some e
                /\ Select.retriable coord e = true
                /\ DMLTimeOutSecond coord * Second <= Since startTime w')).
Proof.
  intros Hs.
  induction fuel as [|fuel IH]; intros startTime retryNum k w Hfuel.
  { pose proof (attempts_bound_pos coord startTime w Hs). lia. }
  simpl.
  destruct (Select.createPipelineExecutor env k w) as [[pe err] w1|v w1|] eqn:Hc.
  - destruct (createPipelineExecutor_err _ _ _ _ _ _ Hc) as [Herr Hpe].
    pose proof (now_createPipelineExecutor _ _ _ _ _ Hc) as Hnow.
    destruct err as [e|].
    + destruct (Select.retriable coord e) eqn:Hre.
      * set (w2 := if retryNum mod 20 =? 0 then record (EvWarn retryNum e) w1 else w1).
        assert (Hnow2 : now w2 = now w1) by (subst w2; destruct (retryNum mod 20 =? 0); reflexivity).
        destruct (Seconds_lt (Since startTime w2) (DMLTimeOutSecond coord)) eqn:Hlt.
        -- apply Z.ltb_lt in Hlt.
           set (w3 := time_Sleep (DMLRetryInternalMillisecond coord * Millisecond)
                        (select_oversleep env k) w2).
           assert (Hdec : (Select.attempts_bound coord startTime w3
                           < Select.attempts_bound coord startTime w)%nat).
           { apply attempts_bound_decreases; auto.
             - unfold Select.budget_left, Since in *. lia.
             - subst w3.
               pose proof (now_time_Sleep (DMLRetryInternalMillisecond coord * Millisecond)
                             (select_oversleep env k) w2) as Hsl.
               unfold Millisecond in *. lia. }
           destruct (IH startTime (uint32 (retryNum + 1)) (S k) w3) as (n & Hkn & Hall & Hexit);
             [lia|].
           exists n. split; [lia|]. split; [|exact Hexit].
           intros j Hj. destruct (Nat.eq_dec j k) as [->|Hne].
           ++ unfold Select.retried. rewrite <- Herr. exact Hre.
           ++ apply Hall. lia.
        -- apply Z.ltb_ge in Hlt.
           exists k. split; [lia|]. split; [intros j Hj; lia|].
           right. exists e, w2. repeat split; auto.
      * exists k. split; [lia|]. split; [intros j Hj; lia|].
        left. split.
        -- unfold Select.retried. rewrite <- Herr. exact Hre.
        -- destruct (Contains (Error e) "declare empty collection") eqn:Hde;
             simpl; rewrite <- Herr, Hde; auto.
    + exists k. split; [lia|]. split; [intros j Hj; lia|].
      left. split.
      * unfold Select.retried. rewrite <- Herr. reflexivity.
      * simpl. rewrite <- Herr. reflexivity.
  - destruct (createPipelineExecutor_panics _ _ _ _ _ Hc) as [Hv Hnone].
    exists k. split; [lia|]. split; [intros j Hj; lia|].
    left. split.
    + unfold Select.retried. rewrite Hnone. reflexivity.
    + simpl. exact Hv.
  - exfalso. exact (createPipelineExecutor_fuel _ _ _ Hc).
Qed.

Lemma retryCreatePipelineExecutor_loop_fuel_mono coord env :
  forall (fuel extra : nat) startTime retryNum k w,
    Select.retryCreatePipelineExecutor_loop coord env fuel startTime retryNum k w
    <> OutOfFuel ->
    Select.retryCreatePipelineExecutor_loop coord env (fuel + extra) startTime retryNum k w
    = Select.retryCreatePipelineExecutor_loop coord env fuel startTime retryNum k w.
Proof.
  induction fuel as [|fuel IH]; intros extra startTime retryNum k w H;
    [exfalso; apply H; reflexivity|].
  simpl in *.
  destruct (Select.createPipelineExecutor env k w) as [[pe [e|]] w1|v w1|]; try reflexivity.
  destruct (Select.retriable coord e); [|reflexivity].
  destruct (Seconds_lt _ _); [|reflexivity].
  apply IH. exact H.
Qed.

(** C3: with a positive pause between attempts, both retry loops end.
    [retryExecuteStatement] returns for every fuel above a bound, after
    attempts [0 .. n] of which all but the last were retried: it stops on
    attempt [n] being a success or a non-retryable error and returns its
    error, or it stops because the budget [DMLTimeOutSecond] has elapsed
    and returns the last error.  [retryCreatePipelineExecutor] likewise
    ends (by returning, or by re-raising the panic of the construction) on
    the first attempt that is not retried, or returns the last error once
    the budget has elapsed. *)
Theorem retry_loops_terminate (coord : Coordinator) :
  0 < DMLRetryInternalMillisecond coord ->
  (forall (env : StmtEnv) (stmt : Statement) (w : World),
      exists (fuel0 n : nat) (rows : Rows) (err : option error) (w' : World),
        (forall fuel, (fuel0 <= fuel)%nat ->
           RetryStatement.retryExecuteStatement coord env fuel stmt w = Done (rows, err) w')
        /\ (forall j, (j < n)%nat -> RetryStatement.retried coord env stmt j = true)
        /\ ((err = RetryStatement.attempt_err env stmt n
             /\ RetryStatement.retried coord env stmt n = false)
            \/ (DMLTimeOutSecond coord * Second <= now w' - now w
                /\ err = RetryStatement.last_err env stmt n)))
  /\
  (forall (env : SelectEnv) (w : World),
      exists (fuel0 n : nat) (res : exec (option PipelineExecutor * option error)),
        (forall fuel, (fuel0 <= fuel)%nat ->
           Select.retryCreatePipelineExecutor coord env fuel w = res)
        /\ res <> OutOfFuel
        /\ (forall j, (j < n)%nat -> Select.retried coord env j = true)
        /\ ((Select.retried coord env n = false /\ Select.exits_at env n res)
            \/ (exists e w',
                  res = Done (None, Some e) w'
                  /\ Select.create_err env n = Some e
                  /\ Select.retriable coord e = true
                  /\ DMLTimeOutSecond coord * Second <= now w' - now w))).
Proof.
  intros Hs. split.
  - intros env stmt w.
    set (fuel0 := S (RetryStatement.iterations_bound coord (now w) 0 w)).
    destruct (retryExecuteStatement_loop_exits coord env stmt Hs fuel0 (now w) 0 0%nat [] w)
      as (n & rows & err & w' & Hrun & _ & Hall & Hexit); [lia|subst fuel0; lia|].
    exists fuel0, n, rows, err, w'. split; [|split].
    + intros fuel Hfuel.
      replace fuel with (fuel0 + (fuel - fuel0))%nat by lia.
      unfold RetryStatement.retryExecuteStatement.
      apply retryExecuteStatement_loop_fuel_mono. exact Hrun.
    + intros j Hj. apply Hall. lia.
    + exact Hexit.
  - intros env w.
    set (fuel0 := Select.attempts_bound coord (now w) w).
    destruct (retryCreatePipelineExecutor_loop_exits coord env Hs fuel0 (now w) 0 0%nat w)
      as (n & _ & Hall & Hexit); [lia|].
    set (res := Select.retryCreatePipelineExecutor_loop coord env fuel0 (now w) 0 0 w) in *.
    assert (Hres : res <> OutOfFuel).
    { destruct Hexit as [[_ Hat]|(e & w' & Heq & _)].
      - intros Heq. rewrite Heq in Hat. exact Hat.
      - rewrite Heq. discriminate. }
    exists fuel0, n, res. split; [|split; [exact Hres|split]].
    + intros fuel Hfuel.
      replace fuel with (fuel0 + (fuel - fuel0))%nat by lia.
      unfold Select.retryCreatePipelineExecutor.
      apply retryCreatePipelineExecutor_loop_fuel_mono. exact Hres.
    + intros j Hj. apply Hall. lia.
    + exact Hexit.
Qed.

(** ** [executeSelectStatement]: at least one result per SELECT *)

Lemma sent_record ev w : sent (record ev w) = sent w.
Proof. reflexivity. Qed.

Lemma sent_time_Sleep d extra w : sent (time_Sleep d extra w) = sent w.
Proof. reflexivity. Qed.

(** [ctx.Send] delivers the stamped result, or fails and delivers nothing. *)
Lemma Send_spec env r seq w :
  match Select.Send env r seq w with
  | (None, w') =>
      sent w' = sent w ++ [{| Series := Series r; Partial := Partial r; StatementID := seq |}]
      /\ now w' = now w /\ trace w' = trace w
  | (Some _, w') => w' = w
  end.
Proof.
  unfold Select.Send, ctx_Send.
  destruct (sink_refuses env (sent w) _); simpl; auto.
Qed.

Lemma sent_createPipelineExecutor env k w a w' :
  Select.createPipelineExecutor env k w = Done a w' -> sent w' = sent w.
Proof.
  unfold Select.createPipelineExecutor.
  destruct (value (executor_Select env k)) as [p e|v].
  - destruct e as [e|]; [|destruct p]; intros [= <- <-]; reflexivity.
  - destruct (Select.isDtypeNotSupport v); [discriminate|].
    intros [= <- <-]. reflexivity.
Qed.

Lemma sent_retryCreatePipelineExecutor_loop coord env :
  forall fuel startTime retryNum k w a w',
    Select.retryCreatePipelineExecutor_loop coord env fuel startTime retryNum k w = Done a w' ->
    sent w' = sent w.
Proof.
  induction fuel as [|fuel IH]; intros startTime retryNum k w a w' H; [discriminate|].
  simpl in H.
  destruct (Select.createPipelineExecutor env k w) as [[pe [e|]] w1|v w1|] eqn:Hc;
    try discriminate.
  - pose proof (sent_createPipelineExecutor _ _ _ _ _ Hc) as Hs1.
    destruct (Select.retriable coord e).
    + assert (Hs2 : sent (if retryNum mod 20 =? 0 then record (EvWarn retryNum e) w1 else w1)
                    = sent w1) by (destruct (retryNum mod 20 =? 0); reflexivity).
      destruct (Seconds_lt _ _).
      * apply IH in H. rewrite H, sent_time_Sleep, Hs2. exact Hs1.
      * injection H as <- <-. congruence.
    + destruct (Contains (Error e) "declare empty collection");
        injection H as <- <-; exact Hs1.
  - injection H as <- <-. exact (sent_createPipelineExecutor _ _ _ _ _ Hc).
Qed.

(** The receive loop only appends to the sink; it reports [emitted]
    exactly when it entered with it or delivered a batch; and it delivers
    nothing when it observes no batch. *)
Lemma receive_spec env seq :
  forall evs emitted w,
    exists rs,
      sent (snd (Select.receive env seq evs emitted w)) = sent w ++ rs
      /\ (forall b, fst (Select.receive env seq evs emitted w) = inr b ->
            b = emitted || negb (Nat.eqb (length rs) 0))
      /\ ((forall rc, ~ In (Recv rc) evs) -> rs = []).
Proof.
  induction evs as [|ev evs IH]; intros emitted w.
  - exists []. simpl. rewrite app_nil_r. repeat split; auto.
    intros b [= <-]. rewrite orb_false_r. reflexivity.
  - destruct ev as [rc|].
    + simpl.
      pose proof (Send_spec env
                    {| Series := rc_Rows rc; Partial := rc_Partial rc; StatementID := 0 |}
                    seq w) as Hsend.
      destruct (Select.Send env _ seq w) as [[e|] w1].
      * subst w1. exists []. simpl. rewrite app_nil_r. repeat split; auto.
        intros b Hb. discriminate Hb.
      * destruct Hsend as (Hsent & _ & _).
        destruct (IH true w1) as (rs & Hrs & Hem & Hno).
        exists ({| Series := rc_Rows rc; Partial := rc_Partial rc; StatementID := seq |} :: rs).
        split; [|split].
        -- rewrite Hrs, Hsent. simpl. rewrite <- app_assoc. reflexivity.
        -- intros b Hb. apply Hem in Hb. subst b. simpl. rewrite orb_true_r. reflexivity.
        -- intros Hnone. exfalso. apply (Hnone rc). left. reflexivity.
    + exists []. simpl. rewrite app_nil_r. repeat split; auto.
      intros b Hb. discriminate Hb.
Qed.

Lemma length_nonzero_cons {A} (l : list A) :
  negb (Nat.eqb (length l) 0) = true -> exists x l', l = x :: l'.
Proof. destruct l as [|x l']; [discriminate|]. eauto. Qed.

(** C1: an execution of [executeSelectStatement] that returns nil has
    sent at least one Result.  When the construction yields no plan (nil
    plan, or the empty-collection error) the function returns what
    [ctx.Send] of one empty Result returns: on nil exactly one empty
    Result was sent.  When the plan runs and the receive loop observes no
    row batch, a nil return means exactly one empty Result was sent. *)
Theorem executeSelectStatement_emits
    (coord : Coordinator) (env : SelectEnv) (fuel : nat) (seq : Z) (w : World) :
  let empty := {| Series := []; Partial := false; StatementID := seq |} in
  (forall w',
      Select.executeSelectStatement coord env fuel seq w = Done None w' ->
      exists r rs, sent w' = sent w ++ r :: rs)
  /\ (forall pe0 err0 w1,
         Select.retryCreatePipelineExecutor coord env fuel w = Done (pe0, err0) w1 ->
         (pe0 = None /\ err0 = None)
         \/ (exists e, err0 = Some e /\ ident e = IdDeclareEmptyCollection) ->
         exists r w',
           Select.executeSelectStatement coord env fuel seq w = Done r w'
           /\ match r with
              | None => sent w' = sent w ++ [empty]
              | Some _ => sent w' = sent w
              end)
  /\ (forall p w1 w',
         Select.retryCreatePipelineExecutor coord env fuel w = Done (Some p, None) w1 ->
         (forall rc, ~ In (Recv rc) (observed p)) ->
         Select.executeSelectStatement coord env fuel seq w = Done None w' ->
         sent w' = sent w ++ [empty]).
Proof.
  intros empty.
  assert (Hempty : forall w0,
             match Select.Send env Select.emptyResult seq w0 with
             | (None, w') => sent w' = sent w0 ++ [empty]
             | (Some _, w') => sent w' = sent w0
             end).
  { intros w0. pose proof (Send_spec env Select.emptyResult seq w0) as H.
    destruct (Select.Send env Select.emptyResult seq w0) as [[e|] w'].
    - subst w'. reflexivity.
    - destruct H as (H & _). exact H. }
  split; [|split].
  - intros w' Hrun. unfold Select.executeSelectStatement in Hrun.
    destruct (Select.retryCreatePipelineExecutor coord env fuel w)
      as [[pe0 err0] w1|v w1|] eqn:Hc; try discriminate.
    pose proof (sent_retryCreatePipelineExecutor_loop _ _ _ _ _ _ _ _ _ Hc) as Hs1.
    assert (Hnoplan : forall w2,
               (let '(r, w3) := Select.Send env Select.emptyResult seq w2 in Done r w3)
               = Done None w' -> sent w2 = sent w ->
               exists r rs, sent w' = sent w ++ r :: rs).
    { intros w2 H Hs2. specialize (Hempty w2).
      destruct (Select.Send env Select.emptyResult seq w2) as [[e|] w3]; [discriminate|].
      injection H as <-. exists empty, []. congruence. }
    assert (Hplan : forall p,
               match Select.receive env seq (observed p) false w1 with
               | (inl e, w2) => Done (Some e) w2
               | (inr emitted, w2) =>
                   match ExecuteExecutor p with
                   | Some e => Done (Some e) (record (EvError (Some e)) w2)
                   | None =>
                       if negb emitted
                       then let '(r, w3) := Select.Send env Select.emptyResult seq w2 in Done r w3
                       else Done None w2
                   end
               end = Done None w' ->
               exists r rs, sent w' = sent w ++ r :: rs).
    { intros p H.
      destruct (receive_spec env seq (observed p) false w1) as (rs & Hrs & Hem & _).
      destruct (Select.receive env seq (observed p) false w1) as [[e|emitted] w2];
        [discriminate|].
      simpl in Hrs, Hem.
      destruct (ExecuteExecutor p); [discriminate|].
      specialize (Hem emitted eq_refl). simpl in Hem.
      destruct emitted; simpl in H.
      - injection H as <-.
        destruct (length_nonzero_cons rs) as (x & l' & ->); [auto|].
        exists x, l'. congruence.
      - destruct rs; [|discriminate]. rewrite app_nil_r in Hrs.
        apply (Hnoplan w2 H). congruence. }
    destruct err0 as [e|].
    + destruct (errid_eqb (ident e) IdDeclareEmptyCollection); [|discriminate].
      apply (Hnoplan _ Hrun). rewrite sent_record. exact Hs1.
    + destruct pe0 as [p|].
      * apply (Hplan p Hrun).
      * apply (Hnoplan _ Hrun). rewrite sent_record. exact Hs1.
  - intros pe0 err0 w1 Hc Hno.
    pose proof (sent_retryCreatePipelineExecutor_loop _ _ _ _ _ _ _ _ _ Hc) as Hs1.
    unfold Select.executeSelectStatement. rewrite Hc.
    specialize (Hempty (record EvClose w1)). rewrite sent_record, Hs1 in Hempty.
    destruct Hno as [[-> ->]|(e & -> & Hid)].
    + destruct (Select.Send env Select.emptyResult seq (record EvClose w1)) as [r w2].
      exists r, w2. split; [reflexivity|]. destruct r; exact Hempty.
    + rewrite Hid. simpl.
      destruct (Select.Send env Select.emptyResult seq (record EvClose w1)) as [r w2].
      exists r, w2. split; [reflexivity|]. destruct r; exact Hempty.
  - intros p w1 w' Hc Hnone Hrun.
    pose proof (sent_retryCreatePipelineExecutor_loop _ _ _ _ _ _ _ _ _ Hc) as Hs1.
    unfold Select.executeSelectStatement in Hrun. rewrite Hc in Hrun.
    destruct (receive_spec env seq (observed p) false w1) as (rs & Hrs & Hem & Hno).
    specialize (Hno Hnone). subst rs. rewrite app_nil_r in Hrs.
    destruct (Select.receive env seq (observed p) false w1) as [[e|emitted] w2];
      [discriminate|].
    simpl in Hrs, Hem. specialize (Hem emitted eq_refl). simpl in Hem. subst emitted.
    destruct (ExecuteExecutor p); [discriminate|]. simpl in Hrun.
    specialize (Hempty w2).
    destruct (Select.Send env Select.emptyResult seq w2) as [[e|] w3]; [discriminate|].
    injection Hrun as <-. congruence.
Qed.

Example executeSelectStatement_nothingToPlan :
  Select.executeSelectStatement Scenario.coord Scenario.nothingToPlan 1 7 Scenario.start
  = Done None {| now := 0; trace := [EvCall 0; EvClose];
                 sent := [{| Series := []; Partial := false; StatementID := 7 |}] |}.
Proof. reflexivity. Qed.

Example executeSelectStatement_quietPlan :
  Select.executeSelectStatement Scenario.coord Scenario.quietPlan 3 7 Scenario.start
  = Done None
      {| now := 415000000;
         trace := [EvCall 0; EvWarn 0 Scenario.errTransient; EvSleep 200000000;
                   EvCall 1; EvSleep 200000000; EvCall 2];
         sent := [{| Series := []; Partial := false; StatementID := 7 |}] |}.
Proof. reflexivity. Qed.

(** A cancelled SELECT returns the context's error after what it had sent,
    and aborts the plan. *)
Example executeSelectStatement_cancelled :
  Select.executeSelectStatement Scenario.coord Scenario.cancelled 1 7 Scenario.start
  = Done (Some Scenario.errCanceled)
      {| now := 0; trace := [EvCall 0; EvInfo; EvAbort];
         sent := [{| Series := rc_Rows Scenario.batch; Partial := true; StatementID := 7 |}] |}.
Proof. reflexivity. Qed.

Lemma executeSelectStatement_emits_witness :
  exists r w',
    Select.executeSelectStatement Scenario.coord Scenario.nothingToPlan 1 7 Scenario.start
    = Done r w'
    /\ match r with
       | None => sent w' = sent Scenario.start
                           ++ [{| Series := []; Partial := false; StatementID := 7 |}]
       | Some _ => sent w' = sent Scenario.start
       end.
Proof.
  apply (proj1 (proj2 (executeSelectStatement_emits Scenario.coord Scenario.nothingToPlan
                         1 7 Scenario.start))
           None None {| now := 0; trace := [EvCall 0]; sent := [] |}).
  - reflexivity.
  - left. split; reflexivity.
Defined.

Lemma retryExecuteStatement_non_retryable_once_witness :
  exists rows,
    RetryStatement.retryExecuteStatement Scenario.coord Scenario.failing 1
      (DropDatabaseStatement "db0") Scenario.start
    = Done (rows, Some Scenario.errNotFound)
        {| now := now Scenario.start
                  + Z.of_N (took (execute Scenario.failing (DropDatabaseStatement "db0") 0));
           trace := trace Scenario.start ++ [EvCall 0; EvError (Some Scenario.errNotFound)];
           sent := sent Scenario.start |}.
Proof.
  apply (retryExecuteStatement_non_retryable_once Scenario.coord Scenario.failing
           (DropDatabaseStatement "db0") Scenario.start 0 Scenario.errNotFound);
    reflexivity.
Defined.

(** Transient errors for ten seconds each: three attempts fill the 30 s
    budget, and the last error comes back. *)
Example retryExecuteStatement_flapping :
  RetryStatement.retryExecuteStatement Scenario.coord Scenario.flapping 10
    ShowSeriesStatement Scenario.start
  = Done ([], Some Scenario.errTransient)
      {| now := 30400000000;
         trace := [EvCall 0; EvWarn 1 Scenario.errTransient;
                   EvSleep 200000000; EvCall 1; EvWarn 2 Scenario.errTransient;
                   EvSleep 200000000; EvCall 2; EvWarn 3 Scenario.errTransient;
                   EvError (Some Scenario.errTransient)];
         sent := [] |}.
Proof. reflexivity. Qed.

Lemma retry_loops_terminate_witness :
  0 < DMLRetryInternalMillisecond Scenario.coord
  /\ (exists (fuel0 n : nat) (rows : Rows) (err : option error) (w' : World),
        (forall fuel, (fuel0 <= fuel)%nat ->
           RetryStatement.retryExecuteStatement Scenario.coord Scenario.flapping fuel
             ShowSeriesStatement Scenario.start = Done (rows, err) w')
        /\ (forall j, (j < n)%nat ->
              RetryStatement.retried Scenario.coord Scenario.flapping ShowSeriesStatement j = true)
        /\ ((err = RetryStatement.attempt_err Scenario.flapping ShowSeriesStatement n
             /\ RetryStatement.retried Scenario.coord Scenario.flapping ShowSeriesStatement n = false)
            \/ (DMLTimeOutSecond Scenario.coord * Second <= now w' - now Scenario.start
                /\ err = RetryStatement.last_err Scenario.flapping ShowSeriesStatement n))).
Proof.
  split; [reflexivity|].
  apply (proj1 (retry_loops_terminate Scenario.coord eq_refl)
           Scenario.flapping ShowSeriesStatement Scenario.start).
Defined.

(** Eight pt-view failures: eight calls, pauses of 0.1 s doubling to 12.8 s. *)
Example retryExecuteSelectStatement_ptview :
  RetrySelect.retryExecuteSelectStatement Scenario.coord Scenario.ptview Scenario.start
  = (Some Scenario.errPtView,
     {| now := 25500000000;
        trace := [EvCall 0; EvSleep 100000000; EvCall 1; EvSleep 200000000;
                  EvCall 2; EvSleep 400000000; EvCall 3; EvSleep 800000000;
                  EvCall 4; EvSleep 1600000000; EvCall 5; EvSleep 3200000000;
                  EvCall 6; EvSleep 6400000000; EvCall 7; EvSleep 12800000000];
        sent := [] |}).
Proof. reflexivity. Qed.

(** ** Dropping what does not exist *)

(** C9: [executeDropDatabaseStatement] returns nil when
    [MarkDatabaseDelete] fails with an error that starts with
    "database not found"; [executeDropRetentionPolicyStatement] returns nil,
    leaving the metadata untouched, when [Database] yields no database
    and when the database has no retention policy of that name. *)
Theorem drop_nonexistent_is_success
    {Meta DatabaseInfo RetentionPolicyInfo : Type}
    (mc : MetaClient Meta DatabaseInfo RetentionPolicyInfo) (m : Meta) :
  (forall name err m',
      MarkDatabaseDelete mc name m = (Some err, m') ->
      HasPrefix (Error err) "database not found" = true ->
      fst (fst (Drop.executeDropDatabaseStatement mc name m)) = None)
  /\ (forall database name,
         fst (Database mc database m) = None ->
         Drop.executeDropRetentionPolicyStatement mc database name m = (None, m, [EvInfo]))
  /\ (forall database name dbi,
         fst (Database mc database m) = Some dbi ->
         RetentionPolicy mc dbi name = None ->
         Drop.executeDropRetentionPolicyStatement mc database name m = (None, m, [EvInfo])).
Proof.
  split; [|split].
  - intros name err m' Hmark Hprefix.
    unfold Drop.executeDropDatabaseStatement. rewrite Hmark, Hprefix. reflexivity.
  - intros database name Hdb.
    unfold Drop.executeDropRetentionPolicyStatement.
    destruct (Database mc database m) as [dbi e]. simpl in Hdb. subst dbi. reflexivity.
  - intros database name dbi Hdb Hrp.
    unfold Drop.executeDropRetentionPolicyStatement.
    destruct (Database mc database m) as [dbi' e]. simpl in Hdb. subst dbi'.
    rewrite Hrp. reflexivity.
Qed.

Lemma drop_nonexistent_is_success_witness :
  fst (fst (Drop.executeDropDatabaseStatement Scenario.metaClient "nodb" Scenario.catalog)) = None
  /\ Drop.executeDropRetentionPolicyStatement Scenario.metaClient "nodb" "autogen" Scenario.catalog
     = (None, Scenario.catalog, [EvInfo])
  /\ Drop.executeDropRetentionPolicyStatement Scenario.metaClient "db0" "norp" Scenario.catalog
     = (None, Scenario.catalog, [EvInfo]).
Proof.
  pose proof (drop_nonexistent_is_success Scenario.metaClient Scenario.catalog) as (H1 & H2 & H3).
  split; [|split].
  - apply (H1 "nodb" (mkError (IdErrno DatabaseNotFound) "database not found: nodb")
              Scenario.catalog); reflexivity.
  - apply H2. reflexivity.
  - apply (H3 "db0" "norp" ["autogen"]); reflexivity.
Defined.

(** A database that exists is marked deleted; another error is returned. *)
Example executeDropDatabaseStatement_existing :
  Drop.executeDropDatabaseStatement Scenario.metaClient "db0" Scenario.catalog
  = (None, [], [EvInfo]).
Proof. reflexivity. Qed.

(** ** SHOW SERIES with nothing to show *)

Lemma limitStringSlice_offset_past_end (s : list string) (offset limit : Z) :
  Z.of_nat (length s) <= offset -> limitStringSlice s offset limit = Some [].
Proof.
  intros H. unfold limitStringSlice.
  destruct (Z.geb_spec offset (Z.of_nat (length s))); [reflexivity|lia].
Qed.

Lemma limitStringSlice_no_limit (s : list string) (offset : Z) :
  0 <= offset < Z.of_nat (length s) ->
  limitStringSlice s offset 0 = Some (drop (Z.to_nat offset) s).
Proof.
  intros H. unfold limitStringSlice.
  destruct (Z.geb_spec offset (Z.of_nat (length s))); [lia|].
  simpl.
  destruct (Z.leb_spec 0 offset); [|lia].
  destruct (Z.leb_spec offset (Z.of_nat (length s))); [|lia].
  simpl. f_equal. apply take_ge. rewrite length_drop. lia.
Qed.

(** C10: when the measurements match without error, the fan-out returns
    nil and the sorted series trimmed by offset and limit are empty,
    [executeShowSeries] returns nil and the world, its sink included, is
    as before: no Result is sent. *)
Theorem executeShowSeries_empty_sends_nothing
    (env : SeriesEnv) (q : ShowSeriesQuery) (seq : Z) (w : World)
    (names : list string) (acc : SeriesAcc) :
  MatchMeasurements env (q_Database q) = (names, None) ->
  EachDBNodes env (q_Database q) (Series.callback env q names) (false, []) = (None, acc) ->
  limitStringSlice (sort_Strings (snd acc)) (q_Offset q) (q_Limit q) = Some [] ->
  Series.executeShowSeries env q seq w = Done None w.
Proof.
  intros Hmatch Hfan Hlimit.
  unfold Series.executeShowSeries. rewrite Hmatch, Hfan.
  destruct acc as [flag series0]. simpl in Hlimit. rewrite Hlimit. reflexivity.
Qed.

Lemma executeShowSeries_empty_sends_nothing_witness :
  Series.executeShowSeries Scenario.twoNodes
    {| q_Database := "db0"; q_Offset := 3; q_Limit := 10 |} 4 Scenario.start
  = Done None Scenario.start.
Proof.
  apply (executeShowSeries_empty_sends_nothing Scenario.twoNodes
           {| q_Database := "db0"; q_Offset := 3; q_Limit := 10 |} 4 Scenario.start
           ["cpu"] (false, ["cpu,host=b"; "cpu,host=a"; "cpu,host=c"]));
    vm_compute; reflexivity.
Defined.

(** With series left after the trim, one Result with one row goes out. *)
Example executeShowSeries_two_of_three :
  Series.executeShowSeries Scenario.twoNodes
    {| q_Database := "db0"; q_Offset := 1; q_Limit := 2 |} 4 Scenario.start
  = Done None
      {| now := 0; trace := [];
         sent := [{| Series := [{| Name := ""; Columns := ["key"];
                                   Values := [[VString "cpu,host=b"]; [VString "cpu,host=c"]] |}];
                     Partial := false; StatementID := 4 |}] |}.
Proof. vm_compute. reflexivity. Qed.

Example limitStringSlice_negative_offset_panics :
  limitStringSlice ["a"; "b"] (-1) 1 = None.
Proof. reflexivity. Qed.

(** ** SHOW QUERIES: the begin time of a combined entry *)

Lemma beginTime_updateBeginTime (q : combinedQueryExeInfo) (n : Z) :
  beginTime (updateBeginTime q n) = Z.min (beginTime q) n.
Proof.
  unfold updateBeginTime. destruct (Z.ltb_spec n (beginTime q)); simpl; lia.
Qed.

Lemma updateBeginTime_fields (q : combinedQueryExeInfo) (n : Z) :
  qid (updateBeginTime q n) = qid q /\ stmt (updateBeginTime q n) = stmt q.
Proof. unfold updateBeginTime. destruct (n <? beginTime q); auto. Qed.

Lemma updateHosts_fields (q : combinedQueryExeInfo) (h : string) (st : RunStateType) :
  qid (updateHosts q h st) = qid q
  /\ stmt (updateHosts q h st) = stmt q
  /\ beginTime (updateHosts q h st) = beginTime q.
Proof. destruct st; auto. Qed.

Lemma earliest_cons_some (r : QueryExeInfo) (cur : list QueryExeInfo) (b : Z) :
  earliest cur = Some b -> earliest (r :: cur) = Some (Z.min b (BeginTime r)).
Proof. intros H. simpl. rewrite H. f_equal. lia. Qed.

(** One report keeps every entry in step with the reports folded into it. *)
Lemma combineQueryExeInfo_stands_for (host : string)
    (dstMap : gmap Z combinedQueryExeInfo) (F : Z -> list QueryExeInfo)
    (info : QueryExeInfo) :
  (forall q, stands_for q (dstMap !! q) (F q)) ->
  forall q, stands_for q (combineQueryExeInfo host dstMap info !! q) (folded q (F q) info).
Proof.
  intros Hinv q. unfold folded.
  destruct (Z.eqb_spec (QueryID info) q) as [Heq|Hne]; simpl.
  - subst q. specialize (Hinv (QueryID info)).
    unfold combineQueryExeInfo.
    destruct (dstMap !! QueryID info) as [e|] eqn:Hlook; simpl in Hinv.
    + destruct Hinv as (Hq & Hne & Hearly & Hall).
      destruct (F (QueryID info)) as [|c cur] eqn:HF; [congruence|].
      pose proof Hearly as Hearly'. simpl in Hearly'. rewrite Hearly'. clear Hearly'.
      assert (Hc : Stmt c = stmt e) by (apply (Hall c); left; reflexivity).
      rewrite Hc.
      destruct (String.eqb_spec (stmt e) (Stmt info)) as [Hs|Hs].
      * rewrite lookup_insert_eq. simpl.
        destruct (updateHosts_fields (updateBeginTime e (BeginTime info)) host (RunState info))
          as (H1 & H2 & H3).
        destruct (updateBeginTime_fields e (BeginTime info)) as (H4 & H5).
        rewrite H1, H2, H3, H4, H5, beginTime_updateBeginTime.
        split; [exact Hq|]. split; [discriminate|]. split.
        -- exact (earliest_cons_some info (c :: cur) _ Hearly).
        -- intros r [<-|Hin]; [split; [reflexivity|congruence]|]. apply Hall. exact Hin.
      * destruct (Z.leb_spec (BeginTime info) (beginTime e)) as [Hle|Hgt].
        -- rewrite Hlook. simpl. repeat split; auto; try discriminate.
           ++ apply Hall; assumption.
           ++ apply Hall; assumption.
        -- rewrite lookup_insert_eq. simpl.
           destruct (updateHosts_fields
                       {| qid := QueryID info; stmt := Stmt info;
                          database := info_Database info; beginTime := BeginTime info;
                          runningHosts := ∅; killedHosts := ∅ |} host (RunState info))
             as (H1 & H2 & H3).
           rewrite H1, H2, H3. simpl.
           repeat split; auto; try discriminate;
             destruct H as [<-|[]]; reflexivity.
    + rewrite Hinv. simpl. rewrite lookup_insert_eq. simpl.
      destruct (updateHosts_fields
                  {| qid := QueryID info; stmt := Stmt info;
                     database := info_Database info; beginTime := BeginTime info;
                     runningHosts := ∅; killedHosts := ∅ |} host (RunState info))
        as (H1 & H2 & H3).
      rewrite H1, H2, H3. simpl.
      repeat split; auto; try discriminate;
        destruct H as [<-|[]]; reflexivity.
  - assert (Hsame : combineQueryExeInfo host dstMap info !! q = dstMap !! q).
    { unfold combineQueryExeInfo.
      destruct (dstMap !! QueryID info) as [e|].
      - destruct (String.eqb (stmt e) (Stmt info)).
        + apply lookup_insert_ne. exact Hne.
        + destruct (BeginTime info <=? beginTime e); [reflexivity|].
          apply lookup_insert_ne. exact Hne.
      - apply lookup_insert_ne. exact Hne. }
    rewrite Hsame. apply Hinv.
Qed.

Lemma combineQueryExeInfos_stands_for (host : string) (infos : list QueryExeInfo) :
  forall (dstMap : gmap Z combinedQueryExeInfo) (F : Z -> list QueryExeInfo),
    (forall q, stands_for q (dstMap !! q) (F q)) ->
    forall q, stands_for q (combineQueryExeInfos dstMap infos host !! q)
                (foldl (folded q) (F q) infos).
Proof.
  induction infos as [|info infos IH]; intros dstMap F Hinv q; simpl.
  - apply Hinv.
  - apply (IH (combineQueryExeInfo host dstMap info) (fun q => folded q (F q) info)).
    apply combineQueryExeInfo_stands_for. exact Hinv.
Qed.

Lemma combineAll_stands_for (nodes : list (string * list QueryExeInfo)) :
  forall (dstMap : gmap Z combinedQueryExeInfo) (F : Z -> list QueryExeInfo),
    (forall q, stands_for q (dstMap !! q) (F q)) ->
    forall q,
      stands_for q
        (foldl (fun resMap '(host, infos) => combineQueryExeInfos resMap infos host)
           dstMap nodes !! q)
        (foldl (folded q) (F q) (concat (map snd nodes))).
Proof.
  induction nodes as [|[host infos] nodes IH]; intros dstMap F Hinv q; simpl.
  - apply Hinv.
  - rewrite foldl_app.
    apply (IH (combineQueryExeInfos dstMap infos host)
              (fun q => foldl (folded q) (F q) infos)).
    apply combineQueryExeInfos_stands_for. exact Hinv.
Qed.

Lemma folded_In (q : Z) (r : QueryExeInfo) :
  forall (rs cur : list QueryExeInfo),
    In r (foldl (folded q) cur rs) -> In r cur \/ In r rs.
Proof.
  induction rs as [|r0 rs IH]; intros cur H; simpl in *; [auto|].
  apply IH in H. destruct H as [H|H]; [|auto].
  unfold folded in H.
  destruct (negb (QueryID r0 =? q)); [auto|].
  destruct cur as [|c cur']; [destruct H as [<-|[]]; auto|].
  destruct (earliest (c :: cur')); [|destruct H as [<-|[]]; auto].
  destruct (String.eqb (Stmt c) (Stmt r0)); [destruct H as [<-|H]; auto|].
  destruct (BeginTime r0 <=? z); [auto|destruct H as [<-|[]]; auto].
Qed.

Lemma earliest_nonempty (c : QueryExeInfo) (cur : list QueryExeInfo) :
  exists b, earliest (c :: cur) = Some b.
Proof. simpl. destruct (earliest cur); eauto. Qed.

Lemma folded_other (q : Z) (cur : list QueryExeInfo) (r0 : QueryExeInfo) :
  QueryID r0 <> q -> folded q cur r0 = cur.
Proof.
  intros H. unfold folded. destruct (Z.eqb_spec (QueryID r0) q); [contradiction|reflexivity].
Qed.

Lemma folded_same (q : Z) (cur : list QueryExeInfo) (r0 : QueryExeInfo) :
  QueryID r0 = q -> (forall r, In r cur -> Stmt r = Stmt r0) ->
  folded q cur r0 = r0 :: cur.
Proof.
  intros H Hcur. unfold folded.
  destruct (Z.eqb_spec (QueryID r0) q); [cbn [negb]|contradiction].
  destruct cur as [|c cur']; [reflexivity|].
  destruct (earliest_nonempty c cur') as [b ->].
  rewrite (Hcur c), String.eqb_refl by (left; reflexivity). reflexivity.
Qed.

(** Without a second statement text under the id, every report about it
    is folded in. *)
Lemma folded_one_statement (q : Z) (s : string) :
  forall (rs cur : list QueryExeInfo),
    (forall r, In r cur -> Stmt r = s) ->
    (forall r, In r rs -> QueryID r = q -> Stmt r = s) ->
    foldl (folded q) cur rs = rev (reportsOf q rs) ++ cur.
Proof.
  induction rs as [|r0 rs IH]; intros cur Hcur Hrs; [reflexivity|].
  change (foldl (folded q) cur (r0 :: rs)) with (foldl (folded q) (folded q cur r0) rs).
  unfold reportsOf. simpl List.filter. fold (reportsOf q rs).
  destruct (Z.eqb_spec (QueryID r0) q) as [Heq|Hne].
  - assert (Hs0 : Stmt r0 = s) by (apply Hrs; [left; reflexivity|exact Heq]).
    rewrite folded_same; [|exact Heq|intros r Hr; rewrite Hs0; apply Hcur; exact Hr].
    rewrite IH.
    + simpl. rewrite <- app_assoc. reflexivity.
    + intros r [<-|H]; auto.
    + intros r H. apply Hrs. right. exact H.
  - rewrite folded_other by exact Hne.
    apply IH; [exact Hcur|]. intros r H. apply Hrs. right. exact H.
Qed.

(** C6: for every query id, the begin time of its combined entry is the
    earliest begin time of the reports folded into that entry (and there
    is no entry exactly when nothing was folded); the folded reports are
    reports of that id with the entry's statement text, taken from the
    nodes' reports; when the id was reported with one statement text only,
    they are all the reports of the id; and [updateBeginTime] never
    increases the begin time. *)
Theorem combined_beginTime_is_earliest
    (nodes : list (string * list QueryExeInfo)) (q : Z) :
  beginTime <$> (combineAll nodes !! q) = earliest (foldedInto q nodes)
  /\ (forall e, combineAll nodes !! q = Some e ->
        qid e = q
        /\ forall r, In r (foldedInto q nodes) -> QueryID r = q /\ Stmt r = stmt e)
  /\ (forall r, In r (foldedInto q nodes) -> In r (concat (map snd nodes)))
  /\ (forall s,
        (forall r, In r (concat (map snd nodes)) -> QueryID r = q -> Stmt r = s) ->
        foldedInto q nodes = rev (reportsOf q (concat (map snd nodes))))
  /\ (forall e n,
        beginTime (updateBeginTime e n) = Z.min (beginTime e) n
        /\ beginTime (updateBeginTime e n) <= beginTime e).
Proof.
  assert (Hinv : stands_for q (combineAll nodes !! q) (foldedInto q nodes)).
  { apply (combineAll_stands_for nodes ∅ (fun _ => [])). intros q'. reflexivity. }
  split; [|split; [|split; [|split]]].
  - destruct (combineAll nodes !! q) as [e|]; unfold stands_for in Hinv.
    + destruct Hinv as (_ & _ & H & _). symmetry. exact H.
    + rewrite Hinv. reflexivity.
  - intros e He. rewrite He in Hinv. destruct Hinv as (H1 & _ & _ & H4). auto.
  - intros r Hr. unfold foldedInto in Hr. apply folded_In in Hr.
    destruct Hr as [[]|Hr]. exact Hr.
  - intros s Hs. unfold foldedInto.
    rewrite (folded_one_statement q s); [apply app_nil_r| |exact Hs].
    intros r [].
  - intros e n. rewrite beginTime_updateBeginTime. lia.
Qed.

(** ** SHOW QUERIES: the output rows *)

#[local] Instance notAfter_total : Total Queries.notAfter.
Proof. intros a b. unfold Queries.notAfter. lia. Qed.

#[local] Instance notAfter_trans : Transitive Queries.notAfter.
Proof. intros a b c. unfold Queries.notAfter. lia. Qed.

Lemma getCombinedRunState_spec (cmb : combinedQueryExeInfo) :
  match getCombinedRunState cmb with
  | allKilled => runningHosts cmb = ∅
  | partiallyKilled => runningHosts cmb <> ∅ /\ killedHosts cmb <> ∅
  | allRunning => runningHosts cmb <> ∅ /\ killedHosts cmb = ∅
  end.
Proof.
  unfold getCombinedRunState.
  destruct (Nat.eqb_spec (size (runningHosts cmb)) 0) as [H0|H0].
  - apply size_empty_iff in H0. apply leibniz_equiv. exact H0.
  - assert (Hr : runningHosts cmb <> ∅).
    { intros Heq. apply H0. rewrite Heq. apply size_empty. }
    destruct (Nat.ltb_spec 0 (size (killedHosts cmb))) as [H1|H1].
    + split; [exact Hr|]. intros Heq. rewrite Heq, size_empty in H1. lia.
    + split; [exact Hr|]. apply leibniz_equiv, size_empty_iff. lia.
Qed.

Lemma appendRows_rowsOfQuery env (values : list (list Value)) (cmb : combinedQueryExeInfo) :
  exists rs, Queries.appendRows env values cmb = values ++ rs
             /\ Queries.rowsOfQuery env cmb rs.
Proof.
  unfold Queries.appendRows, Queries.rowsOfQuery.
  pose proof (getCombinedRunState_spec cmb) as Hst.
  destruct (getCombinedRunState cmb).
  - destruct Hst as [Hr Hk].
    exists [Queries.toOutputRow env (length values) cmb false].
    split; [reflexivity|]. repeat split; try congruence. eauto.
  - destruct Hst as [Hr Hk].
    exists [Queries.toOutputRow env (length values) cmb true;
            Queries.toOutputRow env (S (length values)) cmb false].
    split.
    + rewrite <- app_assoc, length_app. simpl.
      replace (length values + 1)%nat with (S (length values)) by lia. reflexivity.
    + repeat split; try congruence. eauto.
  - exists []. split; [symmetry; apply app_nil_r|].
    repeat split; congruence.
Qed.

Lemma foldl_appendRows env (l : list combinedQueryExeInfo) :
  forall values,
    exists groups,
      foldl (Queries.appendRows env) values l = values ++ concat groups
      /\ Forall2 (Queries.rowsOfQuery env) l groups.
Proof.
  induction l as [|cmb l IH]; intros values; simpl.
  - exists []. split; [symmetry; apply app_nil_r|constructor].
  - destruct (appendRows_rowsOfQuery env values cmb) as (rs & -> & Hrs).
    destruct (IH (values ++ rs)) as (groups & -> & Hall).
    exists (rs :: groups). split.
    + simpl. rewrite <- app_assoc. reflexivity.
    + constructor; assumption.
Qed.

(** C5: the combined queries are put in ascending order of begin time
    (a sorted permutation of the entries of the map); the output is the
    concatenation of what each contributes in that order: nothing when no
    host runs it, a "killed" row with the killed hosts followed by a
    "running" row with the running hosts when it has both, and one
    "running" row when some host runs it and none has killed it. *)
Theorem executeShowQueriesStatement_rows
    (env : QueriesEnv) (nodes : list (Z * string)) :
  DataNodes env = (nodes, None) ->
  let resMap := combineAll (Queries.infosOnAllStore env nodes) in
  let sortedResult := Queries.sortCombined resMap in
  Sorted Queries.notAfter sortedResult
  /\ sortedResult ≡ₚ (snd <$> map_to_list resMap)
  /\ (exists groups,
        Queries.executeShowQueriesStatement env
        = ([{| Name := "";
               Columns := ["qid"; "query"; "database"; "duration"; "status"; "host"];
               Values := concat groups |}], None)
        /\ Forall2 (Queries.rowsOfQuery env) sortedResult groups)
  /\ (forall n cmb,
        Queries.statusAndHosts (Queries.toOutputRow env n cmb true)
        = [VString "killed"; VString (Join (elements (killedHosts cmb)))]
        /\ Queries.statusAndHosts (Queries.toOutputRow env n cmb false)
           = [VString "running"; VString (Join (elements (runningHosts cmb)))]).
Proof.
  intros Hnodes resMap sortedResult.
  split; [|split; [|split]].
  - apply Sorted_merge_sort. apply _.
  - apply merge_sort_Permutation.
  - destruct (foldl_appendRows env sortedResult []) as (groups & Hfold & Hall).
    exists groups. split; [|exact Hall].
    unfold Queries.executeShowQueriesStatement. rewrite Hnodes.
    fold resMap. fold sortedResult. rewrite Hfold. reflexivity.
  - intros n cmb. split; reflexivity.
Qed.

Lemma executeShowQueriesStatement_rows_witness :
  Sorted Queries.notAfter
    (Queries.sortCombined
       (combineAll (Queries.infosOnAllStore Scenario.threeStores [(1, "A"); (2, "B"); (3, "C")])))
  /\ exists groups,
       Queries.executeShowQueriesStatement Scenario.threeStores
       = ([{| Name := "";
              Columns := ["qid"; "query"; "database"; "duration"; "status"; "host"];
              Values := concat groups |}], None).
Proof.
  destruct (executeShowQueriesStatement_rows Scenario.threeStores
              [(1, "A"); (2, "B"); (3, "C")] eq_refl)
    as (Hsorted & _ & (groups & Hrun & _) & _).
  split; [exact Hsorted|]. exists groups. exact Hrun.
Defined.

(** ** Merging measurement names: sorted, deduplicated, order-independent *)

Lemma String_le_neq_Less (a b : string) :
  String.le a b -> a <> b -> ByteStringSlice_Less a b = true.
Proof.
  unfold String.le, String.leb, ByteStringSlice_Less.
  destruct (String.compare a b) eqn:Hc; intros Hle Hne.
  - apply String.compare_eq_iff in Hc. contradiction.
  - reflexivity.
  - destruct Hle.
Qed.

Lemma Sorted_le_NoDup_Less (l : list string) :
  Sorted String.le l -> NoDup l ->
  Sorted (fun a b => ByteStringSlice_Less a b = true) l.
Proof.
  induction l as [|a l IH]; intros Hs Hn; [constructor|].
  apply Sorted_inv in Hs. destruct Hs as [Hs Hhd].
  apply NoDup_cons in Hn. destruct Hn as [Ha Hn].
  constructor; [apply IH; assumption|].
  destruct Hhd as [|b l' Hab]; constructor.
  apply String_le_neq_Less; [exact Hab|].
  intros ->. apply Ha. left.
Qed.

Section MergeFacts.
Variable json_Unmarshal : string -> list string + error.

Abbreviation collectNames := (Merge.collectNames json_Unmarshal).
Abbreviation namesOf := (Merge.namesOf json_Unmarshal).
Abbreviation reported := (Merge.reported json_Unmarshal).
Abbreviation decodable := (Merge.decodable json_Unmarshal).
Abbreviation MergeMeasurementsNames := (Merge.MergeMeasurementsNames json_Unmarshal).

Lemma In_uniqueSorted (names : list string) (x : string) :
  In x (Merge.uniqueSorted names) <-> In x names.
Proof.
  unfold Merge.uniqueSorted.
  rewrite <- !list_elem_of_In, merge_sort_Permutation, elem_of_elements, elem_of_list_to_set.
  reflexivity.
Qed.

Lemma uniqueSorted_NoDup (names : list string) : NoDup (Merge.uniqueSorted names).
Proof.
  unfold Merge.uniqueSorted. rewrite merge_sort_Permutation. apply NoDup_elements.
Qed.

Lemma uniqueSorted_Sorted (names : list string) :
  Sorted (fun a b => ByteStringSlice_Less a b = true) (Merge.uniqueSorted names).
Proof.
  apply Sorted_le_NoDup_Less; [|apply uniqueSorted_NoDup].
  apply Sorted_merge_sort. apply _.
Qed.

(** The output depends on the set of names only. *)
Lemma uniqueSorted_ext (names1 names2 : list string) :
  (forall x, In x names1 <-> In x names2) ->
  Merge.uniqueSorted names1 = Merge.uniqueSorted names2.
Proof.
  intros H. unfold Merge.uniqueSorted. f_equal. f_equal.
  apply set_eq. intros x. rewrite !elem_of_list_to_set, !list_elem_of_In. apply H.
Qed.

(** Whatever order the keys of the set come in, sorting gives the same. *)
Lemma uniqueSorted_any_key_order (names ks : list string) :
  ks ≡ₚ elements (list_to_set names : gset string) ->
  merge_sort String.le ks = Merge.uniqueSorted names.
Proof.
  intros Hp. unfold Merge.uniqueSorted.
  apply (Sorted_unique String.le).
  - apply Sorted_merge_sort. apply _.
  - apply Sorted_merge_sort. apply _.
  - rewrite !merge_sort_Permutation. exact Hp.
Qed.

Lemma collectNames_decodable (msgs : list (Z * ExecuteStatementMessage)) :
  forall acc,
    decodable msgs ->
    exists ns, collectNames msgs acc = inr ns
               /\ forall x, In x ns <-> In x acc \/ reported msgs x.
Proof.
  induction msgs as [|[id msg] msgs IH]; intros acc Hdec.
  - exists acc. split; [reflexivity|]. intros x. split; [auto|].
    intros [H|(i & m & n & [] & _)]. exact H.
  - assert (Hdec' : decodable msgs).
    { intros i m Hin. apply (Hdec i m). right. exact Hin. }
    assert (Hmsg : namesOf msg <> None) by (apply (Hdec id msg); left; reflexivity).
    simpl. unfold Merge.namesOf in Hmsg.
    assert (Hrep : forall names, namesOf msg = Some names ->
              forall x, (In x names \/ reported msgs x) <-> reported ((id, msg) :: msgs) x).
    { intros names Hn x. split.
      - intros [H|(i & m & n & Hin & Hm & Hx)].
        + exists id, msg, names. split; [left; reflexivity|auto].
        + exists i, m, n. split; [right; exact Hin|auto].
      - intros (i & m & n & [Heq|Hin] & Hm & Hx).
        + injection Heq as <- <-. rewrite Hn in Hm. injection Hm as <-. auto.
        + right. exists i, m, n. auto. }
    unfold Merge.namesOf in Hrep.
    destruct (String.length (msg_Result msg) =? 0)%nat.
    + destruct (IH acc Hdec') as (ns & -> & Hns). exists ns. split; [reflexivity|].
      intros x. rewrite Hns, <- (Hrep [] eq_refl x). simpl. tauto.
    + destruct (json_Unmarshal (msg_Result msg)) as [names|err]; [|congruence].
      destruct (IH (if (0 <? length names)%nat then acc ++ names else acc) Hdec')
        as (ns & -> & Hns).
      exists ns. split; [reflexivity|].
      intros x. rewrite Hns, <- (Hrep names eq_refl x).
      destruct names as [|n0 names]; simpl; [tauto|].
      rewrite in_app_iff. simpl. tauto.
Qed.

Lemma decodable_Permutation (msgs1 msgs2 : list (Z * ExecuteStatementMessage)) :
  msgs1 ≡ₚ msgs2 -> decodable msgs1 -> decodable msgs2.
Proof.
  intros Hp Hdec id msg Hin. apply (Hdec id msg).
  apply (Permutation_in _ (Permutation_sym Hp)). exact Hin.
Qed.

Lemma reported_Permutation (msgs1 msgs2 : list (Z * ExecuteStatementMessage)) (x : string) :
  msgs1 ≡ₚ msgs2 -> reported msgs1 x -> reported msgs2 x.
Proof.
  intros Hp (id & msg & names & Hin & Hm & Hx).
  exists id, msg, names. split; [|auto].
  apply (Permutation_in _ Hp). exact Hin.
Qed.

Lemma MergeMeasurementsNames_ext (msgs1 msgs2 : list (Z * ExecuteStatementMessage)) :
  decodable msgs1 -> decodable msgs2 ->
  (forall x, reported msgs1 x <-> reported msgs2 x) ->
  MergeMeasurementsNames msgs1 = MergeMeasurementsNames msgs2.
Proof.
  intros H1 H2 Hrep. unfold Merge.MergeMeasurementsNames.
  destruct (collectNames_decodable msgs1 [] H1) as (ns1 & -> & Hns1).
  destruct (collectNames_decodable msgs2 [] H2) as (ns2 & -> & Hns2).
  f_equal. apply uniqueSorted_ext. intros x.
  rewrite Hns1, Hns2, Hrep. reflexivity.
Qed.

(** C7: when every node's message decodes, [MergeMeasurementsNames]
    returns no error and the names reported by the nodes, each once, in
    strictly ascending byte order.  The result is the same for the
    messages in another order, for any other messages reporting the same
    names, and for the messages taken twice; merging a merged list
    changes nothing, and neither does the order in which the keys of the
    set are visited. *)
Theorem MergeMeasurementsNames_sorted_union :
  (forall msgs,
      decodable msgs ->
      exists out,
        MergeMeasurementsNames msgs = (None, out)
        /\ Sorted (fun a b => ByteStringSlice_Less a b = true) out
        /\ NoDup out
        /\ forall x, In x out <-> reported msgs x)
  /\ (forall msgs1 msgs2,
         msgs1 ≡ₚ msgs2 -> decodable msgs1 ->
         MergeMeasurementsNames msgs1 = MergeMeasurementsNames msgs2)
  /\ (forall msgs1 msgs2,
         decodable msgs1 -> decodable msgs2 ->
         (forall x, reported msgs1 x <-> reported msgs2 x) ->
         MergeMeasurementsNames msgs1 = MergeMeasurementsNames msgs2)
  /\ (forall msgs,
         decodable msgs ->
         MergeMeasurementsNames (msgs ++ msgs) = MergeMeasurementsNames msgs)
  /\ (forall names1 names2,
         Merge.uniqueSorted (names1 ++ names2) = Merge.uniqueSorted (names2 ++ names1)
         /\ Merge.uniqueSorted (names1 ++ names1) = Merge.uniqueSorted names1
         /\ Merge.uniqueSorted (Merge.uniqueSorted names1) = Merge.uniqueSorted names1)
  /\ (forall names ks,
         ks ≡ₚ elements (list_to_set names : gset string) ->
         merge_sort String.le ks = Merge.uniqueSorted names).
Proof.
  split; [|split; [|split; [|split; [|split]]]].
  - intros msgs Hdec. unfold Merge.MergeMeasurementsNames.
    destruct (collectNames_decodable msgs [] Hdec) as (ns & -> & Hns).
    exists (Merge.uniqueSorted ns). split; [reflexivity|].
    split; [apply uniqueSorted_Sorted|]. split; [apply uniqueSorted_NoDup|].
    intros x. rewrite In_uniqueSorted, Hns. simpl. tauto.
  - intros msgs1 msgs2 Hp Hdec. apply MergeMeasurementsNames_ext.
    + exact Hdec.
    + apply (decodable_Permutation msgs1); assumption.
    + intros x. split; apply reported_Permutation; [exact Hp|symmetry; exact Hp].
  - apply MergeMeasurementsNames_ext.
  - intros msgs Hdec. apply MergeMeasurementsNames_ext.
    + intros id msg Hin. apply in_app_iff in Hin. apply (Hdec id msg). tauto.
    + exact Hdec.
    + intros x. split.
      * intros (id & msg & names & Hin & Hm & Hx). exists id, msg, names.
        apply in_app_iff in Hin. split; [tauto|auto].
      * intros (id & msg & names & Hin & Hm & Hx). exists id, msg, names.
        split; [apply in_app_iff; auto|auto].
  - intros names1 names2. split; [|split]; apply uniqueSorted_ext; intros x.
    + rewrite !in_app_iff. tauto.
    + rewrite in_app_iff. tauto.
    + apply In_uniqueSorted.
  - intros names ks. apply uniqueSorted_any_key_order.
Qed.

End MergeFacts.

(** ** KILL QUERY *)

(** Goroutines that run one after the other give the answers as specified. *)
Example executeKillQuery_unknown_serial :
  Kill.executeKillQuery Scenario.unknownEverywhere (mkKillQueryStatement 7 "") []
  = Some (mkError (IdErrno ErrQueryNotFound) "query not found").
Proof. reflexivity. Qed.

Example executeKillQuery_killed_serial :
  Kill.executeKillQuery Scenario.killedOnFirst (mkKillQueryStatement 7 "") [] = None.
Proof. reflexivity. Qed.

(** C4: the goroutines of [executeKillQuery] share [notFoundCount] and
    [err] without a lock, and the answer depends on how their steps
    interleave.  With two data nodes that both report "query not found",
    a schedule in which both goroutines load [notFoundCount] before either
    stores it loses one increment, and the function returns nil instead
    of the not-found error.  With node 1 acknowledging the kill and node 2
    reporting "query not found", a schedule in which goroutine 1
    overwrites [err] before goroutine 0 tests it makes both count, and the
    function returns the not-found error instead of nil. *)
Theorem executeKillQuery_races :
  (forall node, In node (fst (kill_DataNodes Scenario.unknownEverywhere)) ->
      Kill.reportsNotFound Scenario.unknownEverywhere 7 node = true)
  /\ Kill.executeKillQuery Scenario.unknownEverywhere (mkKillQueryStatement 7 "")
       [0; 0; 0; 1; 1; 1; 0; 1; 0; 1]%nat
     = None
  /\ KillQueryOnNode Scenario.killedOnFirst 1 7 = None
  /\ Kill.executeKillQuery Scenario.killedOnFirst (mkKillQueryStatement 7 "")
       [0; 1; 0; 0; 0; 0; 1; 1; 1; 1]%nat
     = Some (mkError (IdErrno ErrQueryNotFound) "query not found").
Proof.
  split; [|split; [|split]]; reflexivity.
Qed.

Section KillFacts.
Variable env : KillEnv.
Variable queryID : Z.

Lemma run_app (s1 s2 : list nat) :
  forall gs sh,
    Kill.run env queryID (s1 ++ s2) gs sh
    = Kill.run env queryID s2 (fst (Kill.run env queryID s1 gs sh))
        (snd (Kill.run env queryID s1 gs sh)).
Proof.
  induction s1 as [|i s1 IH]; intros gs sh; simpl; [reflexivity|].
  destruct (Kill.stepAt env queryID i gs sh) as [gs' sh']. apply IH.
Qed.

Lemma steps_succ (node : Z) (k : nat) (p : KillPc) (sh : KillShared) :
  Kill.steps env queryID node (S k) (p, sh)
  = Kill.steps env queryID node k (Kill.step env queryID node p sh).
Proof. unfold Kill.steps. rewrite Nat.iter_succ_r. reflexivity. Qed.

Lemma run_replicate (i : nat) (node : Z) :
  forall (k : nat) (gs : list (Z * KillPc)) (sh : KillShared) (p : KillPc),
    gs !! i = Some (node, p) ->
    Kill.run env queryID (replicate k i) gs sh
    = (<[i := (node, fst (Kill.steps env queryID node k (p, sh)))]> gs,
       snd (Kill.steps env queryID node k (p, sh))).
Proof.
  induction k as [|k IH]; intros gs sh p Hlook.
  - simpl. rewrite list_insert_id by exact Hlook. reflexivity.
  - rewrite steps_succ. simpl. unfold Kill.stepAt. rewrite Hlook.
    destruct (Kill.step env queryID node p sh) as [p' sh'].
    rewrite (IH _ sh' p').
    + rewrite list_insert_insert_eq. reflexivity.
    + apply list_lookup_insert_eq. apply lookup_lt_Some in Hlook. exact Hlook.
Qed.

Lemma steps_whole_start (node : Z) (sh : KillShared) :
  Kill.steps env queryID node 5 (AtCall, sh)
  = (Finished,
     {| shared_err := KillQueryOnNode env node queryID;
        notFoundCount := notFoundCount sh
                         + (if Kill.reportsNotFound env queryID node then 1 else 0) |}).
Proof.
  unfold Kill.steps, Kill.reportsNotFound. simpl.
  destruct (KillQueryOnNode env node queryID) as [e|]; simpl.
  - destruct (isQueryNotFound e); simpl; [reflexivity|].
    rewrite Z.add_0_r. reflexivity.
  - rewrite Z.add_0_r. reflexivity.
Qed.

Lemma steps_finished (node : Z) (k : nat) (sh : KillShared) :
  Kill.steps env queryID node k (Finished, sh) = (Finished, sh).
Proof.
  induction k as [|k IH]; [reflexivity|]. rewrite steps_succ. exact IH.
Qed.

Lemma countDone_insert (gs : list (Z * KillPc)) :
  forall (i : nat) (node : Z),
    gs !! i = Some (node, AtCall) ->
    Kill.countDone env queryID (<[i := (node, Finished)]> gs)
    = Kill.countDone env queryID gs
      + (if Kill.reportsNotFound env queryID node then 1 else 0).
Proof.
  induction gs as [|[n0 p0] gs IH]; intros i node Hlook; [discriminate|].
  destruct i as [|i]; simpl in *.
  - injection Hlook as -> ->. lia.
  - specialize (IH i node Hlook). destruct p0; simpl; lia.
Qed.

(** A whole run of goroutine [i] keeps the state [between] runs, leaves
    the nodes and the finished goroutines as they are, and finishes [i]. *)
Lemma run_whole (i : nat) (gs : list (Z * KillPc)) (sh : KillShared) :
  Kill.between env queryID gs sh ->
  Kill.between env queryID
    (fst (Kill.run env queryID (Kill.whole i) gs sh))
    (snd (Kill.run env queryID (Kill.whole i) gs sh))
  /\ (fst (Kill.run env queryID (Kill.whole i) gs sh)).*1 = gs.*1
  /\ (forall j, Kill.finished j gs ->
        Kill.finished j (fst (Kill.run env queryID (Kill.whole i) gs sh)))
  /\ ((i < length gs)%nat ->
      Kill.finished i (fst (Kill.run env queryID (Kill.whole i) gs sh))).
Proof.
  intros [Hq Hc]. unfold Kill.whole.
  destruct (gs !! i) as [[node p]|] eqn:Hlook.
  - rewrite (run_replicate i node 5 gs sh p Hlook).
    assert (Hp : p = AtCall \/ p = Finished).
    { rewrite Forall_forall in Hq. apply (Hq (node, p)).
      eapply list_elem_of_lookup_2. exact Hlook. }
    destruct Hp as [-> | ->].
    + rewrite steps_whole_start. simpl.
      split; [split|split; [|split]].
      * apply Forall_insert; [exact Hq|]. right. reflexivity.
      * simpl. rewrite (countDone_insert gs i node Hlook). lia.
      * rewrite list_fmap_insert. simpl. apply list_insert_id.
        rewrite list_lookup_fmap, Hlook. reflexivity.
      * intros j [n Hj]. destruct (Nat.eq_dec j i) as [->|Hne].
        -- congruence.
        -- exists n. rewrite list_lookup_insert_ne by congruence. exact Hj.
      * intros Hi. exists node. apply list_lookup_insert_eq. exact Hi.
    + rewrite steps_finished. simpl. rewrite list_insert_id by exact Hlook.
      split; [split; assumption|]. split; [reflexivity|]. split; [auto|].
      intros _. exists node. exact Hlook.
  - assert (Hrun : forall k, Kill.run env queryID (replicate k i) gs sh = (gs, sh)).
    { induction k as [|k IH]; [reflexivity|].
      simpl. unfold Kill.stepAt. rewrite Hlook. exact IH. }
    rewrite Hrun. simpl.
    split; [split; assumption|]. split; [reflexivity|]. split; [auto|].
    intros Hi. apply lookup_ge_None in Hlook. lia.
Qed.

Lemma run_serial (order : list nat) :
  forall (gs : list (Z * KillPc)) (sh : KillShared),
    Kill.between env queryID gs sh ->
    Kill.between env queryID
      (fst (Kill.run env queryID (Kill.serial order) gs sh))
      (snd (Kill.run env queryID (Kill.serial order) gs sh))
    /\ (fst (Kill.run env queryID (Kill.serial order) gs sh)).*1 = gs.*1
    /\ (forall j, Kill.finished j gs ->
          Kill.finished j (fst (Kill.run env queryID (Kill.serial order) gs sh)))
    /\ (forall j, In j order -> (j < length gs)%nat ->
          Kill.finished j (fst (Kill.run env queryID (Kill.serial order) gs sh))).
Proof.
  induction order as [|i order IH]; intros gs sh Hb.
  - simpl. split; [exact Hb|]. split; [reflexivity|]. split; [auto|]. intros j [].
  - change (Kill.serial (i :: order)) with (Kill.whole i ++ Kill.serial order).
    rewrite run_app.
    destruct (run_whole i gs sh Hb) as (Hb1 & Hn1 & Hf1 & Hi1).
    set (gs1 := fst (Kill.run env queryID (Kill.whole i) gs sh)) in *.
    set (sh1 := snd (Kill.run env queryID (Kill.whole i) gs sh)) in *.
    destruct (IH gs1 sh1 Hb1) as (Hb2 & Hn2 & Hf2 & Hi2).
    assert (Hlen : length gs1 = length gs).
    { rewrite <- (length_fmap fst gs1), Hn1, length_fmap. reflexivity. }
    split; [exact Hb2|]. split; [congruence|]. split; [auto|].
    intros j [<-|Hj] Hlt.
    + apply Hf2. apply Hi1. exact Hlt.
    + apply Hi2; [exact Hj|lia].
Qed.

Lemma countDone_all_finished (gs : list (Z * KillPc)) :
  (forall j, (j < length gs)%nat -> Kill.finished j gs) ->
  Kill.countDone env queryID gs = Kill.countNotFound env queryID (gs.*1).
Proof.
  induction gs as [|[node p] gs IH]; intros Hall; [reflexivity|].
  destruct (Hall 0%nat) as [n H0]; [simpl; lia|].
  simpl in H0. injection H0 as <- ->. simpl. rewrite IH; [reflexivity|].
  intros j Hj. destruct (Hall (S j)) as [n Hn]; [simpl; lia|].
  exists n. exact Hn.
Qed.

Lemma countNotFound_bounds (nodes : list Z) :
  0 <= Kill.countNotFound env queryID nodes <= Z.of_nat (length nodes)
  /\ (Kill.countNotFound env queryID nodes = Z.of_nat (length nodes)
      <-> forall node, In node nodes -> Kill.reportsNotFound env queryID node = true).
Proof.
  induction nodes as [|node nodes [IHb IHe]]; simpl.
  - split; [lia|]. split; [intros _ n []|reflexivity].
  - destruct (Kill.reportsNotFound env queryID node) eqn:Hn.
    + split; [lia|]. split.
      * intros H n [<-|Hin]; [exact Hn|]. apply IHe; [lia|exact Hin].
      * intros H. assert (Kill.countNotFound env queryID nodes = Z.of_nat (length nodes))
          by (apply IHe; intros n Hin; apply H; right; exact Hin).
        lia.
    + split; [lia|]. split; [lia|].
      intros H. specialize (H node (or_introl eq_refl)). congruence.
Qed.

(** X8: when the goroutines run whole, in any order, [executeKillQuery]
    answers as the specification says: "query not found" exactly when
    every data node reports it, nil otherwise. *)
Lemma executeKillQuery_serial (stmt : KillQueryStatement) (nodes : list Z) (order : list nat) :
  kill_QueryID stmt = queryID ->
  kill_Host stmt = "" ->
  kill_DataNodes env = (nodes, None) ->
  Kill.executeKillQuery env stmt (Kill.serial order)
  = if forallb (Kill.reportsNotFound env queryID) nodes
    then Some (Kill.NewError env ErrQueryNotFound queryID)
    else None.
Proof.
  intros Hid Hhost Hnodes. unfold Kill.executeKillQuery.
  rewrite Hhost, Hnodes, Hid. simpl.
  set (gs0 := map (fun node => (node, AtCall)) nodes).
  set (sh0 := {| shared_err := None; notFoundCount := 0 |}).
  assert (Hb0 : Kill.between env queryID gs0 sh0).
  { split.
    - subst gs0. apply Forall_forall. intros g Hg.
      apply list_elem_of_In, in_map_iff in Hg. destruct Hg as (n & <- & _). left. reflexivity.
    - subst gs0 sh0. simpl. clear.
      induction nodes as [|n ns IH]; [reflexivity|exact IH]. }
  assert (Hn0 : gs0.*1 = nodes).
  { subst gs0. clear. induction nodes as [|n ns IH]; [reflexivity|]. simpl. f_equal. exact IH. }
  destruct (run_serial order gs0 sh0 Hb0) as (Hb1 & Hn1 & _ & _).
  destruct (Kill.run env queryID (Kill.serial order) gs0 sh0) as [gs1 sh1].
  simpl in Hb1, Hn1.
  assert (Hlen1 : length gs1 = length nodes).
  { rewrite <- (length_fmap fst gs1), Hn1, Hn0. reflexivity. }
  destruct (run_serial (seq 0 (length nodes)) gs1 sh1 Hb1) as ([_ Hc2] & Hn2 & _ & Hi2).
  change (Kill.serial (seq 0 (length nodes))) with (Kill.waitAll (length nodes)) in *.
  destruct (Kill.run env queryID (Kill.waitAll (length nodes)) gs1 sh1) as [gs2 sh2].
  simpl in Hc2, Hn2, Hi2.
  assert (Hlen2 : length gs2 = length nodes).
  { rewrite <- (length_fmap fst gs2), Hn2, Hn1, Hn0. reflexivity. }
  rewrite Hc2, countDone_all_finished.
  - rewrite Hn2, Hn1, Hn0.
    destruct (countNotFound_bounds nodes) as [_ Heq].
    destruct (forallb (Kill.reportsNotFound env queryID) nodes) eqn:Hall.
    + rewrite forallb_forall in Hall. apply Heq in Hall. rewrite Hall, Z.eqb_refl. reflexivity.
    + destruct (Z.eqb_spec (Kill.countNotFound env queryID nodes) (Z.of_nat (length nodes)))
        as [Hc|Hc]; [|reflexivity].
      pose proof (proj1 Heq Hc) as Hc'. apply forallb_forall in Hc'. congruence.
  - intros j Hj. apply Hi2; [|lia]. apply in_seq. lia.
Qed.

End KillFacts.

(** ** The scenario, evaluated *)

Example MergeMeasurementsNames_three_nodes :
  Merge.MergeMeasurementsNames Scenario.decodeNames Scenario.nameMessages
  = (None, ["cpu"; "disk"; "mem"]).
Proof. vm_compute. reflexivity. Qed.

Example MergeMeasurementsNames_reversed :
  Merge.MergeMeasurementsNames Scenario.decodeNames (rev Scenario.nameMessages)
  = (None, ["cpu"; "disk"; "mem"]).
Proof. vm_compute. reflexivity. Qed.

Example MergeMeasurementsNames_undecodable :
  fst (Merge.MergeMeasurementsNames Scenario.decodeNames
         ((4, mkMessage "ShowMeasurements" "!") :: Scenario.nameMessages))
  <> None.
Proof. vm_compute. discriminate. Qed.

(** Query 7 began at 100 on A, 90 on B and 95 on C: its entry says 90. *)
Example combineAll_threeStores_begin :
  beginTime <$> (combineAll (Queries.infosOnAllStore Scenario.threeStores
                               [(1, "A"); (2, "B"); (3, "C")]) !! 7)
  = Some 90.
Proof. vm_compute. reflexivity. Qed.

Example foldedInto_threeStores :
  foldedInto 7 (Queries.infosOnAllStore Scenario.threeStores [(1, "A"); (2, "B"); (3, "C")])
  = [mkQueryExeInfo 7 "SELECT * FROM cpu" "db0" 95 Killed;
     mkQueryExeInfo 7 "SELECT * FROM cpu" "db0" 90 Running;
     mkQueryExeInfo 7 "SELECT * FROM cpu" "db0" 100 Running].
Proof. reflexivity. Qed.

(** A new statement under an old id replaces the entry when it began
    later, and is dropped when it did not. *)
Example combineAll_id_reuse :
  beginTime <$> (combineAll [("A", [mkQueryExeInfo 1 "SELECT 1" "db0" 100 Running]);
                             ("B", [mkQueryExeInfo 1 "SELECT 2" "db0" 200 Running;
                                    mkQueryExeInfo 1 "SELECT 3" "db0" 150 Running])] !! 1)
  = Some 200.
Proof. vm_compute. reflexivity. Qed.

(** Query 8 (begun at 50) comes first with one row, query 7 (begun at 90)
    follows with a killed and a running row, query 9 has no row. *)
Example executeShowQueriesStatement_threeStores :
  Queries.executeShowQueriesStatement Scenario.threeStores
  = ([{| Name := "";
         Columns := ["qid"; "query"; "database"; "duration"; "status"; "host"];
         Values :=
           [[VUint64 8; VString "SELECT * FROM mem"; VString "db0"; VString "some time";
             VString "running"; VString "A"];
            [VUint64 7; VString "SELECT * FROM cpu"; VString "db0"; VString "some time";
             VString "killed"; VString "C"];
            [VUint64 7; VString "SELECT * FROM cpu"; VString "db0"; VString "some time";
             VString "running"; VString "A, B"]] |}], None).
Proof. vm_compute. reflexivity. Qed.

(* ===================================================================== *)
(** * Part III: further properties of the executor                       *)
(* ===================================================================== *)

(** ** [limitStringSlice]: the window and the panics *)

Lemma int64_id (z : Z) : - 2 ^ 63 <= z < 2 ^ 63 -> int64 z = z.
Proof.
  intros H. unfold int64.
  rewrite Z.mod_small by lia. lia.
Qed.

(** X1: for an offset and a limit that are not negative and whose sum is
    an [int], [limitStringSlice] does not panic and returns the elements
    from [offset] on, all of them when [limit] is 0 and at most [limit]
    of them otherwise. *)
Theorem limitStringSlice_window (s : list string) (offset limit : Z) :
  0 <= offset -> 0 <= limit -> offset + limit < 2 ^ 63 ->
  limitStringSlice s offset limit
  = Some (if limit =? 0 then drop (Z.to_nat offset) s
          else take (Z.to_nat limit) (drop (Z.to_nat offset) s)).
Proof.
  intros Ho Hl Hsum. unfold limitStringSlice.
  destruct (Z.geb_spec offset (Z.of_nat (length s))) as [Hge|Hlt].
  - rewrite drop_ge by lia. destruct (limit =? 0); [reflexivity|].
    rewrite take_nil. reflexivity.
  - rewrite int64_id by lia.
    destruct (Z.eqb_spec limit 0) as [->|Hne]; simpl.
    + destruct (Z.leb_spec 0 offset); [|lia].
      destruct (Z.leb_spec offset (Z.of_nat (length s))); [|lia].
      simpl. f_equal. apply take_ge. rewrite length_drop. lia.
    + destruct (Z.geb_spec (offset + limit) (Z.of_nat (length s))) as [Hend|Hend].
      * destruct (Z.leb_spec 0 offset); [|lia].
        destruct (Z.leb_spec offset (Z.of_nat (length s))); [|lia].
        simpl. f_equal. rewrite !take_ge; [reflexivity| |]; rewrite length_drop; lia.
      * destruct (Z.leb_spec 0 offset); [|lia].
        destruct (Z.leb_spec offset (offset + limit)); [|lia].
        simpl. do 2 f_equal. lia.
Qed.

Lemma limitStringSlice_window_witness :
  limitStringSlice ["a"; "b"; "c"; "d"] 1 2
  = Some (if 2 =? 0 then drop (Z.to_nat 1) ["a"; "b"; "c"; "d"]
          else take (Z.to_nat 2) (drop (Z.to_nat 1) ["a"; "b"; "c"; "d"])).
Proof. apply (limitStringSlice_window ["a"; "b"; "c"; "d"] 1 2); lia. Defined.

(** X2: [limitStringSlice] panics exactly when the offset lies below the
    length and either is negative or lies above the end, which happens
    when [offset + limit] is negative or wraps around. *)
Theorem limitStringSlice_panics_iff (s : list string) (offset limit : Z) :
  limitStringSlice s offset limit = None
  <-> offset < Z.of_nat (length s)
      /\ (offset < 0
          \/ (limit <> 0
              /\ int64 (offset + limit) < Z.of_nat (length s)
              /\ int64 (offset + limit) < offset)).
Proof.
  unfold limitStringSlice.
  destruct (Z.geb_spec offset (Z.of_nat (length s))) as [Hge|Hlt].
  - split; [discriminate|lia].
  - destruct (Z.eqb_spec limit 0) as [Hz|Hnz]; simpl.
    + destruct (Z.leb_spec 0 offset); simpl.
      * destruct (Z.leb_spec offset (Z.of_nat (length s))); [|lia].
        split; [discriminate|lia].
      * split; [lia|reflexivity].
    + destruct (Z.geb_spec (int64 (offset + limit)) (Z.of_nat (length s))) as [He|He].
      * destruct (Z.leb_spec 0 offset); simpl.
        -- destruct (Z.leb_spec offset (Z.of_nat (length s))); [|lia].
           split; [discriminate|lia].
        -- split; [lia|reflexivity].
      * destruct (Z.leb_spec 0 offset); simpl.
        -- destruct (Z.leb_spec offset (int64 (offset + limit))).
           ++ split; [discriminate|lia].
           ++ split; [lia|reflexivity].
        -- split; [lia|reflexivity].
Qed.

Example limitStringSlice_overflow_panics :
  limitStringSlice ["a"; "b"] 1 (2 ^ 63 - 1) = None.
Proof. reflexivity. Qed.

(** ** [retryExecuteStatement]: transient errors are ridden out *)







Example retryExecuteStatement_recovering :
  RetryStatement.retryExecuteStatement Scenario.coord Cases.recovering 3
    ShowTagValuesStatement Scenario.start
  = Done ([{| Name := "cpu"; Columns := ["count"]; Values := [[VUint64 3]] |}], None)
      {| now := 3400000000;
         trace := [EvCall 0; EvWarn 1 Scenario.errTransient;
                   EvSleep 200000000; EvCall 1; EvWarn 2 Scenario.errTransient;
                   EvSleep 200000000; EvCall 2];
         sent := [] |}.
Proof. reflexivity. Qed.

(** ** [executeSelectStatement]: what is delivered, and when it stops *)

Lemma accepts_cons refuses seq before b bs :
  accepts refuses seq before (b :: bs) ->
  refuses before (resultOf seq b) = None
  /\ accepts refuses seq (before ++ [resultOf seq b]) bs.
Proof.
  intros H. split.
  - specialize (H [] b bs eq_refl). simpl in H. rewrite app_nil_r in H. exact H.
  - intros pre rc post ->. specialize (H (b :: pre) rc post eq_refl).
    simpl in H. rewrite <- app_assoc. exact H.
Qed.

Lemma accepts_everything refuses seq before batches :
  (forall l r, refuses l r = None) -> accepts refuses seq before batches.
Proof. intros H pre rc post _. apply H. Qed.

(** The receive loop delivers the batches the sink takes, in order, and
    goes on with what it observes next. *)
Lemma receive_batches env seq (rest : list ChanEvent) :
  forall (batches : list RowsChan) (emitted : bool) (w : World),
    accepts (sink_refuses env) seq (sent w) batches ->
    Select.receive env seq (map Recv batches ++ rest) emitted w
    = Select.receive env seq rest
        (emitted || negb (Nat.eqb (length batches) 0))
        (delivered (map (resultOf seq) batches) w).
Proof.
  induction batches as [|b bs IH]; intros emitted w Hacc.
  - simpl. rewrite orb_false_r. unfold delivered. simpl. rewrite app_nil_r.
    destruct w. reflexivity.
  - destruct (accepts_cons _ _ _ _ _ Hacc) as [Hb Hbs].
    simpl. unfold Select.Send, ctx_Send. simpl.
    fold (resultOf seq b). rewrite Hb.
    rewrite (IH true {| now := now w; trace := trace w;
                        sent := sent w ++ [resultOf seq b] |} Hbs). simpl.
    rewrite orb_true_r. unfold delivered. simpl. rewrite <- app_assoc. reflexivity.
Qed.

(** X4: when the plan runs to its end without cancellation and the sink
    takes every Result, [executeSelectStatement] returns what
    [ExecuteExecutor] returned, having delivered the batches in the order
    they were emitted, each with its partial flag; the empty Result is
    added only when there was no batch and no error. *)
Theorem executeSelectStatement_delivers
    (coord : Coordinator) (env : SelectEnv) (fuel : nat) (seq : Z) (w w1 : World)
    (p : PipelineExecutor) (batches : list RowsChan) :
  Select.retryCreatePipelineExecutor coord env fuel w = Done (Some p, None) w1 ->
  observed p = map Recv batches ->
  accepts (sink_refuses env) seq (sent w) batches ->
  sink_refuses env (sent w) (emptyResultOf seq) = None ->
  exists w',
    Select.executeSelectStatement coord env fuel seq w = Done (ExecuteExecutor p) w'
    /\ sent w'
       = sent w ++ map (resultOf seq) batches
         ++ (match batches, ExecuteExecutor p with
             | [], None => [emptyResultOf seq]
             | _, _ => []
             end).
Proof.
  intros Hc Hobs Hacc Hempty.
  pose proof (sent_retryCreatePipelineExecutor_loop _ _ _ _ _ _ _ _ _ Hc) as Hs1.
  unfold Select.executeSelectStatement. rewrite Hc, Hobs.
  rewrite <- (app_nil_r (map Recv batches)).
  rewrite receive_batches by (rewrite Hs1; exact Hacc).
  simpl.
  destruct (ExecuteExecutor p) as [e|].
  - eexists. split; [reflexivity|]. simpl. rewrite Hs1.
    destruct batches; simpl; rewrite ?app_nil_r; reflexivity.
  - destruct batches as [|b bs]; simpl.
    + unfold Select.Send, ctx_Send. simpl. fold (emptyResultOf seq).
      rewrite ?app_nil_r, Hs1, Hempty.
      eexists. split; [reflexivity|]. reflexivity.
    + eexists. split; [reflexivity|]. simpl. rewrite Hs1, ?app_nil_r. reflexivity.
Qed.

Lemma executeSelectStatement_delivers_witness :
  exists w',
    Select.executeSelectStatement Scenario.coord Cases.twoBatches 1 7 Scenario.start
    = Done (Some (mkError IdOther "shard closed")) w'
    /\ sent w'
       = sent Scenario.start
         ++ map (resultOf 7) [Scenario.batch; Scenario.batch]
         ++ [].
Proof.
  apply (executeSelectStatement_delivers Scenario.coord Cases.twoBatches 1 7 Scenario.start
           {| now := 0; trace := [EvCall 0]; sent := [] |}
           {| observed := [Recv Scenario.batch; Recv Scenario.batch];
              ExecuteExecutor := Some (mkError IdOther "shard closed") |}
           [Scenario.batch; Scenario.batch]).
  - reflexivity.
  - reflexivity.
  - apply accepts_everything. reflexivity.
  - reflexivity.
Defined.

(** X5: when the context is cancelled after some batches,
    [executeSelectStatement] returns the context's error; the batches
    before the cancellation are delivered, nothing after it is, and the
    plan is told to abort. *)
Theorem executeSelectStatement_cancelled_stops
    (coord : Coordinator) (env : SelectEnv) (fuel : nat) (seq : Z) (w w1 : World)
    (p : PipelineExecutor) (batches : list RowsChan) (rest : list ChanEvent) :
  Select.retryCreatePipelineExecutor coord env fuel w = Done (Some p, None) w1 ->
  observed p = map Recv batches ++ CtxDone :: rest ->
  accepts (sink_refuses env) seq (sent w) batches ->
  Select.executeSelectStatement coord env fuel seq w
  = Done (Some (ctx_Err env))
      {| now := now w1;
         trace := trace w1 ++ [EvInfo; EvAbort];
         sent := sent w ++ map (resultOf seq) batches |}.
Proof.
  intros Hc Hobs Hacc.
  pose proof (sent_retryCreatePipelineExecutor_loop _ _ _ _ _ _ _ _ _ Hc) as Hs1.
  unfold Select.executeSelectStatement. rewrite Hc, Hobs.
  rewrite receive_batches by (rewrite Hs1; exact Hacc).
  simpl. unfold record, delivered. simpl. rewrite Hs1, <- app_assoc. reflexivity.
Qed.

Lemma executeSelectStatement_cancelled_stops_witness :
  Select.executeSelectStatement Scenario.coord Scenario.cancelled 1 7 Scenario.start
  = Done (Some (ctx_Err Scenario.cancelled))
      {| now := now {| now := 0; trace := [EvCall 0]; sent := [] |};
         trace := trace {| now := 0; trace := [EvCall 0]; sent := [] |} ++ [EvInfo; EvAbort];
         sent := sent Scenario.start ++ map (resultOf 7) [Scenario.batch] |}.
Proof.
  apply (executeSelectStatement_cancelled_stops Scenario.coord Scenario.cancelled 1 7
           Scenario.start {| now := 0; trace := [EvCall 0]; sent := [] |}
           {| observed := [Recv Scenario.batch; CtxDone; Recv Scenario.batch];
              ExecuteExecutor := None |}
           [Scenario.batch] [Recv Scenario.batch]).
  - reflexivity.
  - reflexivity.
  - apply accepts_everything. reflexivity.
Defined.

(** X6: when the sink refuses a Result, [executeSelectStatement] returns
    the sink's error at once: the earlier batches stay delivered, the
    refused one and the later ones are not, the plan is told to abort,
    and no empty Result is sent. *)
Theorem executeSelectStatement_send_failure
    (coord : Coordinator) (env : SelectEnv) (fuel : nat) (seq : Z) (w w1 : World)
    (p : PipelineExecutor) (batches : list RowsChan) (rc : RowsChan)
    (rest : list ChanEvent) (err : error) :
  Select.retryCreatePipelineExecutor coord env fuel w = Done (Some p, None) w1 ->
  observed p = map Recv batches ++ Recv rc :: rest ->
  accepts (sink_refuses env) seq (sent w) batches ->
  sink_refuses env (sent w ++ map (resultOf seq) batches) (resultOf seq rc) = Some err ->
  Select.executeSelectStatement coord env fuel seq w
  = Done (Some err)
      {| now := now w1;
         trace := trace w1 ++ [EvAbort; EvError (Some err)];
         sent := sent w ++ map (resultOf seq) batches |}.
Proof.
  intros Hc Hobs Hacc Hrefuse.
  pose proof (sent_retryCreatePipelineExecutor_loop _ _ _ _ _ _ _ _ _ Hc) as Hs1.
  unfold Select.executeSelectStatement. rewrite Hc, Hobs.
  rewrite receive_batches by (rewrite Hs1; exact Hacc).
  simpl. unfold Select.Send, ctx_Send. simpl.
  fold (resultOf seq rc). rewrite Hs1, Hrefuse.
  unfold record, delivered. simpl. rewrite Hs1, <- app_assoc. reflexivity.
Qed.

Lemma executeSelectStatement_send_failure_witness :
  Select.executeSelectStatement Scenario.coord Cases.brokenPipe 1 7 Scenario.start
  = Done (Some (mkError IdOther "broken pipe"))
      {| now := now {| now := 0; trace := [EvCall 0]; sent := [] |};
         trace := trace {| now := 0; trace := [EvCall 0]; sent := [] |}
                  ++ [EvAbort; EvError (Some (mkError IdOther "broken pipe"))];
         sent := sent Scenario.start ++ map (resultOf 7) [Scenario.batch] |}.
Proof.
  apply (executeSelectStatement_send_failure Scenario.coord Cases.brokenPipe 1 7
           Scenario.start {| now := 0; trace := [EvCall 0]; sent := [] |}
           {| observed := [Recv Scenario.batch; Recv Scenario.batch];
              ExecuteExecutor := None |}
           [Scenario.batch] Scenario.batch [] (mkError IdOther "broken pipe")).
  - reflexivity.
  - reflexivity.
  - intros pre rc post Heq. destruct pre as [|b pre].
    + reflexivity.
    + destruct pre; discriminate Heq.
  - reflexivity.
Defined.

Lemma count_calls_app (a b : list Event) :
  count_calls (a ++ b) = (count_calls a + count_calls b)%nat.
Proof.
  induction a as [|ev a IH]; simpl; [reflexivity|].
  destruct ev; simpl; rewrite IH; reflexivity.
Qed.

(** X7: a panic of [executor.Select] is never retried.  The
    [DtypeNotSupport] error is raised again to the caller of
    [executeSelectStatement]; any other panic is swallowed after one call,
    and the SELECT answers as for an empty result set, with the one empty
    Result. *)
Theorem executeSelectStatement_construction_panic
    (coord : Coordinator) (env : SelectEnv) (fuel : nat) (seq : Z) (w : World)
    (v : error) :
  value (executor_Select env 0) = SelectPanics v ->
  (Select.isDtypeNotSupport v = true ->
   exists w',
     Select.executeSelectStatement coord env (S fuel) seq w = Panic v w'
     /\ sent w' = sent w)
  /\ (Select.isDtypeNotSupport v = false ->
      exists w',
        Select.executeSelectStatement coord env (S fuel) seq w
        = Done (sink_refuses env (sent w) (emptyResultOf seq)) w'
        /\ count_calls (trace w') = S (count_calls (trace w))
        /\ sent w' = match sink_refuses env (sent w) (emptyResultOf seq) with
                     | Some _ => sent w
                     | None => sent w ++ [emptyResultOf seq]
                     end).
Proof.
  intros Hv. split; intros Hd.
  - eexists. split.
    + unfold Select.executeSelectStatement, Select.retryCreatePipelineExecutor.
      simpl. unfold Select.createPipelineExecutor. rewrite Hv, Hd. reflexivity.
    + reflexivity.
  - unfold Select.executeSelectStatement, Select.retryCreatePipelineExecutor.
    simpl. unfold Select.createPipelineExecutor. rewrite Hv, Hd.
    unfold Select.Send, ctx_Send. simpl. fold (emptyResultOf seq).
    destruct (sink_refuses env (sent w) (emptyResultOf seq)) as [e|].
    + eexists. split; [reflexivity|]. split; [|reflexivity].
      simpl. rewrite !count_calls_app. simpl. lia.
    + eexists. split; [reflexivity|]. split; [|reflexivity].
      simpl. rewrite !count_calls_app. simpl. lia.
Qed.

Lemma executeSelectStatement_construction_panic_witness :
  (Select.isDtypeNotSupport (mkError IdOther "index out of range") = true ->
   exists w',
     Select.executeSelectStatement Scenario.coord Cases.panicking 1 7 Scenario.start
     = Panic (mkError IdOther "index out of range") w'
     /\ sent w' = sent Scenario.start)
  /\ (Select.isDtypeNotSupport (mkError IdOther "index out of range") = false ->
      exists w',
        Select.executeSelectStatement Scenario.coord Cases.panicking 1 7 Scenario.start
        = Done (sink_refuses Cases.panicking (sent Scenario.start) (emptyResultOf 7)) w'
        /\ count_calls (trace w') = S (count_calls (trace Scenario.start))
        /\ sent w' = match sink_refuses Cases.panicking (sent Scenario.start)
                             (emptyResultOf 7) with
                     | Some _ => sent Scenario.start
                     | None => sent Scenario.start ++ [emptyResultOf 7]
                     end).
Proof.
  apply (executeSelectStatement_construction_panic Scenario.coord Cases.panicking 0 7
           Scenario.start (mkError IdOther "index out of range")).
  reflexivity.
Defined.

(** ** [executeKillQuery]: what holds under every schedule *)

Lemma executeKillQuery_serial_witness :
  Kill.executeKillQuery Scenario.killedOnFirst (mkKillQueryStatement 7 "")
    (Kill.serial [1; 0]%nat)
  = if forallb (Kill.reportsNotFound Scenario.killedOnFirst 7) [1; 2]
    then Some (Kill.NewError Scenario.killedOnFirst ErrQueryNotFound 7)
    else None.
Proof.
  apply (executeKillQuery_serial Scenario.killedOnFirst 7 (mkKillQueryStatement 7 "")
           [1; 2] [1; 0]%nat); reflexivity.
Defined.

Section KillQuiet.
Variable env : KillEnv.
Variable queryID : Z.

Lemma step_quiet (node : Z) (p : KillPc) (sh : KillShared) :
  Kill.reportsNotFound env queryID node = false ->
  calm p = true -> quiet sh -> notFoundCount sh = 0 ->
  calm (fst (Kill.step env queryID node p sh)) = true
  /\ quiet (snd (Kill.step env queryID node p sh))
  /\ notFoundCount (snd (Kill.step env queryID node p sh)) = 0.
Proof.
  intros Hnode Hp Hq Hc. unfold quiet in *.
  destruct p; simpl in Hp |- *; try discriminate Hp.
  - unfold Kill.reportsNotFound in Hnode.
    destruct (KillQueryOnNode env node queryID); auto.
  - destruct (shared_err sh) as [e|] eqn:He; simpl; rewrite He; auto.
  - destruct (shared_err sh) as [e|] eqn:He; simpl; [|rewrite He; auto].
    rewrite Hq. simpl. rewrite He. auto.
  - auto.
Qed.

Lemma stepAt_quiet (i : nat) (gs : list (Z * KillPc)) (sh : KillShared) :
  all_calm env queryID gs -> quiet sh -> notFoundCount sh = 0 ->
  all_calm env queryID (fst (Kill.stepAt env queryID i gs sh))
  /\ quiet (snd (Kill.stepAt env queryID i gs sh))
  /\ notFoundCount (snd (Kill.stepAt env queryID i gs sh)) = 0.
Proof.
  intros Hgs Hq Hc. unfold Kill.stepAt.
  destruct (gs !! i) as [[node p]|] eqn:Hi; [|auto].
  pose proof (proj1 (Forall_lookup _ gs) Hgs i _ Hi) as [Hnode Hp]. simpl in Hnode, Hp.
  destruct (step_quiet node p sh Hnode Hp Hq Hc) as (Hp' & Hq' & Hc').
  destruct (Kill.step env queryID node p sh) as [p' sh']. simpl in *.
  split; [|auto].
  apply Forall_insert; [exact Hgs|]. simpl. auto.
Qed.

Lemma run_quiet (schedule : list nat) :
  forall (gs : list (Z * KillPc)) (sh : KillShared),
    all_calm env queryID gs -> quiet sh -> notFoundCount sh = 0 ->
    all_calm env queryID (fst (Kill.run env queryID schedule gs sh))
    /\ quiet (snd (Kill.run env queryID schedule gs sh))
    /\ notFoundCount (snd (Kill.run env queryID schedule gs sh)) = 0.
Proof.
  induction schedule as [|i rest IH]; intros gs sh Hgs Hq Hc; [simpl; auto|].
  simpl. destruct (stepAt_quiet i gs sh Hgs Hq Hc) as (Hgs' & Hq' & Hc').
  destruct (Kill.stepAt env queryID i gs sh) as [gs' sh']. simpl in *.
  apply IH; assumption.
Qed.

(** X9: an error of [KillQueryOnNode] other than "query not found" is
    dropped.  When no data node reports "query not found" and there is at
    least one data node, [executeKillQuery] returns nil however the
    goroutines interleave, also when every node failed. *)
Theorem executeKillQuery_drops_other_errors
    (stmt : KillQueryStatement) (nodes : list Z) (schedule : list nat) :
  kill_QueryID stmt = queryID ->
  kill_Host stmt = "" ->
  kill_DataNodes env = (nodes, None) ->
  nodes <> [] ->
  (forall node, In node nodes -> Kill.reportsNotFound env queryID node = false) ->
  Kill.executeKillQuery env stmt schedule = None.
Proof.
  intros Hid Hhost Hnodes Hne Hall. unfold Kill.executeKillQuery.
  rewrite Hhost, Hnodes, Hid. simpl.
  set (gs0 := map (fun node => (node, AtCall)) nodes).
  set (sh0 := {| shared_err := None; notFoundCount := 0 |}).
  assert (Hgs0 : all_calm env queryID gs0).
  { subst gs0. apply Forall_forall. intros g Hg.
    apply list_elem_of_In, in_map_iff in Hg. destruct Hg as (n & <- & Hn).
    simpl. split; [apply Hall, Hn|reflexivity]. }
  destruct (run_quiet schedule gs0 sh0 Hgs0 I eq_refl) as (Hgs1 & Hq1 & Hc1).
  destruct (Kill.run env queryID schedule gs0 sh0) as [gs1 sh1]. simpl in *.
  destruct (run_quiet (Kill.waitAll (length nodes)) gs1 sh1 Hgs1 Hq1 Hc1) as (_ & _ & Hc2).
  destruct (Kill.run env queryID (Kill.waitAll (length nodes)) gs1 sh1) as [gs2 sh2].
  simpl in *. rewrite Hc2.
  destruct nodes as [|n ns]; [contradiction|]. reflexivity.
Qed.

(** X10: what [executeKillQuery] answers without asking any node, under
    every schedule: a statement that names a host is refused with
    [ErrUnsupportCommand]; an error of [MetaClient.DataNodes] is returned
    as it is; and with no data node at all the answer is "query not
    found". *)
Theorem executeKillQuery_without_nodes
    (stmt : KillQueryStatement) (schedule : list nat) :
  (kill_Host stmt <> "" ->
   Kill.executeKillQuery env stmt schedule = Some (Kill.ErrUnsupportCommand))
  /\ (forall nodes err,
        kill_Host stmt = "" -> kill_DataNodes env = (nodes, Some err) ->
        Kill.executeKillQuery env stmt schedule = Some err)
  /\ (kill_Host stmt = "" -> kill_DataNodes env = ([], None) ->
      Kill.executeKillQuery env stmt schedule
      = Some (Kill.NewError env ErrQueryNotFound (kill_QueryID stmt))).
Proof.
  unfold Kill.executeKillQuery. split; [|split].
  - intros Hhost. destruct (String.eqb_spec (kill_Host stmt) ""); [contradiction|reflexivity].
  - intros nodes err -> ->. reflexivity.
  - intros -> ->. simpl.
    assert (Hrun : forall s sh, Kill.run env (kill_QueryID stmt) s [] sh = ([], sh)).
    { induction s as [|i rest IH]; intros sh; [reflexivity|]. simpl. apply IH. }
    rewrite Hrun. simpl. reflexivity.
Qed.

End KillQuiet.

Lemma executeKillQuery_drops_other_errors_witness :
  Kill.executeKillQuery Cases.unreachable (mkKillQueryStatement 7 "")
    [0; 1; 0; 1; 1; 0]%nat
  = None.
Proof.
  apply (executeKillQuery_drops_other_errors Cases.unreachable 7
           (mkKillQueryStatement 7 "") [1; 2] [0; 1; 0; 1; 1; 0]%nat).
  - reflexivity.
  - reflexivity.
  - reflexivity.
  - discriminate.
  - intros node _. reflexivity.
Defined.

(** ** Merging what the nodes report *)

Section MergeErrors.
Variable json_Unmarshal : string -> list string + error.

Lemma collectNames_error (msgs : list (Z * ExecuteStatementMessage)) :
  forall acc err,
    Merge.collectNames json_Unmarshal msgs acc = inl err ->
    exists id msg e,
      In (id, msg) msgs
      /\ msg_Result msg <> ""
      /\ json_Unmarshal (msg_Result msg) = inr e
      /\ err = Merge.unmarshalFailed msg e.
Proof.
  induction msgs as [|[id msg] msgs IH]; intros acc err H; simpl in H; [discriminate|].
  destruct (String.length (msg_Result msg) =? 0)%nat eqn:Hlen.
  - destruct (IH _ _ H) as (i & m & e & Hin & Hrest). exists i, m, e. split; [right|]; auto.
  - destruct (json_Unmarshal (msg_Result msg)) as [names|e] eqn:Hj.
    + destruct (IH _ _ H) as (i & m & e & Hin & Hrest). exists i, m, e. split; [right|]; auto.
    + injection H as <-. exists id, msg, e. split; [left; reflexivity|].
      split; [|auto]. intros Heq. rewrite Heq in Hlen. discriminate.
Qed.

(** X11: [MergeMeasurementsNames] fails exactly when some node's message
    is not empty and does not decode.  It then returns no names, and the
    error names the statement type and the decoder's error of such a
    message.  An empty message is skipped and never decoded. *)
Theorem MergeMeasurementsNames_error_iff (msgs : list (Z * ExecuteStatementMessage)) :
  (fst (Merge.MergeMeasurementsNames json_Unmarshal msgs) = None
   <-> Merge.decodable json_Unmarshal msgs)
  /\ (forall err,
        fst (Merge.MergeMeasurementsNames json_Unmarshal msgs) = Some err ->
        snd (Merge.MergeMeasurementsNames json_Unmarshal msgs) = []
        /\ exists id msg e,
             In (id, msg) msgs
             /\ msg_Result msg <> ""
             /\ json_Unmarshal (msg_Result msg) = inr e
             /\ err = Merge.unmarshalFailed msg e).
Proof.
  unfold Merge.MergeMeasurementsNames. split; [split|].
  - intros Hnone id msg Hin Hn.
    destruct (Merge.collectNames json_Unmarshal msgs []) as [err|ns] eqn:Hc;
      [discriminate Hnone|].
    clear Hnone. revert Hc. generalize (@nil string) as acc.
    induction msgs as [|[i m] msgs IH]; intros acc Hc; [destruct Hin|].
    simpl in Hc. destruct Hin as [Heq|Hin].
    + injection Heq as -> ->. unfold Merge.namesOf in Hn.
      destruct (String.length (msg_Result msg) =? 0)%nat; [discriminate|].
      destruct (json_Unmarshal (msg_Result msg)); discriminate.
    + destruct (String.length (msg_Result m) =? 0)%nat; [exact (IH Hin _ Hc)|].
      destruct (json_Unmarshal (msg_Result m)); [exact (IH Hin _ Hc)|discriminate].
  - intros Hdec. destruct (collectNames_decodable json_Unmarshal msgs [] Hdec) as (ns & -> & _).
    reflexivity.
  - intros err Herr.
    destruct (Merge.collectNames json_Unmarshal msgs []) as [e|ns] eqn:Hc;
      [|discriminate Herr].
    simpl in Herr. injection Herr as ->. split; [reflexivity|].
    exact (collectNames_error msgs [] err Hc).
Qed.

End MergeErrors.

Lemma foldl_remove_spec (filetered : list string) :
  forall (s : gset string) (x : string),
    x ∈ foldl (fun (s : gset string) fv => if decide (fv ∈ s) then s ∖ {[fv]} else s)
              s filetered
    <-> x ∈ s /\ ~ In x filetered.
Proof.
  induction filetered as [|fv rest IH]; intros s x; simpl; [tauto|].
  rewrite IH. destruct (decide (fv ∈ s)) as [Hin|Hnin].
  - rewrite elem_of_difference, elem_of_singleton. intuition congruence.
  - split; [|tauto]. intros [Hx Hrest]. split; [exact Hx|].
    intros [->|Hr]; [contradiction|exact (Hrest Hr)].
Qed.

(** X12: [RemoveFiltered] with an empty filter returns [result] as it
    is, neither sorted nor freed of duplicates; with any other filter it
    returns the names of [result] that are not in the filter, each once,
    in strictly ascending byte order. *)
Theorem RemoveFiltered_spec (result filetered : list string) :
  RemoveFiltered result [] = result
  /\ (filetered <> [] ->
      Sorted (fun a b => ByteStringSlice_Less a b = true) (RemoveFiltered result filetered)
      /\ NoDup (RemoveFiltered result filetered)
      /\ forall x, In x (RemoveFiltered result filetered)
                   <-> In x result /\ ~ In x filetered).
Proof.
  split; [reflexivity|]. intros Hne. unfold RemoveFiltered.
  destruct filetered as [|f0 fs]; [contradiction|].
  cbn [length Nat.eqb].
  set (s := foldl _ _ _).
  assert (Hnd : NoDup (merge_sort String.le (elements s))).
  { rewrite merge_sort_Permutation. apply NoDup_elements. }
  split; [|split].
  - apply Sorted_le_NoDup_Less; [|exact Hnd]. apply Sorted_merge_sort. apply _.
  - exact Hnd.
  - intros x. rewrite <- list_elem_of_In, merge_sort_Permutation, elem_of_elements.
    subst s. rewrite foldl_remove_spec, elem_of_list_to_set, list_elem_of_In. reflexivity.
Qed.

Lemma int64_add_l (a b : Z) : int64 (int64 a + b) = int64 (a + b).
Proof.
  unfold int64.
  rewrite (Z.mod_eq (a + 2 ^ 63) (2 ^ 64)) by lia.
  replace (a + 2 ^ 63 - 2 ^ 64 * ((a + 2 ^ 63) / 2 ^ 64) - 2 ^ 63 + b + 2 ^ 63)
    with (a + b + 2 ^ 63 + (- ((a + 2 ^ 63) / 2 ^ 64)) * 2 ^ 64) by lia.
  rewrite Z_mod_plus_full. reflexivity.
Qed.

Section CardinalityFacts.
Variable json_Unmarshal : string -> Z + error.

Lemma CalcCardinality_loop_decodable (msgs : list (Z * ExecuteStatementMessage)) :
  forall acc,
    Cardinality.decodable json_Unmarshal msgs ->
    Cardinality.CalcCardinality_loop json_Unmarshal msgs acc
    = (None, int64 (acc + foldr Z.add 0 (Cardinality.numbers json_Unmarshal msgs))).
Proof.
  induction msgs as [|[id msg] msgs IH]; intros acc Hdec; [reflexivity|].
  simpl. destruct (Hdec id msg (or_introl eq_refl)) as [n Hn]. rewrite Hn.
  rewrite IH by (intros i m Hin; apply (Hdec i m); right; exact Hin).
  simpl. rewrite int64_add_l. f_equal. f_equal. lia.
Qed.

Lemma numbers_Permutation (msgs1 msgs2 : list (Z * ExecuteStatementMessage)) :
  msgs1 ≡ₚ msgs2 ->
  foldr Z.add 0 (Cardinality.numbers json_Unmarshal msgs1)
  = foldr Z.add 0 (Cardinality.numbers json_Unmarshal msgs2).
Proof.
  induction 1 as [|[i m] l1 l2 Hp IH|[i m] [j n] l|l1 l2 l3 Hp1 IH1 Hp2 IH2]; simpl.
  - reflexivity.
  - destruct (json_Unmarshal (msg_Result m)); simpl; [rewrite IH|]; auto.
  - destruct (json_Unmarshal (msg_Result m)), (json_Unmarshal (msg_Result n)); simpl; lia.
  - congruence.
Qed.

(** X13: when every node's message decodes, [CalcCardinality] returns no
    error and the sum of the nodes' numbers, wrapped around as an
    [int64], whatever the order of the nodes; when a message does not
    decode, the number returned is 0 and the error is not nil. *)
Theorem CalcCardinality_sum (msgs : list (Z * ExecuteStatementMessage)) :
  (Cardinality.decodable json_Unmarshal msgs ->
   (Cardinality.CalcCardinality json_Unmarshal msgs
    = (None, int64 (foldr Z.add 0 (Cardinality.numbers json_Unmarshal msgs))))
   /\ forall msgs', msgs ≡ₚ msgs' ->
        Cardinality.CalcCardinality json_Unmarshal msgs'
        = Cardinality.CalcCardinality json_Unmarshal msgs)
  /\ (~ Cardinality.decodable json_Unmarshal msgs ->
      exists err, Cardinality.CalcCardinality json_Unmarshal msgs = (Some err, 0)).
Proof.
  unfold Cardinality.CalcCardinality. split.
  - intros Hdec. split; [apply CalcCardinality_loop_decodable, Hdec|].
    intros msgs' Hp.
    rewrite !CalcCardinality_loop_decodable;
      [rewrite (numbers_Permutation _ _ Hp); reflexivity|exact Hdec|].
    intros i m Hin. apply (Hdec i m). apply (Permutation_in _ (Permutation_sym Hp)), Hin.
  - generalize 0 at 1 as acc. induction msgs as [|[id msg] msgs IH]; intros acc Hnd.
    + exfalso. apply Hnd. intros i m [].
    + simpl. destruct (json_Unmarshal (msg_Result msg)) as [n|err] eqn:Hj; [|eauto].
      apply IH. intros Hdec. apply Hnd. intros i m [Heq|Hin].
      * injection Heq as <- <-. eauto.
      * apply (Hdec i m Hin).
Qed.

End CardinalityFacts.

Lemma addTagKey_lookup (m : gmap string (gset string)) (tk : TagKeys) (n : string) :
  MergeKeys.addTagKey m tk !! n
  = if decide (n = tk_Name tk)
    then Some (default ∅ (m !! n) ∪ list_to_set (tk_Keys tk))
    else m !! n.
Proof.
  unfold MergeKeys.addTagKey.
  destruct (decide (n = tk_Name tk)) as [->|Hne].
  - destruct (m !! tk_Name tk) as [old|] eqn:Hm; rewrite lookup_insert_eq; simpl; f_equal.
    apply leibniz_equiv. rewrite (left_id ∅ (∪)). reflexivity.
  - destruct (m !! tk_Name tk); rewrite lookup_insert_ne by congruence; reflexivity.
Qed.

Lemma foldl_addTagKey_lookup (flat : list TagKeys) (n : string) :
  forall m : gmap string (gset string),
    (is_Some (foldl MergeKeys.addTagKey m flat !! n)
     <-> is_Some (m !! n) \/ exists tk, In tk flat /\ tk_Name tk = n)
    /\ (forall s k,
          foldl MergeKeys.addTagKey m flat !! n = Some s ->
          (k ∈ s <-> (exists s0, m !! n = Some s0 /\ k ∈ s0)
                     \/ exists tk, In tk flat /\ tk_Name tk = n /\ In k (tk_Keys tk))).
Proof.
  induction flat as [|tk rest IH]; intros m.
  - simpl. split.
    + split; [auto|]. intros [H|(tk & [] & _)]. exact H.
    + intros s k Hs. split.
      * intros Hk. left. eauto.
      * intros [(s0 & Hs0 & Hk)|(tk & [] & _)]. congruence.
  - simpl. destruct (IH (MergeKeys.addTagKey m tk)) as [IHs IHk].
    rewrite addTagKey_lookup in IHs. split.
    + rewrite IHs. destruct (decide (n = tk_Name tk)) as [->|Hne].
      * split; [|intros _; left; eauto]. intros _. right. exists tk. auto.
      * split.
        -- intros [H|(tk' & Hin & Hn)]; [auto|]. right. exists tk'. auto.
        -- intros [H|(tk' & [<-|Hin] & Hn)]; [auto|congruence|]. right. exists tk'. auto.
    + intros s k Hs. rewrite (IHk s k Hs), addTagKey_lookup.
      destruct (decide (n = tk_Name tk)) as [->|Hne].
      * split.
        -- intros [(s0 & Hs0 & Hk)|(tk' & Hin & Hn & Hk)].
           ++ injection Hs0 as <-. apply elem_of_union in Hk. destruct Hk as [Hk|Hk].
              ** left. destruct (m !! tk_Name tk) as [s1|]; simpl in Hk; [eauto|].
                 apply elem_of_empty in Hk. destruct Hk.
              ** right. exists tk. apply elem_of_list_to_set, list_elem_of_In in Hk. auto.
           ++ right. exists tk'. auto.
        -- intros [(s0 & Hs0 & Hk)|(tk' & [<-|Hin] & Hn & Hk)].
           ++ left. eexists. split; [reflexivity|]. rewrite Hs0. simpl.
              apply elem_of_union. left. exact Hk.
           ++ left. eexists. split; [reflexivity|].
              apply elem_of_union. right. apply elem_of_list_to_set, list_elem_of_In, Hk.
           ++ right. exists tk'. auto.
      * split.
        -- intros [H|(tk' & Hin & Hn & Hk)]; [auto|]. right. exists tk'. auto.
        -- intros [H|(tk' & [<-|Hin] & Hn & Hk)]; [auto|congruence|]. right. exists tk'. auto.
Qed.

Lemma collect_flat (nodes : list (Z * list TagKeys)) :
  forall m : gmap string (gset string),
    foldl (fun uniqueMap node => foldl MergeKeys.addTagKey uniqueMap (snd node)) m nodes
    = foldl MergeKeys.addTagKey m (concat (map snd nodes)).
Proof.
  induction nodes as [|[id tks] nodes IH]; intros m; [reflexivity|].
  simpl. rewrite foldl_app. apply IH.
Qed.

Lemma In_flat (nodes : list (Z * list TagKeys)) (tk : TagKeys) :
  In tk (concat (map snd nodes)) <-> exists id tks, In (id, tks) nodes /\ In tk tks.
Proof.
  rewrite in_concat. split.
  - intros (tks & Hin & Htk). apply in_map_iff in Hin. destruct Hin as ([id tks'] & <- & Hin).
    exists id, tks'. auto.
  - intros (id & tks & Hin & Htk). exists tks. split; [|exact Htk].
    apply in_map_iff. exists (id, tks). auto.
Qed.

Lemma collect_is_Some (nodes : list (Z * list TagKeys)) (n : string) :
  is_Some (MergeKeys.collect nodes !! n) <-> MergeKeys.reportsName nodes n.
Proof.
  unfold MergeKeys.collect. rewrite collect_flat.
  rewrite (proj1 (foldl_addTagKey_lookup _ n ∅)), lookup_empty.
  unfold MergeKeys.reportsName. split.
  - intros [[x Hx]|(tk & Hin & Hn)]; [discriminate|].
    apply In_flat in Hin. destruct Hin as (id & tks & Hin & Htk). exists id, tks, tk. auto.
  - intros (id & tks & tk & Hin & Htk & Hn). right. exists tk. split; [|exact Hn].
    apply In_flat. eauto.
Qed.

Lemma collect_keys (nodes : list (Z * list TagKeys)) (n : string) (s : gset string) (k : string) :
  MergeKeys.collect nodes !! n = Some s ->
  (k ∈ s <-> MergeKeys.reportsKey nodes n k).
Proof.
  unfold MergeKeys.collect. rewrite collect_flat. intros Hs.
  rewrite (proj2 (foldl_addTagKey_lookup _ n ∅) s k Hs), lookup_empty.
  unfold MergeKeys.reportsKey. split.
  - intros [(s0 & Hs0 & _)|(tk & Hin & Hn & Hk)]; [discriminate|].
    apply In_flat in Hin. destruct Hin as (id & tks & Hin & Htk). exists id, tks, tk. auto.
  - intros (id & tks & tk & Hin & Htk & Hn & Hk). right. exists tk. split; [|auto].
    apply In_flat. eauto.
Qed.

Lemma collect_Permutation (nodes1 nodes2 : list (Z * list TagKeys)) :
  nodes1 ≡ₚ nodes2 -> MergeKeys.collect nodes1 = MergeKeys.collect nodes2.
Proof.
  intros Hp. apply map_eq. intros n.
  assert (Hname : MergeKeys.reportsName nodes1 n <-> MergeKeys.reportsName nodes2 n).
  { split; intros (id & tks & tk & Hin & H); exists id, tks, tk; split; auto.
    - apply (Permutation_in _ Hp), Hin.
    - apply (Permutation_in _ (Permutation_sym Hp)), Hin. }
  assert (Hkey : forall k, MergeKeys.reportsKey nodes1 n k <-> MergeKeys.reportsKey nodes2 n k).
  { intros k. split; intros (id & tks & tk & Hin & H); exists id, tks, tk; split; auto.
    - apply (Permutation_in _ Hp), Hin.
    - apply (Permutation_in _ (Permutation_sym Hp)), Hin. }
  destruct (MergeKeys.collect nodes1 !! n) as [s1|] eqn:H1;
    destruct (MergeKeys.collect nodes2 !! n) as [s2|] eqn:H2.
  - f_equal. apply set_eq. intros k.
    rewrite (collect_keys _ _ _ k H1), (collect_keys _ _ _ k H2). apply Hkey.
  - assert (H : is_Some (MergeKeys.collect nodes2 !! n)).
    { apply collect_is_Some, Hname, collect_is_Some. rewrite H1. eauto. }
    rewrite H2 in H. destruct H as [x Hx]. discriminate.
  - assert (H : is_Some (MergeKeys.collect nodes1 !! n)).
    { apply collect_is_Some, Hname, collect_is_Some. rewrite H2. eauto. }
    rewrite H1 in H. destruct H as [x Hx]. discriminate.
  - reflexivity.
Qed.

Lemma Sorted_names (l : list TagKeys) :
  Sorted TagKeys_le l -> NoDup (map tk_Name l) ->
  Sorted (fun a b => TagKeysSlice_Less a b = true) l.
Proof.
  induction l as [|a l IH]; intros Hs Hn; [constructor|].
  apply Sorted_inv in Hs. destruct Hs as [Hs Hhd].
  simpl in Hn. apply NoDup_cons in Hn. destruct Hn as [Ha Hn].
  constructor; [apply IH; assumption|].
  destruct Hhd as [|b l' Hab]; constructor.
  apply String_le_neq_Less; [exact Hab|].
  intros Heq. apply Ha. rewrite Heq. simpl. left.
Qed.

(** X14: [MergeTagKeys] never fails.  It returns one entry for every
    measurement some node reports, the entries in strictly ascending
    order of the measurement name; the keys of an entry are the tag keys
    the nodes report for its measurement, each once, in strictly
    ascending order.  The order of the nodes does not matter. *)
Theorem MergeTagKeys_sorted_union (nodes : list (Z * list TagKeys)) :
  exists out,
    MergeKeys.MergeTagKeys nodes = (None, out)
    /\ Sorted (fun a b => TagKeysSlice_Less a b = true) out
    /\ (forall name, (exists tk, In tk out /\ tk_Name tk = name)
                     <-> MergeKeys.reportsName nodes name)
    /\ (forall tk, In tk out ->
          Sorted (fun a b => ByteStringSlice_Less a b = true) (tk_Keys tk)
          /\ forall k, In k (tk_Keys tk) <-> MergeKeys.reportsKey nodes (tk_Name tk) k)
    /\ (forall nodes', nodes ≡ₚ nodes' ->
          MergeKeys.MergeTagKeys nodes' = MergeKeys.MergeTagKeys nodes).
Proof.
  unfold MergeKeys.MergeTagKeys. eexists. split; [reflexivity|].
  set (m := MergeKeys.collect nodes).
  assert (Hin : forall tk,
            In tk (merge_sort TagKeys_le (map MergeKeys.entry (map_to_list m)))
            <-> exists n s, m !! n = Some s /\ tk = MergeKeys.entry (n, s)).
  { intros tk. rewrite <- list_elem_of_In, merge_sort_Permutation, list_elem_of_In, in_map_iff.
    split.
    - intros ([n s] & <- & H). apply list_elem_of_In, elem_of_map_to_list in H. eauto.
    - intros (n & s & H & ->). exists (n, s). split; [reflexivity|].
      apply list_elem_of_In, elem_of_map_to_list, H. }
  split; [|split; [|split]].
  - apply Sorted_names; [apply Sorted_merge_sort; apply _|].
    assert (Hp : map tk_Name (merge_sort TagKeys_le (map MergeKeys.entry (map_to_list m)))
                 ≡ₚ (map_to_list m).*1).
    { rewrite merge_sort_Permutation, map_map. reflexivity. }
    rewrite Hp. apply NoDup_fst_map_to_list.
  - intros name. rewrite <- collect_is_Some. fold m. split.
    + intros (tk & Htk & <-). apply Hin in Htk. destruct Htk as (n & s & Hm & ->).
      simpl. eauto.
    + intros [s Hs]. exists (MergeKeys.entry (name, s)). split; [|reflexivity].
      apply Hin. eauto.
  - intros tk Htk. apply Hin in Htk. destruct Htk as (n & s & Hm & ->).
    unfold MergeKeys.entry, sort_Strings. simpl. split.
    + apply Sorted_le_NoDup_Less; [apply Sorted_merge_sort; apply _|].
      rewrite merge_sort_Permutation. apply NoDup_elements.
    + intros k. rewrite <- list_elem_of_In, merge_sort_Permutation, elem_of_elements.
      apply collect_keys, Hm.
  - intros nodes' Hp. rewrite (collect_Permutation _ _ (Permutation_sym Hp)). reflexivity.
Qed.

(** ** SHOW TAG KEYS *)

Lemma takes_cons refuses before r rs :
  takes refuses before (r :: rs) ->
  refuses before r = None /\ takes refuses (before ++ [r]) rs.
Proof.
  intros H. split.
  - specialize (H [] r rs eq_refl). rewrite app_nil_r in H. exact H.
  - intros pre r' post ->. specialize (H (r :: pre) r' post eq_refl).
    rewrite <- app_assoc. exact H.
Qed.

Lemma takes_app refuses before rs1 rs2 :
  takes refuses before (rs1 ++ rs2) ->
  takes refuses before rs1 /\ takes refuses (before ++ rs1) rs2.
Proof.
  intros H. split.
  - intros pre r post ->. apply (H pre r (post ++ rs2)).
    rewrite <- app_assoc. reflexivity.
  - intros pre r post ->. specialize (H (rs1 ++ pre) r post).
    rewrite <- !app_assoc in H. rewrite <- app_assoc. apply H. reflexivity.
Qed.

Lemma takes_everything refuses before rs :
  (forall l r, refuses l r = None) -> takes refuses before rs.
Proof. intros H pre r post _. apply H. Qed.

Section ShowTagKeysFacts.
Variable env : TagKeysEnv.

(** The trimming of [executeShowTagKeys] never goes out of bounds: it is
    the window, whatever the offset and the limit. *)
Lemma trimKeys_window (q : ShowTagKeysQuery) (keys : list string) :
  ShowTagKeys.trimKeys q keys = ShowTagKeys.window q keys.
Proof.
  unfold ShowTagKeys.trimKeys, ShowTagKeys.window.
  assert (Hk1 : (if 0 <? stk_Offset q
                 then if Z.of_nat (length keys) <=? stk_Offset q then []
                      else drop (Z.to_nat (stk_Offset q)) keys
                 else keys) = drop (Z.to_nat (stk_Offset q)) keys).
  { destruct (Z.ltb_spec 0 (stk_Offset q)) as [Hpos|Hneg].
    - destruct (Z.leb_spec (Z.of_nat (length keys)) (stk_Offset q)) as [Hge|Hlt];
        [|reflexivity].
      symmetry. apply drop_ge. lia.
    - replace (Z.to_nat (stk_Offset q)) with 0%nat by lia. reflexivity. }
  rewrite Hk1. set (keys1 := drop _ keys).
  destruct (Z.ltb_spec 0 (stk_Limit q)) as [Hpos|Hneg]; [|reflexivity].
  simpl. destruct (Z.ltb_spec (stk_Limit q) (Z.of_nat (length keys1))) as [Hlt|Hge];
    [reflexivity|].
  symmetry. apply take_ge. lia.
Qed.

Lemma sendTagKeys_results (q : ShowTagKeysQuery) (seq : Z) (tagKeys : list TagKeys) :
  forall (emitted : bool) (w : World),
    takes (tagkeys_sink env) (sent w) (flat_map (ShowTagKeys.resultOfKeys q seq) tagKeys) ->
    ShowTagKeys.sendTagKeys env q seq tagKeys emitted w
    = (inr (emitted
            || negb (Nat.eqb (length (flat_map (ShowTagKeys.resultOfKeys q seq) tagKeys)) 0)),
       delivered (flat_map (ShowTagKeys.resultOfKeys q seq) tagKeys) w).
Proof.
  induction tagKeys as [|m rest IH]; intros emitted w Htakes.
  - simpl. rewrite orb_false_r. unfold delivered. simpl. rewrite app_nil_r.
    destruct w. reflexivity.
  - simpl in Htakes |- *. rewrite trimKeys_window.
    unfold ShowTagKeys.resultOfKeys in Htakes |- * at 1 3.
    destruct (ShowTagKeys.window q (tk_Keys m)) as [|k ks] eqn:Hwin.
    + simpl in Htakes |- *. apply IH, Htakes.
    + cbn [length Nat.eqb]. cbn [app] in Htakes.
      destruct (takes_cons _ _ _ _ Htakes) as [Hr Hrest].
      unfold ctx_Send. cbn [Series Partial]. rewrite Hr.
      rewrite (IH true {| now := now w; trace := trace w; sent := sent w ++ [_] |} Hrest).
      simpl. rewrite orb_true_r. unfold delivered. simpl. rewrite <- app_assoc.
      reflexivity.
Qed.

(** X15: [executeShowTagKeys] refuses a statement with a condition and a
    statement without database before asking for anything, and returns
    the error of [TagKeys] with nothing sent.  Otherwise, when the sink
    takes what it is given, it returns nil and has sent one Result for
    every measurement that has a key in the window, in the order of
    [TagKeys], with the keys of the window; when there is none it has
    sent the one empty Result.  The window starts at [Offset] and holds
    at most [Limit] keys; an offset or a limit that is not positive does
    not restrict, and no value of them leads out of bounds. *)
Theorem executeShowTagKeys_spec (q : ShowTagKeysQuery) (seq : Z) (w : World) :
  (stk_hasCondition q = true ->
   ShowTagKeys.executeShowTagKeys env q seq w = (Some Kill.ErrUnsupportCommand, w))
  /\ (stk_hasCondition q = false -> stk_Database q = "" ->
      ShowTagKeys.executeShowTagKeys env q seq w = (Some (ErrDatabaseNameRequired env), w))
  /\ (forall err,
        stk_hasCondition q = false -> stk_Database q <> "" ->
        ShowTagKeys.StatementExecutor_TagKeys env (stk_Database q) = inr err ->
        ShowTagKeys.executeShowTagKeys env q seq w = (Some err, w))
  /\ (forall tagKeys,
        stk_hasCondition q = false -> stk_Database q <> "" ->
        ShowTagKeys.StatementExecutor_TagKeys env (stk_Database q) = inl tagKeys ->
        takes (tagkeys_sink env) (sent w) (ShowTagKeys.results q seq tagKeys) ->
        ShowTagKeys.executeShowTagKeys env q seq w
        = (None, delivered (ShowTagKeys.results q seq tagKeys) w)
        /\ ShowTagKeys.results q seq tagKeys <> []).
Proof.
  unfold ShowTagKeys.executeShowTagKeys. split; [|split; [|split]].
  - intros ->. reflexivity.
  - intros -> ->. reflexivity.
  - intros err -> Hdb ->. destruct (String.eqb_spec (stk_Database q) ""); [contradiction|].
    reflexivity.
  - intros tagKeys -> Hdb -> Htakes.
    destruct (String.eqb_spec (stk_Database q) ""); [contradiction|].
    unfold ShowTagKeys.results in Htakes |- *.
    destruct (flat_map (ShowTagKeys.resultOfKeys q seq) tagKeys) as [|r rs] eqn:Hrs.
    + rewrite sendTagKeys_results by (rewrite Hrs; intros [|? ?] ? ? Heq; discriminate Heq).
      rewrite Hrs. simpl. unfold ctx_Send, delivered. simpl. fold (emptyResultOf seq).
      rewrite app_nil_r.
      destruct (takes_cons _ _ _ _ Htakes) as [Hr _]. rewrite Hr.
      split; [reflexivity|discriminate].
    + rewrite sendTagKeys_results by (rewrite Hrs; exact Htakes).
      rewrite Hrs. simpl. split; [reflexivity|discriminate].
Qed.







End ShowTagKeysFacts.

Example executeShowTagKeys_paged :
  ShowTagKeys.executeShowTagKeys Cases.tagKeysEnv
    (mkShowTagKeysQuery false "db0" 1 1) 3 Scenario.start
  = (None,
     delivered
       [{| Series := [ShowTagKeys.tagKeyRow "cpu" ["region"]]; Partial := false;
           StatementID := 3 |};
        {| Series := [ShowTagKeys.tagKeyRow "cpu" ["host"]]; Partial := false;
           StatementID := 3 |}]
       Scenario.start).
Proof. vm_compute. reflexivity. Qed.

Example executeShowTagKeys_past_the_end :
  ShowTagKeys.executeShowTagKeys Cases.tagKeysEnv
    (mkShowTagKeysQuery false "db0" 5 (-1)) 3 Scenario.start
  = (None, delivered [emptyResultOf 3] Scenario.start).
Proof. vm_compute. reflexivity. Qed.

(** ** SHOW SERIES over the nodes *)

Section SeriesFacts.
Variable env : SeriesEnv.

Lemma eachNode_callback_ok (q : ShowSeriesQuery) (names : list string)
    (nodes : list (Z * list Z)) :
  forall series,
    (forall id pts, In (id, pts) nodes ->
       snd (ShowSeries env id (q_Database q) pts names) = None) ->
    Series.eachNode nodes (Series.callback env q names) (false, series)
    = (None, (false, series ++ collected env (q_Database q) names nodes)).
Proof.
  induction nodes as [|[id pts] nodes IH]; intros series Hok.
  - unfold collected. simpl. rewrite app_nil_r. reflexivity.
  - simpl. pose proof (Hok id pts (or_introl eq_refl)) as Hid.
    destruct (ShowSeries env id (q_Database q) pts names) as [arr err] eqn:Hs.
    simpl in Hid. subst err. simpl.
    rewrite IH by (intros i p Hin; apply Hok; right; exact Hin).
    unfold collected. simpl. rewrite Hs. simpl. rewrite <- app_assoc. reflexivity.
Qed.

Lemma eachNode_callback_after_failure (q : ShowSeriesQuery) (names : list string)
    (nodes : list (Z * list Z)) (series : list string) :
  Series.eachNode nodes (Series.callback env q names) (true, series)
  = (None, (true, series)).
Proof.
  induction nodes as [|[id pts] nodes IH]; [reflexivity|].
  simpl. rewrite IH. reflexivity.
Qed.

Lemma eachNode_callback_fails (q : ShowSeriesQuery) (names : list string)
    (pre post : list (Z * list Z)) (id : Z) (pts : list Z) (arr : list string) (e : error) :
  forall series,
    (forall i p, In (i, p) pre -> snd (ShowSeries env i (q_Database q) p names) = None) ->
    ShowSeries env id (q_Database q) pts names = (arr, Some e) ->
    Series.eachNode (pre ++ (id, pts) :: post) (Series.callback env q names) (false, series)
    = (Some e, (true, [])).
Proof.
  induction pre as [|[i p] pre IH]; intros series Hok Hfail.
  - simpl. rewrite Hfail. simpl. rewrite eachNode_callback_after_failure. reflexivity.
  - simpl. pose proof (Hok i p (or_introl eq_refl)) as Hi.
    destruct (ShowSeries env i (q_Database q) p names) as [a err] eqn:Hs.
    simpl in Hi. subst err. simpl.
    rewrite IH; [reflexivity| |exact Hfail].
    intros i' p' Hin. apply Hok. right. exact Hin.
Qed.

Lemma collected_Permutation (database : string) (names : list string)
    (nodes nodes' : list (Z * list Z)) :
  nodes ≡ₚ nodes' ->
  collected env database names nodes ≡ₚ collected env database names nodes'.
Proof.
  unfold collected.
  induction 1 as [|x l l' Hp IH|x y l|l1 l2 l3 Hp1 IH1 Hp2 IH2]; simpl.
  - reflexivity.
  - rewrite IH. reflexivity.
  - rewrite !app_assoc. apply Permutation_app_tail, Permutation_app_comm.
  - rewrite IH1. exact IH2.
Qed.

Lemma sort_Strings_Permutation (s1 s2 : list string) :
  s1 ≡ₚ s2 -> sort_Strings s1 = sort_Strings s2.
Proof.
  intros Hp. unfold sort_Strings. apply (Sorted_unique String.le).
  - apply Sorted_merge_sort. apply _.
  - apply Sorted_merge_sort. apply _.
  - rewrite !merge_sort_Permutation. exact Hp.
Qed.

(** X17: when [EachDBNodes] runs the callback over the nodes one after
    the other and every node answers, SHOW SERIES without offset and
    limit sends one Result whose one row lists the series keys of all
    nodes in ascending order, a key as often as nodes report it, and
    returns what the send returns; with no key at all it sends nothing.
    The order of the nodes does not matter. *)
Theorem executeShowSeries_collects
    (q : ShowSeriesQuery) (seq : Z) (w : World)
    (names : list string) (nodes : list (Z * list Z)) :
  MatchMeasurements env (q_Database q) = (names, None) ->
  (forall fn acc, EachDBNodes env (q_Database q) fn acc = Series.eachNode nodes fn acc) ->
  (forall id pts, In (id, pts) nodes ->
     snd (ShowSeries env id (q_Database q) pts names) = None) ->
  q_Offset q = 0 -> q_Limit q = 0 ->
  exists keys,
    Sorted String.le keys
    /\ keys ≡ₚ collected env (q_Database q) names nodes
    /\ (forall nodes', nodes ≡ₚ nodes' ->
          sort_Strings (collected env (q_Database q) names nodes') = keys)
    /\ Series.executeShowSeries env q seq w
       = match keys with
         | [] => Done None w
         | _ => let '(r, w') :=
                  ctx_Send (series_sink env)
                    {| Series := [seriesRow keys]; Partial := false; StatementID := 0 |}
                    seq w in
                Done r w'
         end.
Proof.
  intros Hmatch Hfan Hok Hoff Hlim.
  exists (sort_Strings (collected env (q_Database q) names nodes)).
  split; [apply Sorted_merge_sort; apply _|].
  split; [apply merge_sort_Permutation|].
  split.
  { intros nodes' Hp. apply sort_Strings_Permutation. symmetry.
    apply collected_Permutation, Hp. }
  unfold Series.executeShowSeries.
  rewrite Hmatch, Hfan, (eachNode_callback_ok q names nodes [] Hok), Hoff, Hlim.
  simpl app.
  set (keys := sort_Strings (collected env (q_Database q) names nodes)).
  destruct keys as [|k ks] eqn:Hkeys.
  - rewrite limitStringSlice_offset_past_end by (simpl; lia). reflexivity.
  - rewrite limitStringSlice_no_limit by (simpl; lia). reflexivity.
Qed.

(** X18: when [EachDBNodes] runs the callback over the nodes one after
    the other and a node fails, SHOW SERIES returns the error of the
    first node that fails and logs it; what the earlier nodes delivered
    is dropped, the later nodes make no difference, and nothing is
    sent. *)
Theorem executeShowSeries_node_failure
    (q : ShowSeriesQuery) (seq : Z) (w : World) (names : list string)
    (pre post : list (Z * list Z)) (id : Z) (pts : list Z) (arr : list string) (e : error) :
  MatchMeasurements env (q_Database q) = (names, None) ->
  (forall fn acc,
     EachDBNodes env (q_Database q) fn acc
     = Series.eachNode (pre ++ (id, pts) :: post) fn acc) ->
  (forall i p, In (i, p) pre -> snd (ShowSeries env i (q_Database q) p names) = None) ->
  ShowSeries env id (q_Database q) pts names = (arr, Some e) ->
  Series.executeShowSeries env q seq w = Done (Some e) (record (EvError (Some e)) w)
  /\ Series.eachNode (pre ++ (id, pts) :: post) (Series.callback env q names) (false, [])
     = (Some e, (true, [])).
Proof.
  intros Hmatch Hfan Hok Hfail.
  pose proof (eachNode_callback_fails q names pre post id pts arr e [] Hok Hfail) as Hrun.
  split; [|exact Hrun].
  unfold Series.executeShowSeries. rewrite Hmatch, Hfan, Hrun. reflexivity.
Qed.

Lemma limitStringSlice_negative_offset (s : list string) (offset limit : Z) :
  offset < 0 -> limitStringSlice s offset limit = None.
Proof.
  intros Hneg. unfold limitStringSlice.
  destruct (Z.geb_spec offset (Z.of_nat (length s))); [lia|].
  destruct (Z.leb_spec 0 offset); [lia|]. reflexivity.
Qed.

(** X19: a negative offset makes SHOW SERIES panic with a slice-bounds
    error once the measurements matched and the nodes answered, whatever
    the limit and also when no series key was collected; nothing is
    sent. *)
Theorem executeShowSeries_negative_offset
    (q : ShowSeriesQuery) (seq : Z) (w : World)
    (names : list string) (acc : SeriesAcc) :
  MatchMeasurements env (q_Database q) = (names, None) ->
  EachDBNodes env (q_Database q) (Series.callback env q names) (false, [])
  = (None, acc) ->
  q_Offset q < 0 ->
  Series.executeShowSeries env q seq w = Panic Series.errSliceBounds w.
Proof.
  intros Hmatch Hfan Hneg. unfold Series.executeShowSeries. rewrite Hmatch, Hfan.
  destruct acc as [flag series].
  rewrite limitStringSlice_negative_offset by exact Hneg. reflexivity.
Qed.

End SeriesFacts.

Lemma executeShowSeries_collects_witness :
  exists keys,
    Sorted String.le keys
    /\ keys ≡ₚ collected Scenario.twoNodes "db0" ["cpu"] [(1, [0]); (2, [1])]
    /\ (forall nodes', [(1, [0]); (2, [1])] ≡ₚ nodes' ->
          sort_Strings (collected Scenario.twoNodes "db0" ["cpu"] nodes') = keys)
    /\ Series.executeShowSeries Scenario.twoNodes
         {| q_Database := "db0"; q_Offset := 0; q_Limit := 0 |} 4 Scenario.start
       = match keys with
         | [] => Done None Scenario.start
         | _ => let '(r, w') :=
                  ctx_Send (series_sink Scenario.twoNodes)
                    {| Series := [seriesRow keys]; Partial := false; StatementID := 0 |}
                    4 Scenario.start in
                Done r w'
         end.
Proof.
  apply (executeShowSeries_collects Scenario.twoNodes
           {| q_Database := "db0"; q_Offset := 0; q_Limit := 0 |} 4 Scenario.start
           ["cpu"] [(1, [0]); (2, [1])]).
  - reflexivity.
  - reflexivity.
  - intros id pts _. simpl. destruct (id =? 1); reflexivity.
  - reflexivity.
  - reflexivity.
Defined.

Lemma executeShowSeries_node_failure_witness :
  Series.executeShowSeries Cases.oneDown
    {| q_Database := "db0"; q_Offset := 0; q_Limit := 0 |} 4 Scenario.start
  = Done (Some (mkError IdOther "connection refused"))
      (record (EvError (Some (mkError IdOther "connection refused"))) Scenario.start)
  /\ Series.eachNode ([(1, [0])] ++ (2, [1]) :: [(3, [2])])
       (Series.callback Cases.oneDown
          {| q_Database := "db0"; q_Offset := 0; q_Limit := 0 |} ["cpu"]) (false, [])
     = (Some (mkError IdOther "connection refused"), (true, [])).
Proof.
  apply (executeShowSeries_node_failure Cases.oneDown
           {| q_Database := "db0"; q_Offset := 0; q_Limit := 0 |} 4 Scenario.start
           ["cpu"] [(1, [0])] [(3, [2])] 2 [1] []
           (mkError IdOther "connection refused")).
  - reflexivity.
  - reflexivity.
  - intros i p [Heq|[]]. injection Heq as <- <-. reflexivity.
  - reflexivity.
Defined.

Lemma executeShowSeries_negative_offset_witness :
  Series.executeShowSeries Scenario.twoNodes
    {| q_Database := "db0"; q_Offset := -1; q_Limit := 0 |} 4 Scenario.start
  = Panic Series.errSliceBounds Scenario.start.
Proof.
  apply (executeShowSeries_negative_offset Scenario.twoNodes
           {| q_Database := "db0"; q_Offset := -1; q_Limit := 0 |} 4 Scenario.start
           ["cpu"] (false, ["cpu,host=b"; "cpu,host=a"; "cpu,host=c"])).
  - reflexivity.
  - reflexivity.
  - reflexivity.
Defined.

(** ** Normalizing a measurement *)

(** X20: when [normalizeMeasurement] returns nil, the measurement has a
    database and a retention policy, and the meta client answered for
    its database without error.  A database or policy the measurement
    names itself is kept; a missing database is the default database; a
    missing policy is the default policy of the call if there is one,
    else the default policy of the database.  Nothing else of the
    measurement changes, and normalizing the result again, with whatever
    defaults, changes nothing. *)
Theorem normalizeMeasurement_normalizes
    (env : NormalizeEnv) (m m' : Measurement) (defaultDatabase defaultRetentionPolicy : string) :
  Normalize.normalizeMeasurement env m defaultDatabase defaultRetentionPolicy
  = Some (None, m') ->
  m_Database m' <> "" /\ m_RetentionPolicy m' <> ""
  /\ snd (meta_Database env (m_Database m')) = None
  /\ m_Database m' = (if String.eqb (m_Database m) "" then defaultDatabase else m_Database m)
  /\ (m_RetentionPolicy m <> "" -> m_RetentionPolicy m' = m_RetentionPolicy m)
  /\ (m_RetentionPolicy m = "" -> defaultRetentionPolicy <> "" ->
      m_RetentionPolicy m' = defaultRetentionPolicy)
  /\ (m_RetentionPolicy m = "" -> defaultRetentionPolicy = "" ->
      exists di, fst (meta_Database env (m_Database m')) = Some di
                 /\ m_RetentionPolicy m' = di_DefaultRetentionPolicy di)
  /\ m_Name m' = m_Name m /\ m_hasRegex m' = m_hasRegex m
  /\ m_IsTarget m' = m_IsTarget m /\ m_SystemIterator m' = m_SystemIterator m
  /\ forall d rp, Normalize.normalizeMeasurement env m' d rp = Some (None, m').
Proof.
  unfold Normalize.normalizeMeasurement at 1.
  destruct (negb (m_IsTarget m) && String.eqb (m_Name m) ""
            && String.eqb (m_SystemIterator m) "" && negb (m_hasRegex m)) eqn:Hvalid;
    [discriminate|].
  set (m1 := if String.eqb (m_Database m) "" then _ else m).
  assert (Hm1 : m_Database m1 = (if String.eqb (m_Database m) "" then defaultDatabase
                                 else m_Database m)
                /\ m_RetentionPolicy m1 = m_RetentionPolicy m
                /\ m_Name m1 = m_Name m /\ m_hasRegex m1 = m_hasRegex m
                /\ m_IsTarget m1 = m_IsTarget m /\ m_SystemIterator m1 = m_SystemIterator m).
  { subst m1. destruct (String.eqb (m_Database m) ""); simpl; auto 10. }
  destruct Hm1 as (Hdb & Hrp & Hname & Hregex & Htarget & Hsys).
  destruct (String.eqb_spec (m_Database m1) "") as [|Hdb1]; [discriminate|].
  destruct (meta_Database env (m_Database m1)) as [di [err|]] eqn:Hmeta; [discriminate|].
  assert (Hfix : forall m2,
            m_Database m2 = m_Database m1 -> m_RetentionPolicy m2 <> "" ->
            m_Name m2 = m_Name m -> m_hasRegex m2 = m_hasRegex m ->
            m_IsTarget m2 = m_IsTarget m -> m_SystemIterator m2 = m_SystemIterator m ->
            forall d rp, Normalize.normalizeMeasurement env m2 d rp = Some (None, m2)).
  { intros m2 H2db H2rp H2name H2regex H2target H2sys d rp.
    unfold Normalize.normalizeMeasurement.
    rewrite H2target, H2name, H2sys, H2regex, Hvalid.
    destruct (String.eqb_spec (m_Database m2) "") as [Heq|_]; [congruence|].
    destruct (String.eqb_spec (m_Database m2) "") as [Heq|_]; [congruence|].
    rewrite H2db, Hmeta.
    destruct (String.eqb_spec (m_RetentionPolicy m2) "") as [Heq|_]; [contradiction|].
    reflexivity. }
  rewrite Hrp.
  destruct (String.eqb_spec (m_RetentionPolicy m) "") as [Hnone|Hsome].
  - destruct (String.eqb_spec defaultRetentionPolicy "") as [Hd|Hd]; simpl.
    + destruct di as [di|]; [|discriminate].
      destruct (String.eqb_spec (di_DefaultRetentionPolicy di) "") as [Hdi|Hdi]; simpl;
        [discriminate|].
      intros H. injection H as <-. simpl. rewrite Hmeta. simpl.
      split; [exact Hdb1|]. split; [exact Hdi|]. split; [reflexivity|].
      split; [exact Hdb|]. split; [intros H; contradiction|].
      split; [intros _ H; contradiction|]. split; [eauto|].
      repeat (split; [assumption|]).
      apply Hfix; simpl; auto.
    + intros H. injection H as <-. simpl. rewrite Hmeta. simpl.
      split; [exact Hdb1|]. split; [exact Hd|]. split; [reflexivity|].
      split; [exact Hdb|]. split; [intros H; contradiction|].
      split; [reflexivity|]. split; [intros _ H; contradiction|].
      repeat (split; [assumption|]).
      apply Hfix; simpl; auto.
  - intros H. injection H as <-. rewrite Hmeta. simpl.
    split; [exact Hdb1|]. split; [congruence|]. split; [reflexivity|].
    split; [exact Hdb|]. split; [intros _; exact Hrp|].
    split; [intros H; contradiction|]. split; [intros H; contradiction|].
    repeat (split; [assumption|]).
    apply Hfix; auto. congruence.
Qed.

Lemma normalizeMeasurement_normalizes_witness :
  m_Database (mkMeasurement "db0" "autogen" "cpu" false false "") <> ""
  /\ m_RetentionPolicy (mkMeasurement "db0" "autogen" "cpu" false false "") <> ""
  /\ snd (meta_Database Cases.oneDatabase
            (m_Database (mkMeasurement "db0" "autogen" "cpu" false false ""))) = None
  /\ m_Database (mkMeasurement "db0" "autogen" "cpu" false false "")
     = (if String.eqb (m_Database (mkMeasurement "" "" "cpu" false false "")) ""
        then "db0" else m_Database (mkMeasurement "" "" "cpu" false false ""))
  /\ (m_RetentionPolicy (mkMeasurement "" "" "cpu" false false "") <> "" ->
      m_RetentionPolicy (mkMeasurement "db0" "autogen" "cpu" false false "")
      = m_RetentionPolicy (mkMeasurement "" "" "cpu" false false ""))
  /\ (m_RetentionPolicy (mkMeasurement "" "" "cpu" false false "") = "" -> "" <> "" ->
      m_RetentionPolicy (mkMeasurement "db0" "autogen" "cpu" false false "") = "")
  /\ (m_RetentionPolicy (mkMeasurement "" "" "cpu" false false "") = "" -> "" = "" ->
      exists di,
        fst (meta_Database Cases.oneDatabase
               (m_Database (mkMeasurement "db0" "autogen" "cpu" false false ""))) = Some di
        /\ m_RetentionPolicy (mkMeasurement "db0" "autogen" "cpu" false false "")
           = di_DefaultRetentionPolicy di)
  /\ m_Name (mkMeasurement "db0" "autogen" "cpu" false false "")
     = m_Name (mkMeasurement "" "" "cpu" false false "")
  /\ m_hasRegex (mkMeasurement "db0" "autogen" "cpu" false false "")
     = m_hasRegex (mkMeasurement "" "" "cpu" false false "")
  /\ m_IsTarget (mkMeasurement "db0" "autogen" "cpu" false false "")
     = m_IsTarget (mkMeasurement "" "" "cpu" false false "")
  /\ m_SystemIterator (mkMeasurement "db0" "autogen" "cpu" false false "")
     = m_SystemIterator (mkMeasurement "" "" "cpu" false false "")
  /\ forall d rp,
       Normalize.normalizeMeasurement Cases.oneDatabase
         (mkMeasurement "db0" "autogen" "cpu" false false "") d rp
       = Some (None, mkMeasurement "db0" "autogen" "cpu" false false "").
Proof.
  apply (normalizeMeasurement_normalizes Cases.oneDatabase
           (mkMeasurement "" "" "cpu" false false "")
           (mkMeasurement "db0" "autogen" "cpu" false false "") "db0" "").
  reflexivity.
Defined.

(** ** The periodic statistics *)

Section StatsFacts.
Variable env : StatEnv.

Lemma eachDatabase_length (databases : list string) :
  forall h r calls calls',
    Stats.eachDatabase env databases h r calls = Some (None, calls') ->
    length calls' = (length calls + 2 * length databases)%nat.
Proof.
  induction databases as [|db rest IH]; intros h r calls calls' H; simpl in H.
  - injection H as <-. simpl. lia.
  - destruct (stat_MatchMeasurements env db) as [mis|err]; [|discriminate].
    destruct (stat_SeriesCardinality env db) as [rows|err]; [|discriminate].
    destruct (Stats.seriesNumbers rows h r) as [[h' r']|]; [|discriminate].
    apply IH in H. rewrite H, length_app. simpl. lia.
Qed.

Lemma Statistics_step (buffer : list Byte.byte) (st : StatState) :
  0 <= dbStatCount st < 30 ->
  match Stats.Statistics env buffer st with
  | Returned buffer' None st' =>
      dbStatCount st' = (dbStatCount st + 1) mod 30
      /\ buffer' = CollectDatabaseStatistics env buffer
      /\ (dbStatCount st <> 0 -> stat_calls st' = stat_calls st)
      /\ length (stat_calls st')
         = (length (stat_calls st)
            + 2 * length (stat_Databases env) * (if (dbStatCount st =? 0)%Z then 1 else 0))%nat
  | Returned buffer' (Some _) st' =>
      dbStatCount st = 0 /\ dbStatCount st' = 0 /\ buffer' = []
  | Panicked => dbStatCount st = 0
  end.
Proof.
  intros Hc. unfold Stats.Statistics.
  assert (Hrem : Z.rem (dbStatCount st) 30 = dbStatCount st).
  { apply Z.rem_small. lia. }
  rewrite Hrem.
  assert (Hint : int64 (dbStatCount st + 1) = dbStatCount st + 1).
  { unfold int64. rewrite Z.mod_small; lia. }
  rewrite Hint.
  destruct (Z.eqb_spec (dbStatCount st) 0) as [H0|Hn0]; simpl.
  - destruct (Stats.eachDatabase env (stat_Databases env) 0 0 (stat_calls st))
      as [[[err|] calls]|] eqn:Hrun; simpl.
    + auto.
    + rewrite H0. split; [reflexivity|]. split; [reflexivity|].
      split; [intros H; contradiction|].
      rewrite (eachDatabase_length _ _ _ _ _ Hrun). lia.
    + exact H0.
  - split; [|split; [reflexivity|split; [reflexivity|lia]]].
    destruct (Z.eqb_spec (dbStatCount st + 1) 30) as [H30|H30].
    + rewrite H30. reflexivity.
    + rewrite Z.mod_small; lia.
Qed.

Lemma calls_counter (k : nat) :
  forall (buffer buffer' : list Byte.byte) (st st' : StatState),
    0 <= dbStatCount st < 30 ->
    Stats.calls env k buffer st = Some (buffer', st') ->
    dbStatCount st' = (dbStatCount st + Z.of_nat k) mod 30
    /\ length (stat_calls st')
       = (length (stat_calls st)
          + 2 * length (stat_Databases env) * Stats.fullRounds k (dbStatCount st))%nat.
Proof.
  induction k as [|k IH]; intros buffer buffer' st st' Hc Hrun.
  - simpl in Hrun. injection Hrun as <- <-. simpl.
    rewrite Z.add_0_r, Z.mod_small by lia. split; [reflexivity|lia].
  - simpl in Hrun.
    pose proof (Statistics_step buffer st Hc) as Hstep.
    destruct (Stats.Statistics env buffer st) as [b1 [e|] st1|]; try discriminate Hrun.
    destruct Hstep as (Hc1 & _ & _ & Hlen).
    assert (Hc1' : 0 <= dbStatCount st1 < 30).
    { rewrite Hc1. apply Z.mod_pos_bound. lia. }
    destruct (IH _ _ _ _ Hc1' Hrun) as [Hcount Hcalls].
    split.
    + rewrite Hcount, Hc1, Zplus_mod_idemp_l. f_equal. lia.
    + rewrite Hcalls, Hlen, Hc1. cbn [Stats.fullRounds].
      destruct (dbStatCount st =? 0); lia.
Qed.

Lemma fullRounds_period (c : Z) : 0 <= c < 30 -> Stats.fullRounds 30 c = 1%nat.
Proof.
  intros Hc.
  assert (Hall : forallb (fun n => Nat.eqb (Stats.fullRounds 30 (Z.of_nat n)) 1) (seq 0 30)
                 = true) by (vm_compute; reflexivity).
  rewrite forallb_forall in Hall.
  specialize (Hall (Z.to_nat c)). rewrite Z2Nat.id in Hall by lia.
  apply Nat.eqb_eq, Hall, in_seq. lia.
Qed.

(** X21: [Statistics] goes through the databases only when
    [dbStatCount] stands at 0.  At any other count the call cannot fail
    or panic, tells [statistics.DatabaseStat] nothing and returns the
    collected buffer.  A call that returns nil moves the counter from
    [c] to [(c + 1) mod 30]; a call that fails returns a nil buffer and
    leaves the counter at 0, so the next call tries the databases again.
    Hence of any 30 calls in a row that return nil exactly one goes
    through the databases, telling [statistics.DatabaseStat] two numbers
    for every database. *)
Theorem Statistics_cadence (buffer : list Byte.byte) (st : StatState) :
  0 <= dbStatCount st < 30 ->
  match Stats.Statistics env buffer st with
  | Returned buffer' None st' =>
      dbStatCount st' = (dbStatCount st + 1) mod 30
      /\ buffer' = CollectDatabaseStatistics env buffer
      /\ (dbStatCount st <> 0 -> stat_calls st' = stat_calls st)
  | Returned buffer' (Some _) st' =>
      dbStatCount st = 0 /\ dbStatCount st' = 0 /\ buffer' = []
  | Panicked => dbStatCount st = 0
  end
  /\ forall buffer' st',
       Stats.calls env 30 buffer st = Some (buffer', st') ->
       dbStatCount st' = dbStatCount st
       /\ length (stat_calls st')
          = (length (stat_calls st) + 2 * length (stat_Databases env))%nat.
Proof.
  intros Hc. split.
  - pose proof (Statistics_step buffer st Hc) as Hstep.
    destruct (Stats.Statistics env buffer st) as [b1 [e|] st1|]; [exact Hstep| |exact Hstep].
    destruct Hstep as (H1 & H2 & H3 & _). auto.
  - intros buffer' st' Hrun.
    destruct (calls_counter 30 _ _ _ _ Hc Hrun) as [Hcount Hlen].
    rewrite fullRounds_period in Hlen by exact Hc. split; [|lia].
    rewrite Hcount. change (Z.of_nat 30) with (1 * 30).
    rewrite Z_mod_plus_full, Z.mod_small; lia.
Qed.

End StatsFacts.

Lemma Statistics_cadence_witness :
  match Stats.Statistics Cases.twoDatabases [] (mkStatState 29 []) with
  | Returned buffer' None st' =>
      dbStatCount st' = (dbStatCount (mkStatState 29 []) + 1) mod 30
      /\ buffer' = CollectDatabaseStatistics Cases.twoDatabases []
      /\ (dbStatCount (mkStatState 29 []) <> 0 ->
          stat_calls st' = stat_calls (mkStatState 29 []))
  | Returned buffer' (Some _) st' =>
      dbStatCount (mkStatState 29 []) = 0 /\ dbStatCount st' = 0 /\ buffer' = []
  | Panicked => dbStatCount (mkStatState 29 []) = 0
  end
  /\ forall buffer' st',
       Stats.calls Cases.twoDatabases 30 [] (mkStatState 29 []) = Some (buffer', st') ->
       dbStatCount st' = dbStatCount (mkStatState 29 [])
       /\ length (stat_calls st')
          = (length (stat_calls (mkStatState 29 []))
             + 2 * length (stat_Databases Cases.twoDatabases))%nat.
Proof.
  apply (Statistics_cadence Cases.twoDatabases [] (mkStatState 29 [])).
  simpl. lia.
Defined.

(** The series numbers of "db1", whose rows are not recognised, are
    those of "db0". *)
Example Statistics_carries_numbers :
  Stats.Statistics Cases.twoDatabases [] (mkStatState 0 [])
  = Returned [] None
      (mkStatState 1
         [SetMeasurementsNum "db0" 2; SetSeriesNum "db0" 7 5;
          SetMeasurementsNum "db1" 1; SetSeriesNum "db1" 7 5]).
Proof. vm_compute. reflexivity. Qed.

(** ** SHOW QUERIES: the hosts of a combined entry *)

Lemma combineAll_tagged (nodes : list (string * list QueryExeInfo)) :
  forall m,
    foldl (fun resMap '(host, infos) => combineQueryExeInfos resMap infos host) m nodes
    = foldl (fun m hi => combineQueryExeInfo (fst hi) m (snd hi)) m (tagged nodes).
Proof.
  induction nodes as [|[host infos] nodes IH]; intros m; [reflexivity|].
  unfold tagged. simpl. rewrite foldl_app. fold (tagged nodes). rewrite <- IH. f_equal.
  unfold combineQueryExeInfos. clear. revert m.
  induction infos as [|info infos IH]; intros m; [reflexivity|]. simpl. apply IH.
Qed.

Lemma entry_sound_mono (seen more : list (string * QueryExeInfo)) (q : Z)
    (e : combinedQueryExeInfo) :
  entry_sound seen q e -> entry_sound (seen ++ more) q e.
Proof.
  intros (Hq & Hrun & Hkill & (h & info & Hin & Hrest)).
  split; [exact Hq|]. split; [|split].
  - intros h' Hh. destruct (Hrun h' Hh) as (i & Hi & H). exists i. split; [|exact H].
    apply in_or_app. left. exact Hi.
  - intros h' Hh. destruct (Hkill h' Hh) as (i & Hi & H). exists i. split; [|exact H].
    apply in_or_app. left. exact Hi.
  - exists h, info. split; [|exact Hrest]. apply in_or_app. left. exact Hin.
Qed.

Lemma updateHosts_sound (seen : list (string * QueryExeInfo)) (host : string)
    (info : QueryExeInfo) (e : combinedQueryExeInfo) :
  entry_sound (seen ++ [(host, info)]) (QueryID info) e ->
  Stmt info = stmt e ->
  entry_sound (seen ++ [(host, info)]) (QueryID info) (updateHosts e host (RunState info)).
Proof.
  intros (Hq & Hrun & Hkill & Hdb) Hs.
  assert (Hnew : forall st, RunState info = st ->
            reportedBy (seen ++ [(host, info)]) (QueryID info) (stmt e) st host).
  { intros st Hst. exists info. split; [apply in_or_app; right; left; reflexivity|auto]. }
  destruct (RunState info) eqn:Hst; simpl.
  - split; [exact Hq|]. split; [|split; [exact Hkill|exact Hdb]].
    simpl. intros h Hh. apply elem_of_union in Hh. destruct Hh as [Hh|Hh]; [|auto].
    apply elem_of_singleton in Hh. subst h. apply Hnew. reflexivity.
  - split; [exact Hq|]. split; [exact Hrun|]. split; [|exact Hdb].
    simpl. intros h Hh. apply elem_of_union in Hh. destruct Hh as [Hh|Hh]; [|auto].
    apply elem_of_singleton in Hh. subst h. apply Hnew. reflexivity.
  - split; [exact Hq|]. split; [exact Hrun|]. split; [exact Hkill|exact Hdb].
Qed.

Lemma updateBeginTime_sound (seen : list (string * QueryExeInfo)) (q newBegin : Z)
    (e : combinedQueryExeInfo) :
  entry_sound seen q e -> entry_sound seen q (updateBeginTime e newBegin).
Proof.
  unfold updateBeginTime. destruct (newBegin <? beginTime e); [|auto].
  intros H. exact H.
Qed.

Lemma fresh_sound (seen : list (string * QueryExeInfo)) (host : string) (info : QueryExeInfo) :
  entry_sound (seen ++ [(host, info)]) (QueryID info)
    (updateHosts
       {| qid := QueryID info; stmt := Stmt info; database := info_Database info;
          beginTime := BeginTime info; runningHosts := ∅; killedHosts := ∅ |}
       host (RunState info)).
Proof.
  apply updateHosts_sound; [|reflexivity].
  split; [reflexivity|]. split; [|split].
  - simpl. intros h Hh. apply elem_of_empty in Hh. destruct Hh.
  - simpl. intros h Hh. apply elem_of_empty in Hh. destruct Hh.
  - exists host, info. split; [apply in_or_app; right; left; reflexivity|]. simpl. auto.
Qed.

Lemma combineQueryExeInfo_sound (seen : list (string * QueryExeInfo)) (host : string)
    (info : QueryExeInfo) (m : gmap Z combinedQueryExeInfo) :
  registry_sound seen m ->
  registry_sound (seen ++ [(host, info)]) (combineQueryExeInfo host m info).
Proof.
  intros Hinv q. destruct (Hinv q) as [Hdom Hent].
  assert (Hseen : (exists h i, In (h, i) (seen ++ [(host, info)]) /\ QueryID i = q)
                  <-> (exists h i, In (h, i) seen /\ QueryID i = q) \/ QueryID info = q).
  { split.
    - intros (h & i & Hin & Hq). apply in_app_or in Hin. destruct Hin as [Hin|[Heq|[]]].
      + left. eauto.
      + injection Heq as <- <-. right. exact Hq.
    - intros [(h & i & Hin & Hq)|Hq].
      + exists h, i. split; [apply in_or_app; left; exact Hin|exact Hq].
      + exists host, info. split; [apply in_or_app; right; left; reflexivity|exact Hq]. }
  rewrite Hseen. clear Hseen.
  destruct (Z.eq_dec (QueryID info) q) as [Heq|Hne].
  - subst q. unfold combineQueryExeInfo.
    destruct (m !! QueryID info) as [e|] eqn:Hlook.
    + pose proof (entry_sound_mono seen [(host, info)] _ _ (Hent e eq_refl)) as He.
      destruct (String.eqb_spec (stmt e) (Stmt info)) as [Hs|Hs].
      * rewrite lookup_insert_eq. split; [split; eauto|].
        intros e' He'. injection He' as <-.
        apply updateHosts_sound; [apply updateBeginTime_sound, He|].
        unfold updateBeginTime. destruct (BeginTime info <? beginTime e); simpl; congruence.
      * destruct (BeginTime info <=? beginTime e).
        -- rewrite Hlook. split; [split; eauto|].
           intros e' He'. injection He' as <-. exact He.
        -- rewrite lookup_insert_eq. split; [split; eauto|].
           intros e' He'. injection He' as <-. apply fresh_sound.
    + rewrite lookup_insert_eq. split; [split; eauto|].
      intros e' He'. injection He' as <-. apply fresh_sound.
  - assert (Hsame : combineQueryExeInfo host m info !! q = m !! q).
    { unfold combineQueryExeInfo.
      destruct (m !! QueryID info) as [e|].
      - destruct (String.eqb (stmt e) (Stmt info)); [apply lookup_insert_ne, Hne|].
        destruct (BeginTime info <=? beginTime e); [reflexivity|apply lookup_insert_ne, Hne].
      - apply lookup_insert_ne, Hne. }
    rewrite Hsame. split.
    + rewrite Hdom. split; [auto|]. intros [H|H]; [exact H|contradiction].
    + intros e He. apply entry_sound_mono, Hent, He.
Qed.

Lemma foldl_combine_sound (l : list (string * QueryExeInfo)) :
  forall seen m,
    registry_sound seen m ->
    registry_sound (seen ++ l)
      (foldl (fun m hi => combineQueryExeInfo (fst hi) m (snd hi)) m l).
Proof.
  induction l as [|[h info] l IH]; intros seen m Hinv.
  - rewrite app_nil_r. exact Hinv.
  - simpl. replace (seen ++ (h, info) :: l) with ((seen ++ [(h, info)]) ++ l)
      by (rewrite <- app_assoc; reflexivity).
    apply IH, combineQueryExeInfo_sound, Hinv.
Qed.

Lemma In_tagged (nodes : list (string * list QueryExeInfo)) (h : string) (info : QueryExeInfo) :
  In (h, info) (tagged nodes) <-> exists infos, In (h, infos) nodes /\ In info infos.
Proof.
  unfold tagged. rewrite in_flat_map. split.
  - intros ([h' infos] & Hnode & Hin). simpl in Hin. apply in_map_iff in Hin.
    destruct Hin as (i & Heq & Hi). injection Heq as -> ->. eauto.
  - intros (infos & Hnode & Hi). exists (h, infos). split; [exact Hnode|].
    simpl. apply in_map. exact Hi.
Qed.

(** X22: the map [executeShowQueriesStatement] builds from the nodes'
    reports has an entry for exactly the query ids some node reports.
    An entry carries its query id, and a statement text and database
    taken from one report of that id; a host is among its running
    (killed) hosts only if that host reported this id with this
    statement text as running (killed). *)
Theorem combineAll_hosts_sound (nodes : list (string * list QueryExeInfo)) (q : Z) :
  (is_Some (combineAll nodes !! q)
   <-> exists h infos info, In (h, infos) nodes /\ In info infos /\ QueryID info = q)
  /\ forall e,
       combineAll nodes !! q = Some e ->
       qid e = q
       /\ (forall h, h ∈ runningHosts e ->
             exists infos info,
               In (h, infos) nodes /\ In info infos /\ QueryID info = q
               /\ Stmt info = stmt e /\ RunState info = Running)
       /\ (forall h, h ∈ killedHosts e ->
             exists infos info,
               In (h, infos) nodes /\ In info infos /\ QueryID info = q
               /\ Stmt info = stmt e /\ RunState info = Killed)
       /\ (exists h infos info,
             In (h, infos) nodes /\ In info infos /\ QueryID info = q
             /\ Stmt info = stmt e /\ info_Database info = database e).
Proof.
  assert (Hinv : registry_sound (tagged nodes) (combineAll nodes)).
  { unfold combineAll. rewrite combineAll_tagged.
    apply (foldl_combine_sound (tagged nodes) [] ∅).
    intros q'. split.
    - rewrite lookup_empty. split; [intros [x Hx]; discriminate|].
      intros (h & i & [] & _).
    - intros e He. rewrite lookup_empty in He. discriminate. }
  destruct (Hinv q) as [Hdom Hent]. split.
  - rewrite Hdom. split.
    + intros (h & info & Hin & Hq). apply In_tagged in Hin.
      destruct Hin as (infos & Hnode & Hi). eauto 6.
    + intros (h & infos & info & Hnode & Hi & Hq). exists h, info.
      split; [apply In_tagged; eauto|exact Hq].
  - intros e He. destruct (Hent e He) as (Hq & Hrun & Hkill & (h & info & Hin & Hrest)).
    split; [exact Hq|]. split; [|split].
    + intros h' Hh. destruct (Hrun h' Hh) as (i & Hi & H). apply In_tagged in Hi.
      destruct Hi as (infos & Hnode & Hi). eauto 6.
    + intros h' Hh. destruct (Hkill h' Hh) as (i & Hi & H). apply In_tagged in Hi.
      destruct Hi as (infos & Hnode & Hi). eauto 6.
    + apply In_tagged in Hin. destruct Hin as (infos & Hnode & Hi). eauto 8.
Qed.

(** ** Downsample policies *)

(** X23: [executeDropDownSamplingStmt] panics with a nil-pointer
    dereference exactly when the database name is valid, the meta client
    answers the policy lookup with neither a policy nor an error, and the
    statement drops all.  When it returns nil, the policy was found, it
    has a downsample policy unless the statement drops all, and the meta
    client dropped under the name of the policy found. *)
Theorem executeDropDownSamplingStmt_nil_policy
    (env : DownSampleEnv) (stmt : DropDownSampleStatement) :
  (DownSample.executeDropDownSamplingStmt env stmt = None
   <-> ds_ValidName env (dds_DbName stmt) = true
       /\ ds_RetentionPolicy env (dds_DbName stmt) (dds_RpName stmt) = (None, None)
       /\ dds_DropAll stmt = true)
  /\ (DownSample.executeDropDownSamplingStmt env stmt = Some None ->
      exists rpi,
        ds_RetentionPolicy env (dds_DbName stmt) (dds_RpName stmt) = (Some rpi, None)
        /\ (dds_DropAll stmt = false -> HasDownSamplePolicy rpi = true)
        /\ DropDownSamplePolicy env (dds_DbName stmt) (rpi_Name rpi) (dds_DropAll stmt)
           = None).
Proof.
  unfold DownSample.executeDropDownSamplingStmt.
  destruct (ds_ValidName env (dds_DbName stmt)); simpl.
  - destruct (ds_RetentionPolicy env (dds_DbName stmt) (dds_RpName stmt))
      as [[rpi|] [err|]]; simpl.
    + split; [split; [discriminate|intros (_ & H & _); discriminate]|discriminate].
    + destruct (dds_DropAll stmt); simpl.
      * split; [split; [discriminate|intros (_ & H & _); discriminate]|].
        intros H. injection H as H. exists rpi. split; [reflexivity|].
        split; [discriminate|exact H].
      * destruct (HasDownSamplePolicy rpi) eqn:Hhas; simpl.
        -- split; [split; [discriminate|intros (_ & H & _); discriminate]|].
           intros H. injection H as H. exists rpi.
           split; [reflexivity|]. split; [intros _; exact Hhas|exact H].
        -- split; [split; [discriminate|intros (_ & H & _); discriminate]|discriminate].
    + split; [split; [discriminate|intros (_ & H & _); discriminate]|discriminate].
    + destruct (dds_DropAll stmt); simpl.
      * split; [split; auto|discriminate].
      * split; [split; [discriminate|intros (_ & _ & H); discriminate]|discriminate].
  - split; [split; [discriminate|intros (H & _); discriminate]|discriminate].
Qed.

Example executeDropDownSamplingStmt_all_of_unknown :
  DownSample.executeDropDownSamplingStmt Cases.downSamples
    (mkDropDownSampleStatement "db1" "" true) = None
  /\ DownSample.executeDropDownSamplingStmt Cases.downSamples
       (mkDropDownSampleStatement "db1" "" false)
     = Some (Some (ds_RpNotFound Cases.downSamples))
  /\ DownSample.executeDropDownSamplingStmt Cases.downSamples
       (mkDropDownSampleStatement "db0" "rp0" false) = Some None.
Proof. repeat split. Qed.

(** ** Creating databases and retention policies *)

Section CreateFacts.
Context {Meta : Type}.
Variable env : CreateEnv Meta.



End CreateFacts.

Example executeCreateDatabaseStatement_at_the_limit :
  Create.executeCreateDatabaseStatement (Cases.registry 2)
    (mkCreateDatabaseStatement "db2" false "" None None 0 0 0 0 [] false 1)
    [("db0", ["autogen"; "week"])]
  = (Some Create.errRpLimit, [("db0", ["autogen"; "week"])])
  /\ Create.executeCreateDatabaseStatement (Cases.registry 3)
       (mkCreateDatabaseStatement "db2" false "" None None 0 0 0 0 [] false 1)
       [("db0", ["autogen"; "week"])]
     = (None, [("db0", ["autogen"; "week"]); ("db2", ["autogen"])]).
Proof. split; reflexivity. Qed.

(** ** SHOW MEASUREMENT KEYS *)

Section ShowKeysFacts.
Variable env : KeysEnv.

Lemma propertyLoop_spec (cs : ColStoreInfo) (n : nat) :
  forall (start : nat) (keys values : list string),
    (start <= length (PrimaryKey cs))%nat ->
    (start <= length (PropertyValue cs))%nat ->
    ShowKeys.propertyLoop cs (seq start n) keys values
    = if ((start + n <=? length (PrimaryKey cs))%nat
          && (start + n <=? length (PropertyValue cs))%nat)
      then Some (keys ++ take n (drop start (PrimaryKey cs)),
                 values ++ take n (drop start (PropertyValue cs)))
      else None.
Proof.
  induction n as [|n IH]; intros start keys values Hk Hv.
  - simpl. rewrite Nat.add_0_r.
    destruct (Nat.leb_spec start (length (PrimaryKey cs))); [|lia].
    destruct (Nat.leb_spec start (length (PropertyValue cs))); [|lia].
    simpl. rewrite !app_nil_r. reflexivity.
  - cbn [seq ShowKeys.propertyLoop].
    destruct (PrimaryKey cs !! start) as [k|] eqn:Hpk.
    + pose proof (lookup_lt_Some _ _ _ Hpk) as Hlt.
      destruct (PropertyValue cs !! start) as [v|] eqn:Hpv.
      * pose proof (lookup_lt_Some _ _ _ Hpv) as Hlt'.
        rewrite IH by lia.
        replace (S start + n)%nat with (start + S n)%nat by lia.
        destruct ((start + S n <=? length (PrimaryKey cs))%nat
                  && (start + S n <=? length (PropertyValue cs))%nat); [|reflexivity].
        rewrite (drop_S _ _ _ Hpk), (drop_S _ _ _ Hpv). simpl.
        rewrite <- !app_assoc. reflexivity.
      * apply lookup_ge_None in Hpv.
        destruct (Nat.leb_spec (start + S n) (length (PropertyValue cs))); [lia|].
        rewrite andb_false_r. reflexivity.
    + apply lookup_ge_None in Hpk.
      destruct (Nat.leb_spec (start + S n) (length (PrimaryKey cs))); [lia|].
      reflexivity.
Qed.

(** X25: SHOW MEASUREMENT KEYS with PROPERTY on a column-store
    measurement lists under [property_key] the first columns of the
    primary key, as many as there are property keys, and not the
    property keys; it panics with an index out of range when there are
    more property keys than primary-key columns or than property
    values. *)
Theorem executeShowMeasurementKeysStatement_property
    (stmt : ShowMeasurementKeysStatement) (mst : MeasurementInfo) (cs : ColStoreInfo) :
  ShowKeys.findMeasurement env stmt = inr (Some mst) ->
  smk_Name stmt = "PROPERTY" ->
  EngineType mst = COLUMNSTORE env ->
  mst_ColStoreInfo mst = Some cs ->
  ShowKeys.executeShowMeasurementKeysStatement env stmt
  = if ((length (PropertyKey cs) <=? length (PrimaryKey cs))%nat
        && (length (PropertyKey cs) <=? length (PropertyValue cs))%nat)
    then KeysReturned
           [{| kr_Columns := ["property_key"; "property_value"];
               kr_Values :=
                 [[CInterfaces (take (length (PropertyKey cs)) (PrimaryKey cs));
                   CInterfaces (take (length (PropertyKey cs)) (PropertyValue cs))]] |}]
           None
    else KeysPanicked.
Proof.
  intros Hfind Hname Hengine Hcs.
  unfold ShowKeys.executeShowMeasurementKeysStatement. rewrite Hfind, Hname.
  unfold ShowKeys.keysOf. simpl String.eqb. cbv iota.
  rewrite Hengine, Z.eqb_refl. simpl negb. cbv iota.
  unfold ShowKeys.getProperty. rewrite Hcs.
  rewrite propertyLoop_spec by lia. simpl Nat.add.
  destruct ((length (PropertyKey cs) <=? length (PrimaryKey cs))%nat
            && (length (PropertyKey cs) <=? length (PropertyValue cs))%nat); reflexivity.
Qed.

(** X26: SHOW MEASUREMENT KEYS with SCHEMA panics when the measurement
    has no shard key, when the measurement named in [MstVersions] is not
    in [Measurements], and when a column-store measurement has no
    column-store information.  Otherwise it returns one row with the
    keys, type and shard group of the first shard key only, the engine
    type, and for a column-store measurement the primary key and the
    sort key. *)
Theorem executeShowMeasurementKeysStatement_schema
    (stmt : ShowMeasurementKeysStatement) (mst : option MeasurementInfo) :
  ShowKeys.findMeasurement env stmt = inr mst ->
  smk_Name stmt = "SCHEMA" ->
  ShowKeys.executeShowMeasurementKeysStatement env stmt
  = match mst with
    | None => KeysPanicked
    | Some mst =>
        match ShardKeys mst with
        | [] => KeysPanicked
        | sk :: _ =>
            let shard := [CStrings (ShardKey sk); CString (sk_Type sk);
                          CUint64 (ShardGroup sk);
                          CString (EngineType2String env (EngineType mst))] in
            if EngineType mst =? COLUMNSTORE env then
              match mst_ColStoreInfo mst with
              | None => KeysPanicked
              | Some cs =>
                  KeysReturned
                    [{| kr_Columns := ["shard_key"; "type"; "ShardGroup"; "engine_type";
                                       "primary_key"; "sort_key"];
                        kr_Values := [shard ++ [CInterfaces (PrimaryKey cs);
                                                CInterfaces (SortKey cs)]] |}]
                    None
              end
            else
              KeysReturned
                [{| kr_Columns := ["shard_key"; "type"; "ShardGroup"; "engine_type"];
                    kr_Values := [shard] |}]
                None
        end
    end.
Proof.
  intros Hfind Hname.
  unfold ShowKeys.executeShowMeasurementKeysStatement. rewrite Hfind, Hname.
  unfold ShowKeys.keysOf. simpl String.eqb. cbv iota.
  destruct mst as [mst|]; [|reflexivity].
  unfold ShowKeys.schemaRow, ShowKeys.cell, ShowKeys.getShardKey, ShowKeys.getPrimaryKey,
    ShowKeys.getSortKey, ShowKeys.getEngineType.
  destruct (ShardKeys mst) as [|sk rest]; [reflexivity|]. simpl.
  destruct (EngineType mst =? COLUMNSTORE env); [|reflexivity].
  destruct (mst_ColStoreInfo mst) as [cs|]; reflexivity.
Qed.

End ShowKeysFacts.

Lemma executeShowMeasurementKeysStatement_property_witness :
  ShowKeys.executeShowMeasurementKeysStatement Cases.keysEnv
    (mkShowMeasurementKeysStatement "PROPERTY" "db0" "" "cpu")
  = if ((length ["compression"] <=? length ["time"; "host"])%nat
        && (length ["compression"] <=? length ["zstd"])%nat)
    then KeysReturned
           [{| kr_Columns := ["property_key"; "property_value"];
               kr_Values :=
                 [[CInterfaces (take (length ["compression"]) ["time"; "host"]);
                   CInterfaces (take (length ["compression"]) ["zstd"])]] |}]
           None
    else KeysPanicked.
Proof.
  apply (executeShowMeasurementKeysStatement_property Cases.keysEnv
           (mkShowMeasurementKeysStatement "PROPERTY" "db0" "" "cpu")
           Cases.columnStoreCpu
           {| PrimaryKey := ["time"; "host"]; SortKey := ["time"];
              PropertyKey := ["compression"]; PropertyValue := ["zstd"] |}).
  - vm_compute. reflexivity.
  - reflexivity.
  - reflexivity.
  - reflexivity.
Defined.

Lemma executeShowMeasurementKeysStatement_schema_witness :
  ShowKeys.executeShowMeasurementKeysStatement Cases.keysEnv
    (mkShowMeasurementKeysStatement "SCHEMA" "db0" "autogen" "mem")
  = KeysReturned
      [{| kr_Columns := ["shard_key"; "type"; "ShardGroup"; "engine_type"];
          kr_Values := [[CStrings ["host"]; CString "hash"; CUint64 1;
                         CString "tsstore"]] |}]
      None.
Proof.
  apply (executeShowMeasurementKeysStatement_schema Cases.keysEnv
           (mkShowMeasurementKeysStatement "SCHEMA" "db0" "autogen" "mem")
           (Some Cases.rowStoreMem)).
  - vm_compute. reflexivity.
  - reflexivity.
Defined.

Example executeShowMeasurementKeysStatement_schema_without_shard_key :
  ShowKeys.executeShowMeasurementKeysStatement Cases.keysEnv
    (mkShowMeasurementKeysStatement "SCHEMA" "db0" "" "cpu")
  = KeysPanicked.
Proof. vm_compute. reflexivity. Qed.

(** ** SHOW SERIES EXACT CARDINALITY *)

Lemma uint64_add_l (a b : Z) : uint64 (uint64 a + b) = uint64 (a + b).
Proof. unfold uint64. apply Zplus_mod_idemp_l. Qed.

Lemma uint64_small (n : Z) : 0 <= n < 2 ^ 64 -> uint64 n = n.
Proof. intros H. unfold uint64. apply Z.mod_small. exact H. Qed.

Section ExactFacts.
Variable env : ExactEnv.
Variable database : string.
Variable names : list string.

Lemma addList_lookup (l : list (string * Z)) :
  NoDup (l.*1) ->
  forall (ret : gmap string Z) (name : string),
    foldl (fun ret (entry : string * Z) =>
             match ret !! fst entry with
             | None => <[fst entry := snd entry]> ret
             | Some old => <[fst entry := uint64 (old + snd entry)]> ret
             end) ret l !! name
    = match (list_to_map l : gmap string Z) !! name with
      | None => ret !! name
      | Some n => Some (match ret !! name with
                        | None => n
                        | Some old => uint64 (old + n)
                        end)
      end.
Proof.
  induction l as [|[k n] l IH]; intros Hnd ret name; [reflexivity|].
  simpl in Hnd. apply NoDup_cons in Hnd. destruct Hnd as [Hk Hnd].
  cbn [foldl fst snd list_to_map foldr]. rewrite (IH Hnd).
  destruct (decide (name = k)) as [->|Hne].
  - rewrite (not_elem_of_list_to_map_1 _ _ Hk).
    change (uncurry insert (k, n) (list_to_map l)) with (<[k := n]> (list_to_map l : gmap string Z)).
    rewrite lookup_insert_eq.
    destruct (ret !! k); rewrite lookup_insert_eq; reflexivity.
  - change (uncurry insert (k, n) (list_to_map l)) with (<[k := n]> (list_to_map l : gmap string Z)).
    rewrite (lookup_insert_ne _ _ _ _ (not_eq_sym Hne)).
    assert (Hsame : match ret !! k with
                    | Some old => <[k := uint64 (old + n)]> ret
                    | None => <[k := n]> ret
                    end !! name = ret !! name).
    { destruct (ret !! k); apply lookup_insert_ne; congruence. }
    rewrite Hsame. reflexivity.
Qed.

Lemma addCounts_lookup (ret tmp : gmap string Z) (name : string) :
  Exact.addCounts ret tmp !! name
  = match tmp !! name with
    | None => ret !! name
    | Some n => Some (match ret !! name with
                      | None => n
                      | Some old => uint64 (old + n)
                      end)
    end.
Proof.
  unfold Exact.addCounts. rewrite addList_lookup by apply NoDup_fst_map_to_list.
  rewrite list_to_map_to_list. reflexivity.
Qed.

Lemma eachNode_callback_counts (nodes : list (Z * list Z)) :
  forall ret,
    (forall node, In node nodes ->
       snd (SeriesExactCardinality env (fst node) database (snd node) names) = None) ->
    Exact.eachNode nodes (Exact.callback env database names) (false, ret)
    = (None,
       (false,
        foldl (fun ret node =>
                 Exact.addCounts ret
                   (fst (SeriesExactCardinality env (fst node) database (snd node) names)))
              ret nodes)).
Proof.
  induction nodes as [|[id pts] nodes IH]; intros ret Hok; [reflexivity|].
  simpl. pose proof (Hok (id, pts) (or_introl eq_refl)) as Hid. simpl in Hid.
  destruct (SeriesExactCardinality env id database pts names) as [tmp err] eqn:Hs.
  simpl in Hid. subst err. simpl.
  rewrite IH by (intros node Hin; apply Hok; right; exact Hin). reflexivity.
Qed.

Lemma foldl_addCounts_lookup (name : string) (nodes : list (Z * list Z)) :
  (forall node n, In node nodes ->
     Exact.countOn env database names name node = Some n -> 0 <= n < 2 ^ 64) ->
  forall (ret : gmap string Z) (s : Z),
    (ret !! name = None /\ s = 0) \/ ret !! name = Some (uint64 s) ->
    (foldl (fun ret node =>
              Exact.addCounts ret
                (fst (SeriesExactCardinality env (fst node) database (snd node) names)))
           ret nodes !! name = None
     /\ ret !! name = None
     /\ forall node, In node nodes -> Exact.countOn env database names name node = None)
    \/ foldl (fun ret node =>
                Exact.addCounts ret
                  (fst (SeriesExactCardinality env (fst node) database (snd node) names)))
             ret nodes !! name
       = Some (uint64 (s + Exact.sumOf env database names name nodes))
       /\ (is_Some (ret !! name) \/ Exact.counted env database names name nodes).
Proof.
  induction nodes as [|node nodes IH]; intros Hrange ret s Hret.
  - simpl. rewrite Z.add_0_r. destruct Hret as [[Hnone _]|Hsome].
    + left. split; [exact Hnone|]. split; [exact Hnone|]. intros node [].
    + right. split; [exact Hsome|]. left. rewrite Hsome. eauto.
  - cbn [foldl].
    assert (Hrange' : forall node' n, In node' nodes ->
              Exact.countOn env database names name node' = Some n -> 0 <= n < 2 ^ 64).
    { intros node' n Hin. apply Hrange. right. exact Hin. }
    set (ret1 := Exact.addCounts ret _).
    assert (Hret1 : ret1 !! name
                    = match Exact.countOn env database names name node with
                      | None => ret !! name
                      | Some n => Some (match ret !! name with
                                        | None => n
                                        | Some old => uint64 (old + n)
                                        end)
                      end).
    { subst ret1. apply addCounts_lookup. }
    destruct (Exact.countOn env database names name node) as [n|] eqn:Hn.
    + pose proof (Hrange node n (or_introl eq_refl) Hn) as Hn_range.
      assert (Hnew : ret1 !! name = Some (uint64 (s + n))).
      { rewrite Hret1. destruct Hret as [[Hnone ->] | Hsome]; [rewrite Hnone | rewrite Hsome].
        - rewrite uint64_small by lia. f_equal; lia.
        - rewrite uint64_add_l. reflexivity. }
      destruct (IH Hrange' ret1 (s + n) (or_intror Hnew)) as [(_ & Hnone & _)|[Hsum _]].
      * rewrite Hnew in Hnone. discriminate.
      * right. split.
        -- rewrite Hsum. f_equal. f_equal. simpl. rewrite Hn. simpl. lia.
        -- right. exists node. split; [left; reflexivity|]. rewrite Hn. eauto.
    + assert (Hret' : (ret1 !! name = None /\ s = 0) \/ ret1 !! name = Some (uint64 s)).
      { rewrite Hret1. exact Hret. }
      destruct (IH Hrange' ret1 s Hret') as [(Hnone & Hnone1 & Hall)|[Hsum Hany]].
      * left. split; [exact Hnone|]. split; [rewrite <- Hret1; exact Hnone1|].
        intros node' [<-|Hin]; [exact Hn|apply Hall, Hin].
      * right. split.
        -- rewrite Hsum. f_equal. f_equal. simpl. rewrite Hn. simpl. lia.
        -- destruct Hany as [Hsome|(node' & Hin & Hc)].
           ++ left. rewrite <- Hret1. exact Hsome.
           ++ right. exists node'. split; [right; exact Hin|exact Hc].
Qed.

(** X27: when [EachDBNodes] runs the callback over the nodes one after
    the other and every node answers, [showSeriesExactCardinality]
    returns nil and one row for every measurement some node counts,
    named after the measurement, whose count is the sum of the nodes'
    counts wrapped around as a [uint64]; no measurement has two rows. *)
Theorem showSeriesExactCardinality_sums (nodes : list (Z * list Z)) :
  (forall fn acc, exact_EachDBNodes env database fn acc = Exact.eachNode nodes fn acc) ->
  (forall node, In node nodes ->
     snd (SeriesExactCardinality env (fst node) database (snd node) names) = None) ->
  (forall node name n, In node nodes ->
     Exact.countOn env database names name node = Some n -> 0 <= n < 2 ^ 64) ->
  exists rows,
    Exact.showSeriesExactCardinality env database names = (rows, None)
    /\ NoDup (map Name rows)
    /\ forall row,
         In row rows
         <-> exists name,
               Exact.counted env database names name nodes
               /\ row = {| Name := name; Columns := ["count"];
                           Values := [[VUint64 (uint64 (Exact.sumOf env database names
                                                          name nodes))]] |}.
Proof.
  intros Hfan Hok Hrange.
  unfold Exact.showSeriesExactCardinality.
  rewrite Hfan, (eachNode_callback_counts nodes ∅ Hok).
  set (ret := foldl _ ∅ nodes).
  assert (Hret : forall name,
            (ret !! name = None
             /\ forall node, In node nodes -> Exact.countOn env database names name node = None)
            \/ (ret !! name = Some (uint64 (Exact.sumOf env database names name nodes))
                /\ Exact.counted env database names name nodes)).
  { intros name.
    destruct (foldl_addCounts_lookup name nodes (fun node n => Hrange node name n) ∅ 0
                (or_introl (conj (lookup_empty name) eq_refl)))
      as [(Hnone & _ & Hall)|[Hsum Hany]].
    - left. auto.
    - right. split; [exact Hsum|].
      destruct Hany as [[x Hx]|Hc]; [rewrite lookup_empty in Hx; discriminate|exact Hc]. }
  eexists. split; [reflexivity|]. split.
  - rewrite map_map. simpl. apply NoDup_fst_map_to_list.
  - intros row. rewrite in_map_iff. split.
    + intros ([name n] & <- & Hin). apply list_elem_of_In, elem_of_map_to_list in Hin.
      exists name. destruct (Hret name) as [[Hnone _]|[Hsome Hc]]; [congruence|].
      split; [exact Hc|]. rewrite Hsome in Hin. injection Hin as <-. reflexivity.
    + intros (name & Hc & ->). destruct (Hret name) as [[_ Hall]|[Hsome _]].
      * destruct Hc as (node & Hin & [x Hx]). rewrite (Hall node Hin) in Hx. discriminate.
      * exists (name, uint64 (Exact.sumOf env database names name nodes)).
        split; [reflexivity|]. apply list_elem_of_In, elem_of_map_to_list, Hsome.
Qed.

End ExactFacts.

Lemma showSeriesExactCardinality_sums_witness :
  exists rows,
    Exact.showSeriesExactCardinality Cases.exactNodes "db0" ["cpu"; "mem"] = (rows, None)
    /\ NoDup (map Name rows)
    /\ forall row,
         In row rows
         <-> exists name,
               Exact.counted Cases.exactNodes "db0" ["cpu"; "mem"] name [(1, [0]); (2, [1])]
               /\ row = {| Name := name; Columns := ["count"];
                           Values := [[VUint64 (uint64 (Exact.sumOf Cases.exactNodes "db0"
                                                          ["cpu"; "mem"] name
                                                          [(1, [0]); (2, [1])]))]] |}.
Proof.
  apply (showSeriesExactCardinality_sums Cases.exactNodes "db0" ["cpu"; "mem"]
           [(1, [0]); (2, [1])]).
  - reflexivity.
  - intros node _. simpl. destruct (fst node =? 1); reflexivity.
  - intros node name n _. unfold Exact.countOn. simpl.
    destruct (fst node =? 1); simpl.
    + intros H. apply lookup_insert_Some in H. destruct H as [[_ <-]|[_ H]]; [lia|].
      apply lookup_singleton_Some in H. destruct H as [_ <-]. lia.
    + intros H. apply lookup_singleton_Some in H. destruct H as [_ <-]. lia.
Defined.

(** ** The duration SHOW QUERIES prints *)

Lemma int64_small (z : Z) : - 2 ^ 63 <= z < 2 ^ 63 -> int64 z = z.
Proof.
  intros H. unfold int64. rewrite Z.mod_small by lia. lia.
Qed.

Lemma cut_to_unit (d u : Z) :
  0 < u -> u <= d -> d < 2 ^ 63 ->
  int64 (d - Z.rem d u) mod u = 0
  /\ int64 (d - Z.rem d u) <= d < int64 (d - Z.rem d u) + u.
Proof.
  intros Hu Hd Hmax.
  rewrite Z.rem_mod_nonneg by lia.
  pose proof (Z.mod_pos_bound d u Hu) as Hmod.
  rewrite int64_small by lia.
  split; [|lia].
  rewrite (Z.mod_eq d u) by lia.
  replace (d - (d - u * (d / u))) with ((d / u) * u) by lia.
  apply Z.mod_mul. lia.
Qed.

(** X28: [getDurationString] prints the time since the query began cut
    down to a whole number of its unit, the largest of second,
    millisecond and microsecond that it reaches: what is printed is
    never more than the elapsed time and less than one unit below it.
    An elapsed time under a microsecond, also a negative one, is printed
    as it is. *)
Theorem getDurationString_truncates (env : QueriesEnv) (n : nat) (q : combinedQueryExeInfo) :
  - 2 ^ 63 <= UnixNano env n - beginTime q < 2 ^ 63 ->
  exists shown,
    Queries.getDurationString env n q = Duration_String env shown
    /\ shown mod unitOf (UnixNano env n - beginTime q) = 0
    /\ shown <= UnixNano env n - beginTime q
       < shown + unitOf (UnixNano env n - beginTime q)
    /\ (UnixNano env n - beginTime q < Microsecond -> shown = UnixNano env n - beginTime q).
Proof.
  intros Hrange. unfold Queries.getDurationString, unitOf.
  rewrite (int64_small _ Hrange).
  set (d := UnixNano env n - beginTime q) in *.
  destruct (Z.geb_spec d Second) as [Hs|Hs].
  - eexists. split; [reflexivity|].
    destruct (cut_to_unit d Second) as [Hm Hb]; [reflexivity|exact Hs|lia|].
    split; [exact Hm|]. split; [exact Hb|].
    unfold Second, Microsecond in *. lia.
  - destruct (Z.geb_spec d Millisecond) as [Hms|Hms].
    + eexists. split; [reflexivity|].
      destruct (cut_to_unit d Millisecond) as [Hm Hb]; [reflexivity|exact Hms|lia|].
      split; [exact Hm|]. split; [exact Hb|].
      unfold Millisecond, Microsecond in *. lia.
    + destruct (Z.geb_spec d Microsecond) as [Hus|Hus].
      * eexists. split; [reflexivity|].
        destruct (cut_to_unit d Microsecond) as [Hm Hb]; [reflexivity|exact Hus|lia|].
        split; [exact Hm|]. split; [exact Hb|]. lia.
      * exists d. split; [reflexivity|]. split; [apply Z.mod_1_r|].
        split; [lia|]. reflexivity.
Qed.

Lemma getDurationString_truncates_witness :
  exists shown,
    Queries.getDurationString Cases.stopwatch 0
      (mkCombined 7 "SELECT * FROM cpu" "db0" 0 ∅ ∅)
    = Duration_String Cases.stopwatch shown
    /\ shown mod unitOf (UnixNano Cases.stopwatch 0
                         - beginTime (mkCombined 7 "SELECT * FROM cpu" "db0" 0 ∅ ∅)) = 0
    /\ shown <= UnixNano Cases.stopwatch 0
                - beginTime (mkCombined 7 "SELECT * FROM cpu" "db0" 0 ∅ ∅)
       < shown + unitOf (UnixNano Cases.stopwatch 0
                         - beginTime (mkCombined 7 "SELECT * FROM cpu" "db0" 0 ∅ ∅))
    /\ (UnixNano Cases.stopwatch 0
        - beginTime (mkCombined 7 "SELECT * FROM cpu" "db0" 0 ∅ ∅) < Microsecond ->
        shown = UnixNano Cases.stopwatch 0
                - beginTime (mkCombined 7 "SELECT * FROM cpu" "db0" 0 ∅ ∅)).
Proof.
  apply (getDurationString_truncates Cases.stopwatch 0
           (mkCombined 7 "SELECT * FROM cpu" "db0" 0 ∅ ∅)).
  simpl. lia.
Defined.

Example getDurationString_three_seconds :
  Queries.getDurationString Cases.stopwatch 0 (mkCombined 7 "SELECT * FROM cpu" "db0" 0 ∅ ∅)
  = "3s".
Proof. reflexivity. Qed.

(** ** CREATE MEASUREMENT *)

Section CreateMstFacts.
Variable env : MeasurementEnv.

Lemma indexLoop_spec (IndexList : list (list string)) (types : list string) :
  forall (i : nat) (Oids : list Z),
    ((i + length types <= length IndexList)%nat ->
     CreateMst.indexLoop env IndexList i types Oids <> None)
    /\ forall out,
         CreateMst.indexLoop env IndexList i types Oids = Some (inr out) ->
         exists more, out = Oids ++ more /\ indexed_from env IndexList i types more.
Proof.
  induction types as [|t types IH]; intros i Oids.
  - simpl. split; [discriminate|]. intros out H. injection H as <-.
    exists []. split; [rewrite app_nil_r; reflexivity|].
    split; [reflexivity|]. intros j t oid H. discriminate H.
  - cbn [CreateMst.indexLoop length].
    destruct (GetIndexIdByName env t) as [oid|err] eqn:Hid.
    + destruct (IH (S i) (Oids ++ [oid])) as [IHsafe IHout].
      assert (Hcons : forall out,
                CreateMst.indexLoop env IndexList (S i) types (Oids ++ [oid]) = Some (inr out) ->
                (oid = tsi_Field env ->
                 exists cols, IndexList !! i = Some cols /\ (length cols <= 1)%nat) ->
                exists more, out = Oids ++ more /\ indexed_from env IndexList i (t :: types) more).
      { intros out Hout Hfield. destruct (IHout out Hout) as (more & -> & Hlen & Hall).
        exists (oid :: more). split; [rewrite <- app_assoc; reflexivity|].
        split; [simpl; rewrite Hlen; reflexivity|].
        intros [|j] t' oid' Ht Ho; simpl in Ht, Ho.
        - injection Ht as <-. injection Ho as <-. split; [exact Hid|].
          rewrite Nat.add_0_r. exact Hfield.
        - replace (i + S j)%nat with (S i + j)%nat by lia. apply (Hall j t' oid' Ht Ho). }
      destruct (Z.eqb_spec oid (tsi_Field env)) as [Hf|Hf].
      * destruct (IndexList !! i) as [cols|] eqn:Hcols.
        -- destruct (Nat.ltb_spec 1 (length cols)) as [Hmany|Hone].
           ++ split; [discriminate|discriminate].
           ++ split; [intros Hle; apply IHsafe; lia|].
              intros out Hout. apply (Hcons out Hout). intros _. exists cols. auto.
        -- split; [|discriminate].
           intros Hle. apply lookup_ge_None in Hcols. lia.
      * split; [intros Hle; apply IHsafe; lia|].
        intros out Hout. apply (Hcons out Hout). intros H. contradiction.
    + split; [discriminate|discriminate].
Qed.

(** X29: CREATE MEASUREMENT cannot run out of the index lists when the
    statement has at least as many index lists as index types.  When the
    meta client is asked to create the measurement, the name and the
    shard key are valid, the engine type is known or not given, and the
    index ids handed over are none when the statement has no index
    list, and otherwise one for every index type, in order, each field
    index being for one column at most. *)
Theorem executeCreateMeasurementStatement_indexes (stmt : CreateMeasurementStatement) :
  ((length (cm_IndexType stmt) <= length (cm_IndexList stmt))%nat ->
   CreateMst.executeCreateMeasurementStatement env stmt <> IndexOutOfRange)
  /\ forall Oids IndexList engineType err,
       CreateMst.executeCreateMeasurementStatement env stmt
       = Asked Oids IndexList engineType err ->
       ValidMeasurementName env (cm_Name stmt) = true
       /\ cm_ValidShardKey env (cm_ShardKey stmt) = None
       /\ IndexList = cm_IndexList stmt
       /\ (cm_EngineType stmt = ""
           \/ String2EngineType env (cm_EngineType stmt) = Some engineType)
       /\ err = CreateMeasurement env stmt Oids IndexList engineType
       /\ (cm_IndexList stmt = [] -> Oids = [])
       /\ (cm_IndexList stmt <> [] ->
           indexed_from env (cm_IndexList stmt) 0 (cm_IndexType stmt) Oids).
Proof.
  unfold CreateMst.executeCreateMeasurementStatement.
  destruct (ValidMeasurementName env (cm_Name stmt)); simpl;
    [|split; [discriminate|discriminate]].
  destruct (cm_ValidShardKey env (cm_ShardKey stmt)) as [e|];
    [split; [discriminate|discriminate]|].
  destruct (indexLoop_spec (cm_IndexList stmt) (cm_IndexType stmt) 0 []) as [Hsafe Hout].
  set (engine := String2EngineType env (cm_EngineType stmt)) in *.
  assert (Hengine : forall Oids0 Oids IndexList engineType err,
            (if negb (String.eqb (cm_EngineType stmt) "") && negb (match engine with Some _ => true | None => false end)
             then Refused (CreateMst.errEngineType (cm_EngineType stmt))
             else Asked Oids0 (cm_IndexList stmt) (default 0 engine)
                    (CreateMeasurement env stmt Oids0 (cm_IndexList stmt) (default 0 engine)))
            = Asked Oids IndexList engineType err ->
            Oids = Oids0 /\ IndexList = cm_IndexList stmt
            /\ (cm_EngineType stmt = "" \/ engine = Some engineType)
            /\ err = CreateMeasurement env stmt Oids IndexList engineType).
  { intros Oids0 Oids IndexList engineType err.
    destruct (String.eqb_spec (cm_EngineType stmt) "") as [Hempty|Hgiven]; simpl.
    - intros H. injection H as <- <- <- <-. auto.
    - destruct engine as [t|]; simpl; [|discriminate].
      intros H. injection H as <- <- <- <-. auto. }
  destruct (cm_IndexList stmt) as [|l ls] eqn:Hlist; cbn [length Nat.ltb Nat.leb].
  - split.
    + intros _. destruct (negb (String.eqb (cm_EngineType stmt) "") && negb (match engine with Some _ => true | None => false end));
        discriminate.
    + intros Oids IndexList engineType err H.
      destruct (Hengine [] Oids IndexList engineType err H) as (-> & -> & He & ->).
      split; [reflexivity|]. split; [reflexivity|]. split; [reflexivity|].
      split; [exact He|]. split; [reflexivity|]. split; [reflexivity|].
      intros Hne. contradiction.
  - destruct (CreateMst.indexLoop env (l :: ls) 0 (cm_IndexType stmt) [])
      as [[e|out]|] eqn:Hloop.
    + split; [discriminate|discriminate].
    + split.
      * intros _. destruct (negb (String.eqb (cm_EngineType stmt) "")
                            && negb (match engine with Some _ => true | None => false end)); discriminate.
      * intros Oids IndexList engineType err H.
        destruct (Hengine out Oids IndexList engineType err H) as (-> & -> & He & ->).
        split; [reflexivity|]. split; [reflexivity|]. split; [reflexivity|].
        split; [exact He|]. split; [reflexivity|]. split; [discriminate|].
        intros _. destruct (Hout out eq_refl) as (more & -> & Hmore). exact Hmore.
    + split; [|discriminate].
      intros Hle Hpanic. apply Hsafe; [simpl in *; lia|reflexivity].
Qed.

End CreateMstFacts.

Example executeCreateMeasurementStatement_index_types_without_lists :
  CreateMst.executeCreateMeasurementStatement Cases.measurements
    (mkCreateMeasurementStatement "db0" "autogen" "cpu" [] "hash"
       ["text"; "field"] [["host"]] "")
  = IndexOutOfRange
  /\ CreateMst.executeCreateMeasurementStatement Cases.measurements
       (mkCreateMeasurementStatement "db0" "autogen" "cpu" [] "hash"
          ["text"; "field"] [["host"]; ["usage"]] "columnstore")
     = Asked [1; 2] [["host"]; ["usage"]] 1 None
  /\ CreateMst.executeCreateMeasurementStatement Cases.measurements
       (mkCreateMeasurementStatement "db0" "autogen" "cpu" [] "hash"
          ["field"] [["usage"; "idle"]] "")
     = Refused (CreateMst.errMultipleColumns ["usage"; "idle"]).
Proof. repeat split. Qed.
